(** * The notebooks and the custom inference handler, embedded in Rocq

    The repository holds three Jupyter notebooks.  Two of them deploy a
    LoRA multi-adapter endpoint through boto3 (the first one also ships a
    custom DJL Serving handler, [model.py]); the third deploys a
    function-calling Llama 3 through the SageMaker Python SDK.

    Python code is embedded shallowly: values are a small universe of
    Python objects; a computation is a function from the outside world, the
    calls made so far and the globals to the way it ends, the new globals
    and the calls it made; every call that leaves the repository (SDK,
    library, builtin I/O) is answered by the world and recorded. *)

From Stdlib Require Import List String Ascii ZArith Lia Bool Arith DecimalString.
Import ListNotations.
Local Open Scope string_scope.

(** ** Python values *)

#[warnings="-register-all"]
Inductive pyval : Type :=
| PNone
| PBool (b : bool)
| PInt (z : Z)
| PFloat (mantissa : Z) (exp10 : Z)       (* a finite float literal, m * 10^e *)
| PStr (s : string)
| PList (l : list pyval)
| PDict (d : list (string * pyval))        (* insertion-ordered, string keys *)
| PName (n : string)                       (* a library constant: torch.float16 *)
| PObj (cls : string) (ident : nat).       (* an opaque library object *)

(** [bool(v)]: None, False, zeros and empty containers are falsy.  Library
    objects define neither [__bool__] nor [__len__] here (modules, models,
    tensors handles), so they are truthy. *)
Definition py_truthy (v : pyval) : bool :=
  match v with
  | PNone => false
  | PBool b => b
  | PInt z => negb (z =? 0)%Z
  | PFloat m _ => negb (m =? 0)%Z
  | PStr s => negb (s =? "")
  | PList l => match l with [] => false | _ => true end
  | PDict d => match d with [] => false | _ => true end
  | PName _ => true
  | PObj _ _ => true
  end.

(** [isinstance(v, cls)] for a library class. *)
Definition py_isinstance (v : pyval) (c : string) : bool :=
  match v with
  | PObj cls _ => cls =? c
  | _ => false
  end.

(** [a == b] where [b] is a string literal. *)
Definition py_eq_str (v : pyval) (lit : string) : bool :=
  match v with
  | PStr s => s =? lit
  | _ => false
  end.

(** Dictionaries: lookup, and item assignment which keeps the position of a
    key that is already present. *)
Fixpoint dict_lookup (k : string) (d : list (string * pyval)) : option pyval :=
  match d with
  | [] => None
  | (k', v) :: d' => if k' =? k then Some v else dict_lookup k d'
  end.

Fixpoint dict_set (k : string) (v : pyval) (d : list (string * pyval))
  : list (string * pyval) :=
  match d with
  | [] => [(k, v)]
  | (k', v') :: d' =>
      if k' =? k then (k', v) :: d' else (k', v') :: dict_set k v d'
  end.

(** A dict display [{k1: v1, ..., **d}]: items are stored left to right. *)
Definition dict_update (d items : list (string * pyval)) : list (string * pyval) :=
  fold_left (fun acc kv => dict_set (fst kv) (snd kv) acc) items d.

Definition dict_keys (d : list (string * pyval)) : list string := map fst d.

Definition has_key (k : string) (d : list (string * pyval)) : bool :=
  match dict_lookup k d with Some _ => true | None => false end.

(** What [for x in v] iterates over; [None] when [v] is not iterable.  A str
    iterates over its one-character strings (strings are modelled by their
    bytes, so this is exact on ASCII text only). *)
Fixpoint chars (s : string) : list pyval :=
  match s with
  | EmptyString => []
  | String c s' => PStr (String c EmptyString) :: chars s'
  end.

Definition py_iter (v : pyval) : option (list pyval) :=
  match v with
  | PList l => Some l
  | PDict d => Some (map (fun kv => PStr (fst kv)) d)
  | PStr s => Some (chars s)
  | _ => None
  end.

(** A list of str. *)
Definition strs (l : list string) : pyval := PList (map PStr l).

(** ** Exceptions, calls and the outside world *)

(** An exception carries the method resolution order of its class, which is
    what an [except C] clause tests. *)
Record exn : Type := Exn { exn_mro : list string; exn_msg : string }.

Definition builtin_exn (cls : string) (msg : string) : exn :=
  Exn [cls; "Exception"; "BaseException"; "object"] msg.

Definition TypeError := builtin_exn "TypeError".
Definition AttributeError := builtin_exn "AttributeError".
Definition KeyError := Exn ["KeyError"; "LookupError"; "Exception"; "BaseException"; "object"].
Definition IndexError := Exn ["IndexError"; "LookupError"; "Exception"; "BaseException"; "object"].

Definition exn_isinstance (e : exn) (cls : string) : bool :=
  existsb (String.eqb cls) (exn_mro e).

(** A call that leaves the repository: the callee as the source writes it,
    positional arguments (the receiver first for a method of a library
    object) and keyword arguments. *)
Record call : Type := Call { fn : string; args : list pyval; kwargs : list (string * pyval) }.

Inductive reply : Type :=
| Gives (v : pyval)
| Throws (e : exn).

Definition event : Type := (call * reply)%type.

(** The world answers the n-th call of each callee (n counts the earlier
    calls of the same callee in the trace). *)
Definition World : Type := call -> nat -> reply.

(** The interpreter state: the two globals of [model.py]. *)
Record globals : Type := Globals {
  g_model : pyval;
  g_tokenizer : pyval
}.

Definition init_globals : globals := Globals PNone PNone.

Definition occurrences (f : string) (l : list event) : nat :=
  List.length (filter (fun ev => fn (fst ev) =? f) l).

(** ** The computation monad *)

Inductive outcome (A : Type) : Type :=
| Val (a : A)
| Exc (e : exn)
| Fuel.                     (* a loop ran out of the fuel it was given *)
Arguments Val {A} a.
Arguments Exc {A} e.
Arguments Fuel {A}.

(** What a computation leaves behind: how it ended, the globals, and the
    calls it made, oldest first. *)
Record ran (A : Type) : Type := Ran {
  out : outcome A;
  glob : globals;
  emitted : list event
}.
Arguments Ran {A} out glob emitted.
Arguments out {A} r.
Arguments glob {A} r.
Arguments emitted {A} r.

(** A computation reads the world, the calls made before it started (the
    world counts them) and the globals. *)
Definition M (A : Type) : Type := World -> list event -> globals -> ran A.

Definition ret {A} (a : A) : M A := fun _ _ g => Ran (Val a) g [].

Definition raise {A} (e : exn) : M A := fun _ _ g => Ran (Exc e) g [].

Definition out_of_fuel {A} : M A := fun _ _ g => Ran Fuel g [].

Definition bind {A B} (m : M A) (k : A -> M B) : M B :=
  fun w h g =>
    let r1 := m w h g in
    match out r1 with
    | Val a =>
        let r2 := k a w (h ++ emitted r1)%list (glob r1) in
        Ran (out r2) (glob r2) (emitted r1 ++ emitted r2)%list
    | Exc e => Ran (Exc e) (glob r1) (emitted r1)
    | Fuel => Ran Fuel (glob r1) (emitted r1)
    end.

Notation "x <- m ;; k" := (bind m (fun x => k))
  (at level 61, m at next level, right associativity).
Notation "m ;;; k" := (bind m (fun _ => k))
  (at level 61, right associativity).

Definition reply_outcome (r : reply) : outcome pyval :=
  match r with
  | Gives v => Val v
  | Throws e => Exc e
  end.

(** The one way out of the repository. *)
Definition invoke (c : call) : M pyval :=
  fun w h g =>
    let r := w c (occurrences (fn c) h) in
    Ran (reply_outcome r) g [(c, r)].

Definition ext (f : string) (a : list pyval) (kw : list (string * pyval)) : M pyval :=
  invoke (Call f a kw).

Definition get_model : M pyval := fun _ _ g => Ran (Val (g_model g)) g [].
Definition get_tokenizer : M pyval := fun _ _ g => Ran (Val (g_tokenizer g)) g [].
Definition set_model (v : pyval) : M unit :=
  fun _ _ g => Ran (Val tt) (Globals v (g_tokenizer g)) [].
Definition set_tokenizer (v : pyval) : M unit :=
  fun _ _ g => Ran (Val tt) (Globals (g_model g) v) [].

(** [try: m except cls: h] *)
Definition try_except {A} (m : M A) (cls : string) (handler : M A) : M A :=
  fun w h g =>
    let r1 := m w h g in
    match out r1 with
    | Exc e =>
        if exn_isinstance e cls then
          let r2 := handler w (h ++ emitted r1)%list (glob r1) in
          Ran (out r2) (glob r2) (emitted r1 ++ emitted r2)%list
        else r1
    | _ => r1
    end.

(** [with cm: body] for a context manager whose [__exit__] returns None, so
    that it never swallows an exception: [__exit__] runs however the body
    ends, and an exception of its own replaces the body's. *)
Definition with_ctx {A} (cm : pyval) (body : M A) : M A :=
  fun w h g =>
    let r0 := ext "__enter__" [cm] [] w h g in
    match out r0 with
    | Val _ =>
        let h1 := (h ++ emitted r0)%list in
        let r1 := body w h1 (glob r0) in
        match out r1 with
        | Fuel => Ran Fuel (glob r1) (emitted r0 ++ emitted r1)%list
        | o =>
            let r2 := ext "__exit__" [cm] [] w (h1 ++ emitted r1)%list (glob r1) in
            Ran (match out r2 with Val _ => o | Exc e => Exc e | Fuel => Fuel end)
                (glob r2) (emitted r0 ++ emitted r1 ++ emitted r2)%list
        end
    | Exc e => Ran (Exc e) (glob r0) (emitted r0)
    | Fuel => Ran Fuel (glob r0) (emitted r0)
    end.

(** Receivers: a method of [None] raises inside the interpreter; anything
    else is a library object and the call goes to the world. *)
Definition method (recv : pyval) (name : string) (a : list pyval)
    (kw : list (string * pyval)) : M pyval :=
  match recv with
  | PNone => raise (AttributeError ("'NoneType' object has no attribute " ++ name))
  | _ => ext name (recv :: a) kw
  end.

(** [recv.name(args)] when the arguments make calls of their own: the
    attribute is looked up before the arguments are evaluated. *)
Definition method_m (recv : pyval) (name : string)
    (a : M (list pyval * list (string * pyval))) : M pyval :=
  match recv with
  | PNone => raise (AttributeError ("'NoneType' object has no attribute " ++ name))
  | _ => xs <- a ;; ext name (recv :: fst xs) (snd xs)
  end.

(** [d.get(k, default)] on a decoded JSON value or a properties dict. *)
Definition py_get (v : pyval) (k : string) (default : pyval) : M pyval :=
  match v with
  | PDict d => ret (match dict_lookup k d with Some x => x | None => default end)
  | _ => raise (AttributeError "object has no attribute 'get'")
  end.

(** [v[k]]: dicts and lists are indexed in the interpreter, a library object
    answers through its [__getitem__]. *)
Definition subscript (v key : pyval) : M pyval :=
  match v, key with
  | PDict d, PStr k =>
      match dict_lookup k d with
      | Some x => ret x
      | None => raise (KeyError k)
      end
  | PList l, PInt i =>
      let j := if (i <? 0)%Z then (i + Z.of_nat (List.length l))%Z else i in
      if (j <? 0)%Z then raise (IndexError "list index out of range")
      else match nth_error l (Z.to_nat j) with
           | Some x => ret x
           | None => raise (IndexError "list index out of range")
           end
  | PNone, _ => raise (TypeError "'NoneType' object is not subscriptable")
  | _, _ => ext "__getitem__" [v; key] []
  end.

(** ["lit" + v] *)
Definition str_concat (lit : string) (v : pyval) : M string :=
  match v with
  | PStr s => ret (lit ++ s)
  | _ => raise (TypeError "can only concatenate str to str")
  end.

Definition print (v : pyval) : M pyval := ext "print" [v] [].

(** A line of IPython shell magic ([!cmd]); a failing command does not raise. *)
Definition shell (cmd : string) : M pyval := ext "!" [PStr cmd] [].

(** ** Sample worlds *)

Definition ValueError := builtin_exn "ValueError".

(** A stand-in for the [str()] of the values the model does not print. *)
Definition demo_repr : pyval -> string := fun _ => "<object>".

Definition anonymous : pyval := PObj "object" 0.

(** Outside a SageMaker role: [get_execution_role] raises ValueError, every
    other call answers with some object. *)
Definition world_without_role : World :=
  fun c _ =>
    if fn c =? "sagemaker.get_execution_role"
    then Throws (ValueError "The current AWS identity is not a role")
    else Gives anonymous.

Definition endpoint_description (status : string) : pyval :=
  PDict [("EndpointName", PStr "demo-endpoint");
         ("EndpointArn", PStr "arn:aws:sagemaker:us-east-1:123456789012:endpoint/demo-endpoint");
         ("EndpointStatus", PStr status)].

(** A deployment that goes well: the endpoint is "Creating" for the first
    [k] polls and "InService" from then on. *)
Definition world_in_service_after (k : nat) : World :=
  fun c n =>
    if fn c =? "sm_client.describe_endpoint" then
      Gives (endpoint_description (if (n <? k)%nat then "Creating" else "InService"))
    else if fn c =? "sm_client.create_model" then
      Gives (PDict [("ModelArn", PStr "arn:aws:sagemaker:us-east-1:123456789012:model/demo")])
    else if fn c =? "sm_client.create_endpoint" then
      Gives (PDict [("EndpointArn",
                     PStr "arn:aws:sagemaker:us-east-1:123456789012:endpoint/demo-endpoint")])
    else if (fn c =? "name_from_base") || (fn c =? "sagemaker.utils.name_from_base") then
      Gives (PStr "demo-2024-05-01-10-00-00-000")
    else if fn c =? "smr_client.invoke_endpoint" then
      Gives (PDict [("Body", PObj "StreamingBody" 0)])
    else Gives anonymous.

Definition serving_request : list (string * pyval) :=
  [("inputs", strs ["Tell me about Alpacas"; "Invente uma desculpa criativa"]);
   ("adapters", strs ["eng_alpaca"; "portuguese_alpaca"])].

(** The container serving a request with two prompts: the libraries answer
    with objects of their classes. *)
Definition serving_world : World :=
  fun c n =>
    if fn c =? "inputs.is_empty" then Gives (PBool false)
    else if fn c =? "inputs.get_as_json" then Gives (PDict serving_request)
    else if fn c =? "inputs.get_properties" then
      Gives (PDict [("model_id", PStr "huggyllama/llama-7b")])
    else if fn c =? "inputs.get_property" then
      Gives (match args c with
             | [_; PStr "name"] => PStr (if (n <? 2)%nat then "eng_alpaca" else "portuguese_alpaca")
             | _ => PStr (if (n <? 2)%nat then "adapters/eng_alpaca"
                          else "adapters/portuguese_alpaca")
             end)
    else if fn c =? "LlamaForCausalLM.from_pretrained" then Gives (PObj "LlamaForCausalLM" 1)
    else if fn c =? "LlamaTokenizer.from_pretrained" then Gives (PObj "LlamaTokenizer" 2)
    else if fn c =? "PeftModel.from_pretrained" then Gives (PObj "PeftModel" 3)
    else if fn c =? "tokenizer.pad_token" then Gives PNone
    else if fn c =? "tokenizer.batch_decode" then
      Gives (strs ["Alpacas are members of the camelid family.";
                   "Desculpe, tenho um compromisso."])
    else Gives anonymous.

(** The same container when the request is the empty one DJL Serving sends
    to warm the model up. *)
Definition warmup_world : World :=
  fun c n => if fn c =? "inputs.is_empty" then Gives (PBool true) else serving_world c n.

Definition loaded_globals : globals :=
  Globals (PObj "LlamaForCausalLM" 1) (PObj "LlamaTokenizer" 2).

(** A world where every call fails. *)
Definition failing_world : World :=
  fun _ _ => Throws (builtin_exn "RuntimeError" "CUDA error: out of memory").

(** The container handed a request whose body decodes to [body]. *)
Definition world_with_request (body : pyval) : World :=
  fun c n => if fn c =? "inputs.get_as_json" then Gives body else serving_world c n.

(** A request whose parameters name the adapters a second time. *)
Definition request_naming_adapters_twice : list (string * pyval) :=
  [("inputs", strs ["Tell me about Alpacas"]);
   ("adapters", strs ["eng_alpaca"]);
   ("parameters", PDict [("adapters", strs ["portuguese_alpaca"])])].

(** A request that has adapters and parameters but no inputs. *)
Definition request_without_inputs : list (string * pyval) :=
  [("adapters", strs ["eng_alpaca"]); ("parameters", PDict [("max_new_tokens", PInt 32)])].

(** An endpoint whose creation failed. *)
Definition failed_description : list (string * pyval) :=
  [("EndpointName", PStr "demo-endpoint");
   ("EndpointArn", PStr "arn:aws:sagemaker:us-east-1:123456789012:endpoint/demo-endpoint");
   ("EndpointStatus", PStr "Failed");
   ("FailureReason", PStr "The primary container did not pass the ping health check.")].

Definition world_failed_endpoint : World :=
  fun c _ =>
    if fn c =? "sm_client.describe_endpoint" then Gives (PDict failed_description)
    else Gives anonymous.

(** A description that lacks the status. *)
Definition world_without_status : World :=
  fun c _ =>
    if fn c =? "sm_client.describe_endpoint"
    then Gives (PDict [("EndpointName", PStr "demo-endpoint")])
    else Gives anonymous.

(** Outside a SageMaker role, with the IAM role the notebook asks for. *)
Definition iam_role : list (string * pyval) :=
  [("Role",
    PDict [("RoleName", PStr "sagemaker_execution_role");
           ("Arn", PStr "arn:aws:iam::123456789012:role/sagemaker_execution_role")])].

Definition world_with_iam_role : World :=
  fun c n =>
    if fn c =? "iam.get_role" then Gives (PDict iam_role) else world_without_role c n.

(** An endpoint that answers a chat request with no choice. *)
Definition world_without_choices : World :=
  fun c _ =>
    if fn c =? "llm.predict" then Gives (PDict [("choices", PList [])])
    else Gives anonymous.

(** A deployment that goes well up to the endpoint, which then fails the
    requests. *)
Definition world_failing_requests : World :=
  fun c n =>
    if fn c =? "smr_client.invoke_endpoint"
    then Throws (builtin_exn "ModelError" "Received server error (500) from primary")
    else world_in_service_after 0 c n.

(** The container when the first wrap of the base model fails and the later
    ones succeed. *)
Definition world_failing_first_wrap : World :=
  fun c n =>
    if fn c =? "PeftModel.from_pretrained" then
      if (n =? 0)%nat then Throws (builtin_exn "OSError" "adapter_config.json not found")
      else Gives (PObj "PeftModel" 3)
    else serving_world c n.

(** The container when the first load of the tokenizer fails and the later
    ones succeed; the requests are warm-up requests. *)
Definition world_failing_first_tokenizer : World :=
  fun c n =>
    if fn c =? "LlamaTokenizer.from_pretrained" then
      if (n =? 0)%nat then Throws (builtin_exn "OSError" "tokenizer.model not found")
      else Gives (PObj "LlamaTokenizer" 2)
    else warmup_world c n.

(** A chat completion with one choice. *)
Definition chat_completion (content : string) : pyval :=
  PDict [("object", PStr "chat.completion");
         ("choices",
          PList [PDict [("index", PInt 0);
                        ("message", PDict [("role", PStr "assistant");
                                           ("content", PStr content)]);
                        ("finish_reason", PStr "eos_token")]])].

(** A deployment that goes well, for the three notebooks: the endpoint is
    "Creating" for the first [k] polls and the predictor answers with a
    chat completion. *)
Definition world_going_well (k : nat) : World :=
  fun c n =>
    if fn c =? "llm.predict"
    then Gives (chat_completion "Deep learning is a subset of machine learning.")
    else world_in_service_after k c n.

(** ** The custom inference handler [model.py] *)

Section Interpreter.

(** Python's [str()] of the values the model does not print itself: floats,
    containers (their [repr]) and library objects. *)
Variable py_repr : pyval -> string.

(** What an f-string field [{v}] expands to. *)
Definition py_format (v : pyval) : string :=
  match v with
  | PStr s => s
  | PNone => "None"
  | PBool true => "True"
  | PBool false => "False"
  | PInt z => NilZero.string_of_int (Z.to_int z)
  | _ => py_repr v
  end.

Definition nl : string := String (ascii_of_nat 10) EmptyString.

(** The continuation lines of the two triple-quoted templates start with the
    eight spaces of the source's indentation. *)
Definition indent8 : string := "        ".

(** The text of the two templates before the instruction. *)
Definition paired_preamble : string :=
  "Below is an instruction that describes a task, paired with an input that provides further context. "
    ++ nl ++ indent8
    ++ "Write a response that appropriately completes the request. ### Instruction: ".

Definition plain_preamble : string :=
  "Below is an instruction that describes a task. Write a response that appropriately completes the "
    ++ nl ++ indent8 ++ "request.### Instruction: ".

Definition generate_prompt (instruction input : pyval) : string :=
  if py_truthy input then
    paired_preamble ++ py_format instruction ++ " ### Input: " ++ py_format input ++ " "
      ++ nl ++ indent8 ++ "### Response:"
  else
    plain_preamble ++ py_format instruction ++ " ### Response:".

(** [prompts = []; for inp in instruction: prompts.append(...)] *)
Definition build_prompts (instruction input : pyval) : M (list string) :=
  match py_iter instruction with
  | Some items =>
      ret (fold_left (fun prompts inp => (prompts ++ [generate_prompt inp input])%list) items [])
  | None => raise (TypeError "object is not iterable")
  end.

(** Calling the value of a global: [None] is not callable. *)
Definition call_value (f : pyval) (name : string) (a : list pyval)
    (kw : list (string * pyval)) : M pyval :=
  match f with
  | PNone => raise (TypeError "'NoneType' object is not callable")
  | _ => ext name (f :: a) kw
  end.

Definition to_current_device (t : pyval) : M pyval :=
  method_m t ".to" (dev <- ext "torch.cuda.current_device" [] [] ;; ret ([dev], [])).

Definition evaluate (instruction adapters input max_new_tokens : pyval) : M pyval :=
  prompts <- build_prompts instruction input ;;
  tok <- get_tokenizer ;;
  inputs <- call_value tok "tokenizer" [PList (map PStr prompts)]
              [("return_tensors", PStr "pt"); ("padding", PBool true)] ;;
  ids <- subscript inputs (PStr "input_ids") ;;
  input_ids <- to_current_device ids ;;
  mask <- subscript inputs (PStr "attention_mask") ;;
  attention_mask <- to_current_device mask ;;
  generation_config <- ext "GenerationConfig" []
              [("num_beams", PInt 1); ("do_sample", PBool false)] ;;
  ext "logging.info" [PStr ("using adapters: " ++ py_format adapters)] [] ;;;
  cm <- ext "torch.no_grad" [] [] ;;
  generation_output <-
    with_ctx cm
      (m <- get_model ;;
       method m "model.generate" []
         [("input_ids", input_ids); ("attention_mask", attention_mask);
          ("adapters", adapters); ("generation_config", generation_config);
          ("max_new_tokens", max_new_tokens)]) ;;
  tok' <- get_tokenizer ;;
  method tok' "tokenizer.batch_decode" [generation_output]
    [("skip_special_tokens", PBool true)].

(** [evaluate(sentence, adapters, **generation_kwargs)]: the keyword
    arguments are bound against
    [evaluate(instruction, adapters, input=None, max_new_tokens=64, **kwargs)]. *)
Definition evaluate_kwargs (sentence adapters generation_kwargs : pyval) : M pyval :=
  match generation_kwargs with
  | PDict kw =>
      if has_key "instruction" kw || has_key "adapters" kw then
        raise (TypeError "evaluate() got multiple values for argument")
      else
        evaluate sentence adapters
          (match dict_lookup "input" kw with Some v => v | None => PNone end)
          (match dict_lookup "max_new_tokens" kw with Some v => v | None => PInt 64 end)
  | _ => raise (TypeError "evaluate() argument after ** must be a mapping")
  end.

Definition load_model (model_id : pyval) : M (pyval * pyval) :=
  model <- ext "LlamaForCausalLM.from_pretrained" [model_id]
             [("low_cpu_mem_usage", PBool true); ("torch_dtype", PName "torch.float16");
              ("device_map", PStr "auto")] ;;
  tokenizer <- ext "LlamaTokenizer.from_pretrained" [model_id] [] ;;
  pad <- method tokenizer "tokenizer.pad_token" [] [] ;;
  (if negb (py_truthy pad)
   then method tokenizer "tokenizer.pad_token=" [PStr "[PAD]"] []
   else ret PNone) ;;;
  ext "logging.info" [PStr ("Loaded Base Model " ++ py_format model_id)] [] ;;;
  ret (model, tokenizer).

Definition register_adapter (inputs : pyval) : M pyval :=
  adapter_name <- method inputs "inputs.get_property" [PStr "name"] [] ;;
  adapter_model_id_or_path <- method inputs "inputs.get_property" [PStr "src"] [] ;;
  ext "logging.info"
    [PStr ("Registering adapter " ++ py_format adapter_name ++ " from "
           ++ py_format adapter_model_id_or_path)] [] ;;;
  model <- get_model ;;
  if py_isinstance model "PeftModel" then
    method model "model.load_adapter" [adapter_model_id_or_path; adapter_name] [] ;;;
    ret PNone
  else
    wrapped <- ext "PeftModel.from_pretrained"
                 [model; adapter_model_id_or_path; adapter_name] [] ;;
    set_model wrapped ;;;
    ret PNone.

(** The first statement of [handle]: [if not model: ...]. *)
Definition ensure_loaded (inputs : pyval) : M unit :=
  model <- get_model ;;
  if negb (py_truthy model) then
    properties <- method inputs "inputs.get_properties" [] [] ;;
    model_id <- py_get properties "model_id" PNone ;;
    loaded <- load_model model_id ;;
    set_model (fst loaded) ;;;
    set_tokenizer (snd loaded)
  else ret tt.

(** [Output().add_as_json(outputs)] *)
Definition respond (outputs : pyval) : M pyval :=
  output <- ext "Output" [] [] ;;
  method output ".add_as_json" [outputs] [].

(** The rest of [handle], from [if inputs.is_empty()] on. *)
Definition serve (inputs : pyval) : M pyval :=
  empty <- method inputs "inputs.is_empty" [] [] ;;
  if py_truthy empty then ret PNone
  else
    json_inputs <- method inputs "inputs.get_as_json" [] [] ;;
    sentence <- py_get json_inputs "inputs" PNone ;;
    adapters <- py_get json_inputs "adapters" (PList []) ;;
    generation_kwargs <- py_get json_inputs "parameters" (PDict []) ;;
    outputs <- evaluate_kwargs sentence adapters generation_kwargs ;;
    respond outputs.

Definition handle (inputs : pyval) : M pyval :=
  ensure_loaded inputs ;;;
  serve inputs.

(** ** The notebooks *)

(** The readiness wait, the same cell in both LoRA notebooks.  [fuel] bounds
    the iterations of the [while] loop. *)
Fixpoint poll_while_creating (fuel : nat) (sm_client : pyval) (endpoint_name : string)
    (resp status : pyval) : M (pyval * pyval) :=
  if py_eq_str status "Creating" then
    match fuel with
    | O => out_of_fuel
    | S fuel' =>
        ext "time.sleep" [PInt 60] [] ;;;
        resp' <- method sm_client "sm_client.describe_endpoint" []
                   [("EndpointName", PStr endpoint_name)] ;;
        status' <- subscript resp' (PStr "EndpointStatus") ;;
        line <- str_concat "Status: " status' ;;
        print (PStr line) ;;;
        poll_while_creating fuel' sm_client endpoint_name resp' status'
    end
  else ret (resp, status).

Definition wait_for_endpoint (fuel : nat) (sm_client : pyval) (endpoint_name : string)
  : M pyval :=
  resp <- method sm_client "sm_client.describe_endpoint" []
            [("EndpointName", PStr endpoint_name)] ;;
  status <- subscript resp (PStr "EndpointStatus") ;;
  line <- str_concat "Status: " status ;;
  print (PStr line) ;;;
  final <- poll_while_creating fuel sm_client endpoint_name resp status ;;
  arn <- subscript (fst final) (PStr "EndpointArn") ;;
  arn_line <- str_concat "Arn: " arn ;;
  print (PStr arn_line) ;;;
  status_line <- str_concat "Status: " (snd final) ;;
  print (PStr status_line).

(** An inference cell of the LoRA notebooks:
    [invoke_endpoint(..., Body=json.dumps(payload), ...)] and the display of
    the decoded response body. *)
Definition invoke_cell (smr_client : pyval) (endpoint_name : string) (payload : pyval)
  : M pyval :=
  response_model <-
    method_m smr_client "smr_client.invoke_endpoint"
      (body <- ext "json.dumps" [payload] [] ;;
       ret ([], [("EndpointName", PStr endpoint_name); ("Body", body);
                 ("ContentType", PStr "application/json")])) ;;
  stream <- subscript response_model (PStr "Body") ;;
  raw <- method stream ".read" [] [] ;;
  method raw ".decode" [PStr "utf8"] [].

Definition djl_payload_1 : pyval :=
  PDict [("inputs", strs ["Tell me about Alpacas";
                          "Invente uma desculpa criativa pra dizer que não preciso ir à festa.";
                          "Tell me about AWS"]);
         ("adapters", strs ["eng_alpaca"; "portuguese_alpaca"; "eng_alpaca"])].

Definition djl_payload_2 : pyval :=
  PDict [("inputs", strs ["Tell me about Alpacas"; "Invente uma desculpa criativa"]);
         ("adapters", strs ["eng_alpaca"; "portuguese_alpaca"])].

Definition lmi_payload : pyval :=
  PDict [("inputs", strs ["Piensa en una excusa creativa para decir que no necesito ir a la fiesta."]);
         ("adapters", strs ["es"])].

(** The session cell shared by the LoRA notebooks (the first one reads the
    role after the buckets, the second before the session). *)
Definition snapshot (repo dir : string) : M pyval :=
  ext "snapshot_download" [PStr repo]
    [("local_dir", PStr dir); ("local_dir_use_symlinks", PBool false)].

Definition pack_model_dir : M pyval :=
  shell "rm -f model.tar.gz" ;;;
  shell "rm -rf lora-multi-adapter/.ipynb_checkpoints" ;;;
  shell "tar czvf model.tar.gz -C lora-multi-adapter .".

(** *** Serve Multiple Fine-Tuned LoRA Adapters with DJL Serving *)
Definition djl_notebook (fuel : nat) : M pyval :=
  shell "pip install huggingface_hub sagemaker boto3 awscli --upgrade --quiet" ;;;
  shell "rm -rf lora-multi-adapter" ;;;
  shell "mkdir -p lora-multi-adapter/adapters" ;;;
  snapshot "tloen/alpaca-lora-7b" "lora-multi-adapter/adapters/eng_alpaca" ;;;
  snapshot "22h/cabrita-lora-v0-1" "lora-multi-adapter/adapters/portuguese_alpaca" ;;;
  ext "%%writefile" [PStr "lora-multi-adapter/serving.properties"] [] ;;;
  ext "%%writefile" [PStr "lora-multi-adapter/model.py"] [] ;;;
  pack_model_dir ;;;
  (* session and clients *)
  sess <- ext "sagemaker.session.Session" [] [] ;;
  bucket <- method sess "sess.default_bucket" [] [] ;;
  model_bucket <- method sess "sess.default_bucket" [] [] ;;
  role <- ext "sagemaker.get_execution_role" [] [] ;;
  region <- method sess "sess._region_name" [] [] ;;
  account_id <- method sess "sess.account_id" [] [] ;;
  s3_client <- ext "boto3.client" [PStr "s3"] [] ;;
  sm_client <- ext "boto3.client" [PStr "sagemaker"] [] ;;
  smr_client <- ext "boto3.client" [PStr "sagemaker-runtime"] [] ;;
  s3_code_artifact_accelerate <-
    method sess "sess.upload_data"
      [PStr "model.tar.gz"; bucket; PStr "hf-large-model-djl/g5-lora-multi-adapter"] [] ;;
  (* model *)
  retrieved_uri <- ext "image_uris.retrieve" []
      [("framework", PStr "djl-deepspeed"); ("region", region); ("version", PStr "0.26.0")] ;;
  ext "name_from_base" [PStr "g5-lora-multi-adapter"] [] ;;;
  print (PStr ("Not working image --- > " ++ py_format retrieved_uri ++ "::")) ;;;
  let inference_image_uri :=
    "622343165275.dkr.ecr.us-east-1.amazonaws.com/djl-inference:0.26.0-deepspeed0.12.6-cu121" in
  print (PStr ("finally the image --- > " ++ inference_image_uri ++ "::")) ;;;
  model_name_acc <- ext "name_from_base" [PStr "g5-lora-multi-adapter"] [] ;;
  print model_name_acc ;;;
  create_model_response <-
    method sm_client "sm_client.create_model" []
      [("ModelName", model_name_acc); ("ExecutionRoleArn", role);
       ("PrimaryContainer",
        PDict [("Image", PStr inference_image_uri);
               ("ModelDataUrl", s3_code_artifact_accelerate);
               ("Environment", PDict [("ENABLE_ADAPTERS_PREVIEW", PStr "true")])])] ;;
  model_arn <- subscript create_model_response (PStr "ModelArn") ;;
  (* endpoint configuration and endpoint *)
  let endpoint_config_name := py_format model_name_acc ++ "-config" in
  let endpoint_name := py_format model_name_acc ++ "-endpoint" in
  method sm_client "sm_client.create_endpoint_config" []
    [("EndpointConfigName", PStr endpoint_config_name);
     ("ProductionVariants",
      PList [PDict [("VariantName", PStr "variant1");
                    ("ModelName", model_name_acc);
                    ("InstanceType", PStr "ml.g5.2xlarge");
                    ("InitialInstanceCount", PInt 1);
                    ("ModelDataDownloadTimeoutInSeconds", PInt 1800);
                    ("ContainerStartupHealthCheckTimeoutInSeconds", PInt 1800)]])] ;;;
  print (PStr ("endpoint_name: " ++ endpoint_name)) ;;;
  method sm_client "sm_client.create_endpoint" []
    [("EndpointName", PStr (py_format (PStr endpoint_name)));
     ("EndpointConfigName", PStr endpoint_config_name)] ;;;
  wait_for_endpoint fuel sm_client endpoint_name ;;;
  (* inference requests *)
  invoke_cell smr_client endpoint_name djl_payload_1 ;;;
  invoke_cell smr_client endpoint_name djl_payload_2 ;;;
  (* clean up *)
  method sm_client "sm_client.delete_endpoint" [] [("EndpointName", PStr endpoint_name)] ;;;
  method sm_client "sm_client.delete_endpoint_config" []
    [("EndpointConfigName", PStr endpoint_config_name)] ;;;
  ext "image_uris.retrieve" [PStr "djl-neuronx"]
    [("region", region); ("version", PStr "0.26.0")].

(** *** Serving LoRA-based Llama 2 adapters with high performance *)
Definition env_generation : list (string * pyval) :=
  [("HUGGINGFACE_HUB_CACHE", PStr "/tmp");
   ("TRANSFORMERS_CACHE", PStr "/tmp");
   ("SERVING_LOAD_MODELS", PStr "test::Python=/opt/ml/model");
   ("OPTION_MODEL_ID", PStr "TheBloke/Llama-2-7B-Chat-fp16");
   ("OPTION_TRUST_REMOTE_CODE", PStr "true");
   ("OPTION_TENSOR_PARALLEL_DEGREE", PStr "max");
   ("OPTION_ROLLING_BATCH", PStr "vllm");
   ("OPTION_MAX_ROLLING_BATCH_SIZE", PStr "32");
   ("OPTION_DTYPE", PStr "fp16");
   ("OPTION_ENABLE_LORA", PStr "true");
   ("OPTION_GPU_MEMORY_UTILIZATION", PStr "0.8");
   ("OPTION_MAX_LORA_RANK", PStr "64");
   ("OPTION_MAX_CPU_LORAS", PStr "4")].

Definition lmi_notebook (fuel : nat) : M pyval :=
  shell "pip install sagemaker boto3 huggingface_hub awscli --upgrade --quiet" ;;;
  role <- ext "sagemaker.get_execution_role" [] [] ;;
  sess <- ext "sagemaker.session.Session" [] [] ;;
  bucket <- method sess "sess.default_bucket" [] [] ;;
  model_bucket <- method sess "sess.default_bucket" [] [] ;;
  region <- method sess "sess._region_name" [] [] ;;
  account_id <- method sess "sess.account_id" [] [] ;;
  s3_client <- ext "boto3.client" [PStr "s3"] [] ;;
  sm_client <- ext "boto3.client" [PStr "sagemaker"] [] ;;
  smr_client <- ext "boto3.client" [PStr "sagemaker-runtime"] [] ;;
  jinja_env <- ext "jinja2.Environment" [] [] ;;
  (* adapters *)
  shell "rm -rf lora-multi-adapter" ;;;
  shell "mkdir -p lora-multi-adapter/adapters" ;;;
  shell "echo 'Lora Multi Adapter Model' > lora-multi-adapter/README.txt" ;;;
  snapshot "UnderstandLing/llama-2-7b-chat-ru" "lora-multi-adapter/adapters/ru" ;;;
  snapshot "UnderstandLing/llama-2-7b-chat-es" "lora-multi-adapter/adapters/es" ;;;
  snapshot "UnderstandLing/llama-2-7b-chat-fr" "lora-multi-adapter/adapters/fr" ;;;
  pack_model_dir ;;;
  s3_code_artifact_accelerate <-
    method sess "sess.upload_data"
      [PStr "model.tar.gz"; model_bucket;
       PStr "hf-large-model-djl/multi-lora/Llama-2-7b-fp16/code"] [] ;;
  (* container and its environment *)
  boto_session <- method sess "sess.boto_session" [] [] ;;
  session_region <- method boto_session ".region_name" [] [] ;;
  deepspeed_image_uri <- ext "image_uris.retrieve" []
      [("framework", PStr "djl-deepspeed"); ("region", session_region);
       ("version", PStr "0.27.0")] ;;
  let env := PDict env_generation in
  let inference_image_uri := deepspeed_image_uri in
  print (PStr ("Environment variables are ---- > " ++ py_format env)) ;;;
  print (PStr ("Image going to be used is ---- > " ++ py_format inference_image_uri)) ;;;
  (* model *)
  model_name <- ext "sagemaker.utils.name_from_base" [PStr "lmi-llama2-7b"] [] ;;
  print model_name ;;;
  create_model_response <-
    method sm_client "sm_client.create_model" []
      [("ModelName", model_name); ("ExecutionRoleArn", role);
       ("PrimaryContainer",
        PDict [("Image", inference_image_uri);
               ("Environment", env);
               ("ModelDataUrl", s3_code_artifact_accelerate)])] ;;
  model_arn <- subscript create_model_response (PStr "ModelArn") ;;
  print (PStr ("Created Model: " ++ py_format model_arn)) ;;;
  (* endpoint configuration and endpoint *)
  let endpoint_config_name := py_format model_name ++ "-config" in
  let endpoint_name := py_format model_name ++ "-endpoint" in
  method sm_client "sm_client.create_endpoint_config" []
    [("EndpointConfigName", PStr endpoint_config_name);
     ("ProductionVariants",
      PList [PDict [("VariantName", PStr "variant1");
                    ("ModelName", model_name);
                    ("InstanceType", PStr "ml.g5.12xlarge");
                    ("InitialInstanceCount", PInt 1);
                    ("ContainerStartupHealthCheckTimeoutInSeconds", PInt 500);
                    ("RoutingConfig",
                     PDict [("RoutingStrategy", PStr "LEAST_OUTSTANDING_REQUESTS")])]])] ;;;
  create_endpoint_response <-
    method sm_client "sm_client.create_endpoint" []
      [("EndpointName", PStr (py_format (PStr endpoint_name)));
       ("EndpointConfigName", PStr endpoint_config_name)] ;;
  endpoint_arn <- subscript create_endpoint_response (PStr "EndpointArn") ;;
  print (PStr ("Created Endpoint: " ++ py_format endpoint_arn)) ;;;
  wait_for_endpoint fuel sm_client endpoint_name ;;;
  (* inference request *)
  invoke_cell smr_client endpoint_name lmi_payload ;;;
  (* clean up *)
  method sm_client "sm_client.delete_endpoint" [] [("EndpointName", PStr endpoint_name)] ;;;
  method sm_client "sm_client.delete_endpoint_config" []
    [("EndpointConfigName", PStr endpoint_config_name)] ;;;
  method sm_client "sm_client.delete_model" [] [("ModelName", model_name)].

(** *** Function calling on LLM hosted on Amazon SageMaker *)

(** [try: role = sagemaker.get_execution_role()
     except ValueError: ... iam.get_role(...)['Role']['Arn']] *)
Definition role_from_iam : M pyval :=
  iam <- ext "boto3.client" [PStr "iam"] [] ;;
  found <- method iam "iam.get_role" [] [("RoleName", PStr "sagemaker_execution_role")] ;;
  r <- subscript found (PStr "Role") ;;
  subscript r (PStr "Arn").

Definition role_call : call := Call "sagemaker.get_execution_role" [] [].

Definition resolve_role : M pyval :=
  try_except (invoke role_call) "ValueError" role_from_iam.

Definition message (role content : string) : pyval :=
  PDict [("role", PStr role); ("content", PStr content)].

Definition dq : string := String (ascii_of_nat 34) EmptyString.

Definition chat_messages : list pyval :=
  [message "system" "You are a helpful assistant.";
   message "user" "What is deep learning?"].

Definition chat_parameters : list (string * pyval) :=
  [("model", PStr "Trelis/Meta-Llama-3-8B-Instruct-function-calling");
   ("top_p", PFloat 6 (-1));
   ("temperature", PFloat 9 (-1));
   ("max_tokens", PInt 512)].

Definition function_call_text : string :=
  "{" ++ nl ++ "    " ++ dq ++ "name" ++ dq ++ ": " ++ dq ++ "get_current_weather" ++ dq ++ ","
      ++ nl ++ "    " ++ dq ++ "arguments" ++ dq ++ ": {"
      ++ nl ++ "        " ++ dq ++ "city" ++ dq ++ ": " ++ dq ++ "London" ++ dq
      ++ nl ++ "    }" ++ nl ++ "}".

Definition function_messages : list pyval :=
  [message "function_metadata" "FUNCTION_METADATA";
   message "function_call" function_call_text;
   message "user" "What is the current weather in London?"].

Definition function_parameters : list (string * pyval) :=
  [("model", PStr "Trelis/Meta-Llama-3-8B-Instruct-function-calling");
   ("top_p", PFloat 6 (-1));
   ("temperature", PFloat 9 (-1));
   ("max_tokens", PInt 512);
   ("stop", strs ["<|eot_id|>"])].

(** [{"messages": messages, **parameters}] *)
Definition chat_payload (messages : list pyval) (parameters : list (string * pyval))
  : pyval :=
  PDict (dict_update [("messages", PList messages)] parameters).

(** [chat = llm.predict(payload);
     print(chat["choices"][0]["message"]["content"].strip())] *)
Definition predict_cell (llm payload : pyval) : M pyval :=
  chat <- method llm "llm.predict" [payload] [] ;;
  choices <- subscript chat (PStr "choices") ;;
  first <- subscript choices (PInt 0) ;;
  reply_message <- subscript first (PStr "message") ;;
  content <- subscript reply_message (PStr "content") ;;
  stripped <- method content ".strip" [] [] ;;
  print stripped.

Definition hf_config : list (string * pyval) :=
  [("HF_MODEL_ID", PStr "Trelis/Meta-Llama-3-8B-Instruct-function-calling");
   ("SM_NUM_GPUS", PStr "1");
   ("MAX_INPUT_LENGTH", PStr "2048");
   ("MAX_TOTAL_TOKENS", PStr "4096");
   ("MAX_BATCH_TOTAL_TOKENS", PStr "8192");
   ("MESSAGES_API_ENABLED", PStr "true");
   ("HUGGING_FACE_HUB_TOKEN", PStr "")].

Definition function_calling_notebook : M pyval :=
  shell "pip install sagemaker --upgrade --quiet" ;;;
  sess0 <- ext "sagemaker.Session" [] [] ;;
  sagemaker_session_bucket <-
    match sess0 with
    | PNone => ret PNone
    | _ => method sess0 "sess.default_bucket" [] []
    end ;;
  role <- resolve_role ;;
  sess <- ext "sagemaker.Session" [] [("default_bucket", sagemaker_session_bucket)] ;;
  print (PStr ("sagemaker role arn: " ++ py_format role)) ;;;
  region <- method sess "sess.boto_region_name" [] [] ;;
  print (PStr ("sagemaker session region: " ++ py_format region)) ;;;
  (* container image *)
  region' <- method sess "sess.boto_region_name" [] [] ;;
  let llm_image :=
    "763104351884.dkr.ecr." ++ py_format region'
      ++ ".amazonaws.com/huggingface-pytorch-tgi-inference:2.1-tgi2.0-gpu-py310-cu121-ubuntu22.04" in
  print (PStr ("llm image uri: " ++ llm_image)) ;;;
  (* model and deployment *)
  llm_model <- ext "HuggingFaceModel" []
      [("role", role); ("image_uri", PStr llm_image); ("env", PDict hf_config)] ;;
  llm <- method llm_model "llm_model.deploy" []
      [("initial_instance_count", PInt 1);
       ("instance_type", PStr "ml.g5.12xlarge");
       ("container_startup_health_check_timeout", PInt 900)] ;;
  (* chat and function calling *)
  predict_cell llm (chat_payload chat_messages chat_parameters) ;;;
  predict_cell llm (chat_payload function_messages function_parameters) ;;;
  (* clean up *)
  method llm "llm.delete_model" [] [] ;;;
  method llm "llm.delete_endpoint" [] [].

(** * Properties *)

(** ** Properties of every run, closed under sequencing

    A property of how a computation ends and of the calls it makes, which
    holds of the steps of the monad and of every admissible call, and is
    kept by sequencing, holds of every script written with them. *)

Class Closed (P : forall A : Type, outcome A -> list event -> Prop)
    (admissible : call -> Prop) : Prop := {
  P_val : forall A (a : A), P A (Val a) [];
  P_exc : forall A e, P A (Exc e) [];
  P_fuel : forall A, P A Fuel [];
  P_call : forall c r, admissible c -> P pyval (reply_outcome r) [(c, r)];
  P_seq : forall A B (a : A) e1 (o : outcome B) e2,
      P A (Val a) e1 -> P B o e2 -> P B o (e1 ++ e2)%list;
  P_exc_cast : forall A B e l, P A (Exc e) l -> P B (Exc e) l;
  P_fuel_cast : forall A B l, P A Fuel l -> P B Fuel l
}.

(** The property holds of every run of [m] in the world [w]. *)
Definition Holds (P : forall A : Type, outcome A -> list event -> Prop) (w : World)
    {A} (m : M A) : Prop :=
  forall h g, P A (out (m w h g)) (emitted (m w h g)).

(** *** Every call made is of a given kind *)

Definition all_calls (Pc : call -> Prop) : forall A : Type, outcome A -> list event -> Prop :=
  fun _ _ l => Forall (fun ev => Pc (fst ev)) l.

(** *** Exceptions propagate

    A run propagates exceptions when the first call that throws ends it:
    nothing follows that call but the [__exit__] of the context managers
    being left, and the run ends with the exception thrown last. *)

Definition clean (l : list event) : Prop :=
  Forall (fun ev => exists v, snd ev = Gives v) l.

Definition unwinding (l : list event) : Prop :=
  Forall (fun ev => fn (fst ev) = "__exit__") l.

Fixpoint last_thrown (e : exn) (l : list event) : exn :=
  match l with
  | [] => e
  | (_, Throws e') :: l' => last_thrown e' l'
  | (_, Gives _) :: l' => last_thrown e l'
  end.

Definition propagated (A : Type) (o : outcome A) (l : list event) : Prop :=
  clean l
  \/ exists pre c e post,
       l = (pre ++ (c, Throws e) :: post)%list
       /\ clean pre /\ unwinding post /\ o = Exc (last_thrown e post).

(** ** Prompt construction *)

(** The prompt has the input section: the instruction is followed by
    [### Input:] and the input, under the preamble that announces an input. *)
Definition has_input_section (instruction input : pyval) (prompt : string) : Prop :=
  prompt = paired_preamble ++ py_format instruction ++ " ### Input: "
             ++ py_format input ++ " " ++ nl ++ indent8 ++ "### Response:".

(** The prompt is the template that only carries the instruction. *)
Definition instruction_only (instruction : pyval) (prompt : string) : Prop :=
  prompt = plain_preamble ++ py_format instruction ++ " ### Response:".

(** A decision procedure for [clean]. *)
Definition cleanb (l : list event) : bool :=
  forallb (fun ev => match snd ev with Gives _ => true | Throws _ => false end) l.

(** ** The operations of the repository *)

Inductive operation : Type :=
| Evaluate (instruction adapters input max_new_tokens : pyval)
| LoadModel (model_id : pyval)
| RegisterAdapter (inputs : pyval)
| Handle (inputs : pyval)
| DjlNotebook (fuel : nat)
| LmiNotebook (fuel : nat)
| FunctionCallingNotebook.

(** In every world, every run of the operation propagates exceptions. *)
Definition propagates_exceptions (op : operation) : Prop :=
  forall w,
    match op with
    | Evaluate i a x n => Holds propagated w (evaluate i a x n)
    | LoadModel id => Holds propagated w (load_model id)
    | RegisterAdapter inputs => Holds propagated w (register_adapter inputs)
    | Handle inputs => Holds propagated w (handle inputs)
    | DjlNotebook fuel => Holds propagated w (djl_notebook fuel)
    | LmiNotebook fuel => Holds propagated w (lmi_notebook fuel)
    | FunctionCallingNotebook => Holds propagated w function_calling_notebook
    end.

(** ** The readiness wait *)

Definition describe_call (sm_client : pyval) (endpoint_name : string) : call :=
  Call "sm_client.describe_endpoint" [sm_client] [("EndpointName", PStr endpoint_name)].

(** The status a reply of [describe_endpoint] reports, when it is the dict
    boto3 returns. *)
Definition reported_status (r : reply) : option string :=
  match r with
  | Gives (PDict d) =>
      match dict_lookup "EndpointStatus" d with
      | Some (PStr s) => Some s
      | _ => None
      end
  | _ => None
  end.

(** The endpoint leaves the "Creating" status within [n] more polls, counted
    from the polls recorded in [h]. *)
Definition leaves_creating_within (w : World) (sm_client : pyval) (endpoint_name : string)
    (h : list event) (n : nat) : Prop :=
  exists j s,
    j <= n
    /\ reported_status
         (w (describe_call sm_client endpoint_name)
            (occurrences "sm_client.describe_endpoint" h + j)) = Some s
    /\ s <> "Creating".

(** How [resp["EndpointStatus"]] was read: from the dict, or through the
    [__getitem__] of a library object. *)
Definition status_read (resp : pyval) (lookups : list event) (status : string) : Prop :=
  (exists d, resp = PDict d /\ lookups = []
             /\ dict_lookup "EndpointStatus" d = Some (PStr status))
  \/ lookups = [(Call "__getitem__" [resp; PStr "EndpointStatus"] [], Gives (PStr status))].

(** The calls of a loop that returns, from the status it starts with to the
    status it ends with: while the status is "Creating" it sleeps 60 seconds,
    describes the endpoint and prints the new status; it stops at the first
    status that is not "Creating". *)
Inductive polling (sm_client : pyval) (endpoint_name : string)
  : pyval -> list event -> pyval * pyval -> pyval -> Prop :=
| polling_stop resp status :
    py_eq_str status "Creating" = false ->
    polling sm_client endpoint_name status [] (resp, status) resp
| polling_again status slept resp lookups status' printed rest final first :
    py_eq_str status "Creating" = true ->
    status_read resp lookups status' ->
    polling sm_client endpoint_name (PStr status') rest final resp ->
    polling sm_client endpoint_name status
      ((Call "time.sleep" [PInt 60] [], Gives slept)
         :: (describe_call sm_client endpoint_name, Gives resp)
         :: lookups
         ++ (Call "print" [PStr ("Status: " ++ status')] [], Gives printed)
         :: rest)%list
      final first.


(** ** The request handler *)

Definition is_empty_call (inputs : pyval) : call := Call "inputs.is_empty" [inputs] [].
Definition get_as_json_call (inputs : pyval) : call := Call "inputs.get_as_json" [inputs] [].
Definition get_properties_call (inputs : pyval) : call :=
  Call "inputs.get_properties" [inputs] [].

(** A field of the request, or its default when the request lacks it. *)
Definition request_field (request : list (string * pyval)) (k : string) (default : pyval)
  : pyval :=
  match dict_lookup k request with
  | Some v => v
  | None => default
  end.

(** A run that follows the calls [l]. *)
Definition after {A} (l : list event) (r : ran A) : ran A :=
  Ran (out r) (glob r) (l ++ emitted r)%list.

(** Neither the emptiness check nor anything of the request path. *)
Definition loading_call (c : call) : Prop :=
  fn c <> "inputs.is_empty" /\ fn c <> "inputs.get_as_json"
  /\ fn c <> "tokenizer" /\ fn c <> "model.generate".

(** ** Adapter registration *)

(** The serving container calls an entry point of the handler once per
    request.  A call that raises is answered with an error and the container
    goes on: the next call finds the globals the failed one left.  The
    outcomes of the calls are kept, oldest first. *)
Definition attempt {A} (m : M A) : M (outcome A) :=
  fun w h g =>
    let r := m w h g in
    Ran (match out r with Fuel => Fuel | o => Val o end) (glob r) (emitted r).

Fixpoint serve_each (entry : pyval -> M pyval) (requests : list pyval)
  : M (list (outcome pyval)) :=
  match requests with
  | [] => ret []
  | inputs :: rest =>
      o <- attempt (entry inputs) ;;
      os <- serve_each entry rest ;;
      ret (o :: os)
  end.

(** The adapters the container registers, one after the other. *)
Definition register_each : list pyval -> M (list (outcome pyval)) :=
  serve_each register_adapter.

Definition returned {A} (o : outcome A) : bool :=
  match o with Val _ => true | _ => false end.

(** The calls of the container that raised. *)
Definition raised {A} (os : list (outcome A)) : nat :=
  List.length (filter (fun o => negb (returned o)) os).


(** The library contract the handler relies on: what
    [PeftModel.from_pretrained] returns is an instance of PeftModel. *)
Definition from_pretrained_wraps (w : World) : Prop :=
  forall c n v,
    fn c = "PeftModel.from_pretrained" -> w c n = Gives v ->
    py_isinstance v "PeftModel" = true.

Definition get_property_call (inputs : pyval) (property : string) : call :=
  Call "inputs.get_property" [inputs; PStr property] [].

Definition registering_message (name src : pyval) : call :=
  Call "logging.info"
    [PStr ("Registering adapter " ++ py_format name ++ " from " ++ py_format src)] [].


(** ** The notebooks as a family *)

Inductive notebook : Type := Djl | Lmi | FunctionCalling.

Definition script (nb : notebook) (fuel : nat) : M pyval :=
  match nb with
  | Djl => djl_notebook fuel
  | Lmi => lmi_notebook fuel
  | FunctionCalling => function_calling_notebook
  end.

(** *** Request bodies *)

(** The body of an inference request: what is serialised for
    [invoke_endpoint], or handed to the predictor. *)
Definition request_payload (c : call) : option pyval :=
  if fn c =? "json.dumps" then hd_error (args c)
  else if fn c =? "llm.predict" then nth_error (args c) 1
  else None.




(** The schema in the words of the specification: a messages array whose
    elements have role and content fields, and a generation-parameters object
    (the body itself or one of its fields) with top_p, temperature,
    max_tokens, stop and adapters. *)
Definition is_message (m : pyval) : bool :=
  match m with
  | PDict d => has_key "role" d && has_key "content" d
  | _ => false
  end.

Definition has_messages (d : list (string * pyval)) : bool :=
  match dict_lookup "messages" d with
  | Some (PList ms) => forallb is_message ms
  | _ => false
  end.

Definition generation_parameter_names : list string :=
  ["top_p"; "temperature"; "max_tokens"; "stop"; "adapters"].

Definition is_generation_parameters (v : pyval) : bool :=
  match v with
  | PDict ps => forallb (fun k => has_key k ps) generation_parameter_names
  | _ => false
  end.

Definition spec_schema (p : pyval) : bool :=
  match p with
  | PDict d =>
      has_messages d
      && (is_generation_parameters p
          || existsb (fun kv => is_generation_parameters (snd kv)) d)
  | _ => false
  end.








(** *** Orchestration stages *)

Inductive stage : Type := Create | Wait | Invoke | Delete.

Definition rank (s : stage) : nat :=
  match s with Create => 0 | Wait => 1 | Invoke => 2 | Delete => 3 end.

Definition in_list (f : string) (l : list string) : bool := existsb (String.eqb f) l.

(** The stages a call belongs to.  The SDK's [deploy] creates the model, the
    endpoint configuration and the endpoint and blocks until the endpoint is
    in service (its progress line is in the notebook's output). *)
Definition stages_of (c : call) : list stage :=
  let f := fn c in
  if in_list f ["sm_client.create_model"; "sm_client.create_endpoint_config";
                "sm_client.create_endpoint"] then [Create]
  else if f =? "llm_model.deploy" then [Create; Wait]
  else if in_list f ["sm_client.describe_endpoint"; "time.sleep"] then [Wait]
  else if in_list f ["smr_client.invoke_endpoint"; "llm.predict"] then [Invoke]
  else if in_list f ["sm_client.delete_endpoint"; "sm_client.delete_endpoint_config";
                     "sm_client.delete_model"; "llm.delete_model"; "llm.delete_endpoint"]
  then [Delete]
  else [].

Definition ranks (l : list event) : list nat :=
  flat_map (fun ev => map rank (stages_of (fst ev))) l.




(** *** Calls a returning run has made *)

Definition made (Q : call -> Prop) (l : list event) : Prop :=
  Exists (fun ev => Q (fst ev) /\ exists v, snd ev = Gives v) l.

(** Every run of [m] that returns has made a call satisfying [Q]. *)
Definition Reaches (w : World) (Q : call -> Prop) {A} (m : M A) : Prop :=
  forall h g a, out (m w h g) = Val a -> made Q (emitted (m w h g)).

(** Every run of [m] that returns has made two calls related by [R], the
    first before the second. *)
Definition made_pair (R : call -> call -> Prop) (l : list event) : Prop :=
  exists l1 c1 v1 l2,
    l = (l1 ++ (c1, Gives v1) :: l2)%list /\ made (R c1) l2.

Definition ReachesPair (w : World) (R : call -> call -> Prop) {A} (m : M A) : Prop :=
  forall h g a, out (m w h g) = Val a -> made_pair R (emitted (m w h g)).

(** *** Resources *)

Inductive resource : Type := Model | EndpointConfig | Endpoint.

Definition creates (c : call) : list resource :=
  let f := fn c in
  if f =? "sm_client.create_model" then [Model]
  else if f =? "sm_client.create_endpoint_config" then [EndpointConfig]
  else if f =? "sm_client.create_endpoint" then [Endpoint]
  else if f =? "llm_model.deploy" then [Model; EndpointConfig; Endpoint]
  else [].

(** [Predictor.delete_endpoint()] also deletes the endpoint configuration
    (its [delete_endpoint_config] defaults to True). *)
Definition deletes (c : call) : list resource :=
  let f := fn c in
  if in_list f ["sm_client.delete_model"; "llm.delete_model"] then [Model]
  else if f =? "sm_client.delete_endpoint_config" then [EndpointConfig]
  else if f =? "sm_client.delete_endpoint" then [Endpoint]
  else if f =? "llm.delete_endpoint" then [Endpoint; EndpointConfig]
  else [].

Definition resource_eqb (a b : resource) : bool :=
  match a, b with
  | Model, Model | EndpointConfig, EndpointConfig | Endpoint, Endpoint => true
  | _, _ => false
  end.

Definition created (l : list event) : list resource :=
  flat_map (fun ev => match snd ev with Gives _ => creates (fst ev) | Throws _ => [] end) l.

Definition deleted (l : list event) : list resource :=
  flat_map (fun ev => match snd ev with Gives _ => deletes (fst ev) | Throws _ => [] end) l.

(** Everything created has been deleted. *)
Definition torn_down (l : list event) : bool :=
  forallb (fun r => existsb (resource_eqb r) (deleted l)) (created l).

(** The second call undoes the first: [create] and [delete] on the same
    name, passed as the keyword [key]. *)
Definition undoes (create delete key : string) (c1 c2 : call) : Prop :=
  fn c1 = create /\ fn c2 = delete
  /\ exists name, dict_lookup key (kwargs c1) = Some name
                  /\ dict_lookup key (kwargs c2) = Some name.


(** ** The functions of [model.py] *)

Inductive repo_function : Type :=
| GeneratePromptFn | EvaluateFn | LoadModelFn | RegisterAdapterFn | HandleFn.

(** The way a computation ends depends on nothing but its arguments: not on
    the world, the earlier calls or the globals. *)
Definition deterministic {A} (m : M A) : Prop :=
  forall w w' h h' g g', out (m w h g) = out (m w' h' g').

(** The function is a fixed mapping of its inputs. *)
Definition fixed_mapping (f : repo_function) : Prop :=
  match f with
  | GeneratePromptFn => forall i x, deterministic (ret (generate_prompt i x))
  | EvaluateFn => forall i a x n, deterministic (evaluate i a x n)
  | LoadModelFn => forall id, deterministic (load_model id)
  | RegisterAdapterFn => forall inputs, deterministic (register_adapter inputs)
  | HandleFn => forall inputs, deterministic (handle inputs)
  end.

(** The claim that no function of the repository is a fixed mapping. *)
Definition no_fixed_mapping : Prop := forall f, ~ fixed_mapping f.

(** ** The inference request path *)







(** [model.generate] is called with the adapters and the token budget that
    [evaluate] was given. *)
Definition forwards (adapters max_new_tokens : pyval) (c : call) : Prop :=
  fn c = "model.generate" ->
  dict_lookup "adapters" (kwargs c) = Some adapters
  /\ dict_lookup "max_new_tokens" (kwargs c) = Some max_new_tokens.

(** ** The globals of [model.py] *)

(** The computation leaves the globals as it found them, however it ends. *)
Definition Keeps (w : World) {A} (m : M A) : Prop :=
  forall h g, glob (m w h g) = g.

(** The computation changes the globals only by returning. *)
Definition KeepsUnlessReturns (w : World) {A} (m : M A) : Prop :=
  forall h g, (forall a, out (m w h g) <> Val a) -> glob (m w h g) = g.

(** At most [n] calls of [f], however the computation ends. *)
Definition AtMost (w : World) (f : string) (n : nat) {A} (m : M A) : Prop :=
  forall h g, occurrences f (emitted (m w h g)) <= n.

(** The computation keeps the globals, or returns having replaced a model
    that was no PeftModel and nothing else. *)
Definition WrapsOrKeeps (w : World) {A} (m : M A) : Prop :=
  forall h g,
    glob (m w h g) = g
    \/ (py_isinstance (g_model g) "PeftModel" = false
        /\ (exists a, out (m w h g) = Val a)
        /\ exists wrapped, glob (m w h g) = Globals wrapped (g_tokenizer g)).

(** The requests a container serves, one after the other. *)
Definition handle_each : list pyval -> M (list (outcome pyval)) :=
  serve_each handle.

(** The library contract [if not model] relies on: a model that
    [LlamaForCausalLM.from_pretrained] returns is truthy. *)
Definition loads_truthy (w : World) : Prop :=
  forall c n v,
    fn c = "LlamaForCausalLM.from_pretrained" -> w c n = Gives v -> py_truthy v = true.

(** ** Requests the handler rejects *)

(** What [**parameters] cannot be bound to: a value that is not a mapping,
    or a mapping that names one of the two positional arguments. *)
Definition rejected_parameters (p : pyval) : bool :=
  match p with
  | PDict kw => has_key "instruction" kw || has_key "adapters" kw
  | _ => true
  end.

(** A decoded JSON value that is not an object. *)
Definition json_non_object (v : pyval) : bool :=
  match v with
  | PNone | PBool _ | PInt _ | PFloat _ _ | PStr _ | PList _ => true
  | _ => false
  end.

(** The two questions [handle] asks of a request before it reads it. *)
Definition asked (inputs e body : pyval) : list event :=
  [(is_empty_call inputs, Gives e); (get_as_json_call inputs, Gives body)].

(** ** Generation settings *)

(** Generation is greedy and takes nothing from the request but the adapters
    and the token budget: the configuration is always built from the two
    literals, and [model.generate] gets exactly the five keyword arguments. *)
Definition greedy_generation (c : call) : Prop :=
  (fn c = "GenerationConfig" ->
   args c = [] /\ kwargs c = [("num_beams", PInt 1); ("do_sample", PBool false)])
  /\ (fn c = "model.generate" ->
      dict_keys (kwargs c)
      = ["input_ids"; "attention_mask"; "adapters"; "generation_config"; "max_new_tokens"])
  /\ (fn c = "tokenizer.batch_decode" ->
      kwargs c = [("skip_special_tokens", PBool true)]).

(** ** The [torch.no_grad()] context *)

(** The contexts entered: the calls of [__enter__] that returned. *)
Definition entered (l : list event) : nat :=
  List.length
    (filter (fun ev => (fn (fst ev) =? "__enter__")
                       && match snd ev with Gives _ => true | Throws _ => false end) l).

(** Every context entered has been left. *)
Definition contexts_left (A : Type) (o : outcome A) (l : list event) : Prop :=
  entered l = occurrences "__exit__" l.

Definition outside_context (c : call) : Prop :=
  fn c <> "__enter__" /\ fn c <> "__exit__".

(** ** Loading the base model *)

(** The calls of a [load_model] that returns. *)
Definition loading_trace (model_id model tokenizer pad : pyval) (set logged : pyval)
  : list event :=
  ((Call "LlamaForCausalLM.from_pretrained" [model_id]
      [("low_cpu_mem_usage", PBool true); ("torch_dtype", PName "torch.float16");
       ("device_map", PStr "auto")], Gives model)
   :: (Call "LlamaTokenizer.from_pretrained" [model_id] [], Gives tokenizer)
   :: (Call "tokenizer.pad_token" [tokenizer] [], Gives pad)
   :: (if py_truthy pad then []
       else [(Call "tokenizer.pad_token=" [tokenizer; PStr "[PAD]"] [], Gives set)])
   ++ [(Call "logging.info" [PStr ("Loaded Base Model " ++ py_format model_id)] [],
        Gives logged)])%list.

(** ** How the notebooks wire their resources *)




(** ** Text *)

(** ASCII text, on which a string and its bytes have the same characters. *)
Definition ascii_text (s : string) : bool :=
  forallb (fun c => (nat_of_ascii c <? 128)%nat) (list_ascii_of_string s).

(** ** The calls of the function-calling notebook *)

Definition iam_client_call : call := Call "boto3.client" [PStr "iam"] [].

Definition get_role_call (iam : pyval) : call :=
  Call "iam.get_role" [iam] [("RoleName", PStr "sagemaker_execution_role")].

Definition predict_call (llm payload : pyval) : call := Call "llm.predict" [llm; payload] [].

(** ** Cleaning up *)

(** An inference request: [invoke_endpoint] of the LoRA notebooks, [predict]
    of the function-calling notebook. *)
Definition is_request (c : call) : bool :=
  in_list (fn c) ["smr_client.invoke_endpoint"; "llm.predict"].

(** The requests that were answered. *)
Definition answered (l : list event) : nat :=
  List.length
    (filter (fun ev => is_request (fst ev)
                       && match snd ev with Gives _ => true | Throws _ => false end) l).

(** The inference cells of a notebook. *)
Definition requests (nb : notebook) : nat :=
  match nb with Djl => 2 | Lmi => 1 | FunctionCalling => 2 end.

(** In no run is anything deleted before [n] requests were answered. *)
Definition DeletesAfter (w : World) (n : nat) {A} (m : M A) : Prop :=
  forall h g,
    deleted (emitted (m w h g)) <> [] -> n <= answered (emitted (m w h g)).

(** ** What [evaluate] returns *)

(** The calls [l] end with the calls [last]. *)
Definition ends_with (l last : list event) : Prop :=
  exists before, l = (before ++ last)%list.

(** ** Runs that end *)

(** No run of [m] runs out of fuel. *)
Definition Terminates (w : World) {A} (m : M A) : Prop :=
  forall h g, out (m w h g) <> Fuel.

(** ** Adapter registration on a container that goes on *)







(** ** A world that answers as recorded *)

(** The world answers the calls of [l], made one after the other after the
    calls [h], as [l] records. *)
Fixpoint answers (w : World) (h l : list event) : Prop :=
  match l with
  | [] => True
  | ev :: l' => w (fst ev) (occurrences (fn (fst ev)) h) = snd ev
                /\ answers w (h ++ [ev])%list l'
  end.

(** ** The request bodies, one by one *)

(** The request bodies of a trace, oldest first. *)
Definition payloads (l : list event) : list pyval :=
  flat_map (fun ev => match request_payload (fst ev) with
                      | Some p => [p]
                      | None => []
                      end) l.





(** ** A deployment that goes well *)






(** * Proofs *)

(** ** Running a computation step by step *)

Lemma ran_eta {A} (r : ran A) : Ran (out r) (glob r) (emitted r) = r.
Proof. now destruct r. Qed.

(** A step that makes no call and returns hands over to its continuation. *)
Lemma bind_pure {A B} (m : M A) (k : A -> M B) w h g a g' :
  m w h g = Ran (Val a) g' [] -> bind m k w h g = k a w h g'.
Proof.
  intros H. unfold bind. rewrite H. simpl. rewrite app_nil_r. apply ran_eta.
Qed.

Lemma emitted_bind_hd {A B} (m : M A) (k : A -> M B) w h g ev rest :
  emitted (m w h g) = ev :: rest ->
  hd_error (emitted (bind m k w h g)) = Some ev.
Proof.
  intros H. unfold bind. destruct (out (m w h g)); simpl; now rewrite H.
Qed.

Section TraceProperty.

Context {P : forall A : Type, outcome A -> list event -> Prop}
        {admissible : call -> Prop}
        `{HC : Closed P admissible}.

Variable w : World.

Lemma holds_ret {A} (a : A) : Holds P w (ret a).
Proof. intros h g. apply P_val. Qed.

Lemma holds_raise {A} (e : exn) : Holds P w (@raise A e).
Proof. intros h g. apply P_exc. Qed.

Lemma holds_out_of_fuel {A} : Holds P w (@out_of_fuel A).
Proof. intros h g. apply P_fuel. Qed.

Lemma holds_get_model : Holds P w get_model.
Proof. intros h g. apply P_val. Qed.

Lemma holds_get_tokenizer : Holds P w get_tokenizer.
Proof. intros h g. apply P_val. Qed.

Lemma holds_set_model v : Holds P w (set_model v).
Proof. intros h g. apply P_val. Qed.

Lemma holds_set_tokenizer v : Holds P w (set_tokenizer v).
Proof. intros h g. apply P_val. Qed.

Lemma holds_ext f a kw : admissible (Call f a kw) -> Holds P w (ext f a kw).
Proof. intros Hc h g. apply P_call, Hc. Qed.

Lemma holds_invoke c : admissible c -> Holds P w (invoke c).
Proof. intros Hc h g. apply P_call, Hc. Qed.

Lemma holds_bind {A B} (m : M A) (k : A -> M B) :
  Holds P w m -> (forall a, Holds P w (k a)) -> Holds P w (bind m k).
Proof.
  intros Hm Hk h g. unfold bind. specialize (Hm h g).
  destruct (out (m w h g)) as [a| e |] eqn:E; simpl.
  - eapply P_seq; [exact Hm | apply Hk].
  - eapply P_exc_cast, Hm.
  - eapply P_fuel_cast, Hm.
Qed.

Lemma holds_method recv name a kw :
  (forall r, admissible (Call name (r :: a) kw)) -> Holds P w (method recv name a kw).
Proof.
  intros Hc. destruct recv; try (apply holds_ext, Hc). apply holds_raise.
Qed.

Lemma holds_method_m recv name a :
  Holds P w a -> (forall r xs, admissible (Call name (r :: fst xs) (snd xs))) ->
  Holds P w (method_m recv name a).
Proof.
  intros Ha Hc.
  destruct recv; try (apply holds_bind; [exact Ha | intros xs; apply holds_ext, Hc]).
  apply holds_raise.
Qed.

Lemma holds_call_value f name a kw :
  (forall r, admissible (Call name (r :: a) kw)) -> Holds P w (call_value f name a kw).
Proof.
  intros Hc. destruct f; try (apply holds_ext, Hc). apply holds_raise.
Qed.

Lemma holds_py_get v k d : Holds P w (py_get v k d).
Proof. destruct v; try apply holds_raise. apply holds_ret. Qed.

Lemma holds_subscript v key :
  (forall x y, admissible (Call "__getitem__" [x; y] [])) -> Holds P w (subscript v key).
Proof.
  intros Hc. unfold subscript.
  destruct v; destruct key;
    try (apply holds_ext, Hc); try apply holds_raise.
  - destruct (_ <? 0)%Z; [apply holds_raise|].
    destruct (nth_error _ _); [apply holds_ret | apply holds_raise].
  - destruct (dict_lookup _ _); [apply holds_ret | apply holds_raise].
Qed.

Lemma holds_str_concat lit v : Holds P w (str_concat lit v).
Proof. destruct v; try apply holds_raise. apply holds_ret. Qed.

End TraceProperty.

Lemma Forall_append {T} (Q : T -> Prop) (l1 l2 : list T) :
  Forall Q l1 -> Forall Q l2 -> Forall Q (l1 ++ l2).
Proof. intros H1 H2. apply Forall_app. now split. Qed.

#[local] Instance all_calls_closed (Pc : call -> Prop) : Closed (all_calls Pc) Pc.
Proof.
  unfold all_calls. split; intros; try assumption; try apply Forall_nil.
  - apply Forall_cons; [assumption | apply Forall_nil].
  - apply Forall_append; assumption.
Qed.

Lemma all_calls_with_ctx (Pc : call -> Prop) w {A} cm (body : M A) :
  Pc (Call "__enter__" [cm] []) -> Pc (Call "__exit__" [cm] []) ->
  Holds (all_calls Pc) w body -> Holds (all_calls Pc) w (with_ctx cm body).
Proof.
  intros He Hx Hb h g. unfold with_ctx, all_calls, ext, invoke. simpl.
  destruct (w _ _); simpl; [|repeat constructor; exact He].
  specialize (Hb (h ++ [(Call "__enter__" [cm] [], Gives v)])%list g).
  unfold all_calls in Hb.
  destruct (out (body _ _ _)); simpl; constructor; try exact He;
    try (apply Forall_append; [exact Hb | repeat constructor; exact Hx]);
    exact Hb.
Qed.

Lemma all_calls_try_except (Pc : call -> Prop) w {A} (m handler : M A) cls :
  Holds (all_calls Pc) w m -> Holds (all_calls Pc) w handler ->
  Holds (all_calls Pc) w (try_except m cls handler).
Proof.
  intros Hm Hh h g. unfold try_except, all_calls.
  specialize (Hm h g). unfold all_calls in Hm.
  destruct (out (m w h g)); try exact Hm.
  destruct (exn_isinstance e cls); [|exact Hm].
  simpl. apply Forall_append; [exact Hm | apply Hh].
Qed.

Lemma clean_of_val {A} (a : A) l : propagated A (Val a) l -> clean l.
Proof.
  intros [H | (pre & c & e & post & _ & _ & _ & H)]; [exact H | discriminate H].
Qed.

#[local] Instance propagated_closed : Closed propagated (fun _ => True).
Proof.
  split.
  - intros. left. constructor.
  - intros. left. constructor.
  - intros. left. constructor.
  - intros c [v | e] _.
    + left. repeat constructor. now exists v.
    + right. exists [], c, e, []. repeat split; constructor.
  - intros A B a e1 o e2 H1 H2. apply clean_of_val in H1.
    destruct H2 as [H2 | (pre & c & e & post & -> & Hpre & Hpost & ->)].
    + left. apply Forall_append; assumption.
    + right. exists (e1 ++ pre)%list, c, e, post.
      rewrite app_assoc. repeat split; try assumption.
      apply Forall_append; assumption.
  - intros A B e l [H | (pre & c & e' & post & -> & Hpre & Hpost & Heq)].
    + now left.
    + right. exists pre, c, e', post. repeat split; try assumption.
      now inversion Heq.
  - intros A B l [H | (pre & c & e' & post & _ & _ & _ & Heq)].
    + now left.
    + discriminate Heq.
Qed.

Lemma last_thrown_app e l1 l2 :
  last_thrown e (l1 ++ l2) = last_thrown (last_thrown e l1) l2.
Proof.
  revert e. induction l1 as [|[c [v|e']] l1 IH]; intros e; simpl; auto.
Qed.

Lemma propagated_with_ctx w {A} cm (body : M A) :
  Holds propagated w body -> Holds propagated w (with_ctx cm body).
Proof.
  intros Hb h g. unfold with_ctx, ext, invoke. simpl.
  set (enter := Call "__enter__" [cm] []).
  set (leave := Call "__exit__" [cm] []).
  destruct (w enter _) as [v | e]; simpl.
  2:{ right. exists [], enter, e, []. repeat split; constructor. }
  set (h1 := (h ++ [(enter, Gives v)])%list).
  specialize (Hb h1 g).
  assert (Hent : clean [(enter, Gives v)]) by (repeat constructor; now exists v).
  destruct (out (body w h1 g)) as [a | e |] eqn:Eo; simpl.
  - (* the body returns *)
    apply clean_of_val in Hb.
    destruct (w leave _) as [v' | e']; simpl.
    + left. constructor; [now exists v|].
      apply Forall_append; [exact Hb|]. repeat constructor. now exists v'.
    + right. exists ((enter, Gives v) :: emitted (body w h1 g)), leave, e', [].
      repeat split; try constructor; try assumption. now exists v.
  - (* the body raises *)
    destruct Hb as [Hb | (pre & c & e0 & post & Hl & Hpre & Hpost & Heq)].
    + destruct (w leave _) as [v' | e']; simpl.
      * left. constructor; [now exists v|].
        apply Forall_append; [exact Hb|]. repeat constructor. now exists v'.
      * right. exists ((enter, Gives v) :: emitted (body w h1 g)), leave, e', [].
        repeat split; try constructor; try assumption. now exists v.
    + rewrite Hl. right.
      exists ((enter, Gives v) :: pre), c, e0,
             (post ++ [(leave, w leave (occurrences "__exit__" (h1 ++ pre ++ (c, Throws e0) :: post)))])%list.
      rewrite <- Hl at 1.
      repeat split.
      * simpl. rewrite Hl. rewrite <- app_assoc. reflexivity.
      * constructor; [now exists v | exact Hpre].
      * apply Forall_append; [exact Hpost | repeat constructor].
      * rewrite last_thrown_app. inversion Heq; subst e.
        destruct (w leave _); reflexivity.
  - (* the body runs out of fuel *)
    destruct Hb as [Hb | (pre & c & e0 & post & _ & _ & _ & Heq)]; [|discriminate Heq].
    left. constructor; [now exists v | exact Hb].
Qed.

Lemma clean_cleanb l : clean l -> cleanb l = true.
Proof.
  induction 1 as [|[c r] l [v Hv] _ IH]; simpl in *; [reflexivity|].
  now rewrite Hv.
Qed.

(** A [try] whose exception is never of the caught class is transparent. *)
Lemma propagated_try_except_uncaught w c cls (handler : M pyval) :
  (forall n e, w c n = Throws e -> exn_isinstance e cls = false) ->
  Holds propagated w (try_except (invoke c) cls handler).
Proof.
  intros Hw h g. unfold try_except, invoke. simpl.
  destruct (w c _) as [v | e] eqn:E; simpl.
  - left. repeat constructor. now exists v.
  - rewrite (Hw _ _ E). simpl.
    right. exists [], c, e, []. repeat split; constructor.
Qed.

(** *** Walking a script *)

Ltac head_of t :=
  lazymatch t with
  | ?f _ => head_of f
  | ?f => f
  end.

(** [walk side] follows the structure of a script; [side] proves that a
    call is admissible. *)
Ltac walk side :=
  cbv zeta;
  lazymatch goal with
  | |- Holds _ _ (bind _ _) => apply holds_bind; [walk side | intros ?; walk side]
  | |- Holds _ _ (ret _) => apply holds_ret
  | |- Holds _ _ (raise _) => apply holds_raise
  | |- Holds _ _ out_of_fuel => apply holds_out_of_fuel
  | |- Holds _ _ get_model => apply holds_get_model
  | |- Holds _ _ get_tokenizer => apply holds_get_tokenizer
  | |- Holds _ _ (set_model _) => apply holds_set_model
  | |- Holds _ _ (set_tokenizer _) => apply holds_set_tokenizer
  | |- Holds _ _ (invoke _) => apply holds_invoke; side
  | |- Holds _ _ (ext _ _ _) => apply holds_ext; side
  | |- Holds _ _ (print _) => apply holds_ext; side
  | |- Holds _ _ (shell _) => apply holds_ext; side
  | |- Holds _ _ (method _ _ _ _) => apply holds_method; intros; side
  | |- Holds _ _ (method_m _ _ _) => apply holds_method_m; [walk side | intros; side]
  | |- Holds _ _ (call_value _ _ _ _) => apply holds_call_value; intros; side
  | |- Holds _ _ (py_get _ _ _) => apply holds_py_get
  | |- Holds _ _ (subscript _ _) => apply holds_subscript; intros; side
  | |- Holds _ _ (str_concat _ _) => apply holds_str_concat
  | |- Holds _ _ (with_ctx _ _) =>
      first [ apply propagated_with_ctx; walk side
            | apply all_calls_with_ctx; [side | side | walk side] ]
  | |- Holds _ _ (try_except _ _ _) =>
      first [ apply all_calls_try_except; walk side
            | apply propagated_try_except_uncaught; assumption ]
  | |- Holds _ _ (match ?x with _ => _ end) => destruct x; walk side
  | |- Holds _ _ ?m =>
      first [ solve [auto with scripts]
            | let f := head_of m in unfold f; walk side ]
  end.

Create HintDb scripts.

Section Polling.

Context {P : forall A : Type, outcome A -> list event -> Prop}
        {admissible : call -> Prop}
        `{HC : Closed P admissible}.

Variable w : World.

Hypothesis adm_sleep : admissible (Call "time.sleep" [PInt 60] []).
Hypothesis adm_describe : forall r kw, admissible (Call "sm_client.describe_endpoint" [r] kw).
Hypothesis adm_getitem : forall x y, admissible (Call "__getitem__" [x; y] []).
Hypothesis adm_print : forall v, admissible (Call "print" [v] []).

Lemma holds_poll_while_creating fuel sm_client endpoint_name resp status :
  Holds P w (poll_while_creating fuel sm_client endpoint_name resp status).
Proof.
  revert resp status. induction fuel as [|fuel IH]; intros resp status; simpl;
    destruct (py_eq_str status "Creating");
    try apply holds_ret; try apply holds_out_of_fuel.
  walk ltac:(auto).
Qed.

Lemma holds_wait_for_endpoint fuel sm_client endpoint_name :
  Holds P w (wait_for_endpoint fuel sm_client endpoint_name).
Proof.
  unfold wait_for_endpoint.
  pose proof holds_poll_while_creating as Hp.
  walk ltac:(auto).
Qed.

End Polling.

Lemma fold_left_snoc_map {A B} (f : A -> B) (l : list A) (acc : list B) :
  fold_left (fun done x => (done ++ [f x])%list) l acc = (acc ++ map f l)%list.
Proof.
  revert acc. induction l as [|x l IH]; intros acc; simpl.
  - now rewrite app_nil_r.
  - rewrite IH, <- app_assoc. reflexivity.
Qed.

(** The two preambles part ways at their 46th character. *)
Lemma preambles_differ (a b : string) : paired_preamble ++ a <> plain_preamble ++ b.
Proof.
  intros H. apply (f_equal (String.get 45)) in H.
  vm_compute in H. discriminate H.
Qed.

Lemma build_prompts_list (instructions : list pyval) (input : pyval) w h g :
  build_prompts (PList instructions) input w h g
  = Ran (Val (map (fun inst => generate_prompt inst input) instructions)) g [].
Proof.
  unfold build_prompts, ret. simpl. now rewrite fold_left_snoc_map.
Qed.

(** The prompts [evaluate] builds are the first thing it sends out. *)
Lemma evaluate_feeds_tokenizer w instructions adapters input max_new_tokens h g :
  g_tokenizer g <> PNone ->
  let prompts := map (fun inst => generate_prompt inst input) instructions in
  hd_error (emitted (evaluate (PList instructions) adapters input max_new_tokens w h g))
  = Some (Call "tokenizer" [g_tokenizer g; PList (map PStr prompts)]
            [("return_tensors", PStr "pt"); ("padding", PBool true)],
          w (Call "tokenizer" [g_tokenizer g; PList (map PStr prompts)]
               [("return_tensors", PStr "pt"); ("padding", PBool true)])
            (occurrences "tokenizer" h)).
Proof.
  intros Htok prompts. unfold evaluate.
  rewrite (bind_pure _ _ _ _ _ _ _ (build_prompts_list instructions input w h g)).
  rewrite (bind_pure get_tokenizer _ w h g (g_tokenizer g) g eq_refl).
  apply emitted_bind_hd with (rest := []).
  unfold call_value. destruct (g_tokenizer g); try congruence; reflexivity.
Qed.

(** C8: [evaluate] builds one prompt per instruction, in order, the i-th
    being [generate_prompt] of the i-th instruction and the shared input, and
    hands exactly these to the tokenizer; [generate_prompt] writes the input
    section if and only if the input is truthy, and the instruction-only
    template otherwise. *)
Theorem evaluate_builds_one_prompt_per_instruction
    (instructions : list pyval) (input : pyval) :
  let prompts := map (fun inst => generate_prompt inst input) instructions in
  (forall w h g,
      build_prompts (PList instructions) input w h g = Ran (Val prompts) g [])
  /\ List.length prompts = List.length instructions
  /\ (forall i, nth_error prompts i
                = option_map (fun inst => generate_prompt inst input)
                    (nth_error instructions i))
  /\ (forall adapters max_new_tokens w h g,
        g_tokenizer g <> PNone ->
        hd_error (emitted (evaluate (PList instructions) adapters input max_new_tokens w h g))
        = Some (Call "tokenizer" [g_tokenizer g; PList (map PStr prompts)]
                  [("return_tensors", PStr "pt"); ("padding", PBool true)],
                w (Call "tokenizer" [g_tokenizer g; PList (map PStr prompts)]
                     [("return_tensors", PStr "pt"); ("padding", PBool true)])
                  (occurrences "tokenizer" h)))
  /\ (forall inst,
        (py_truthy input = true
         <-> has_input_section inst input (generate_prompt inst input))
        /\ (py_truthy input = false
            <-> instruction_only inst (generate_prompt inst input))).
Proof.
  intros prompts. repeat split.
  - intros. apply build_prompts_list.
  - unfold prompts. apply length_map.
  - intros i. unfold prompts. apply nth_error_map.
  - intros adapters mnt w h g Htok. now apply evaluate_feeds_tokenizer.
  - unfold has_input_section, generate_prompt. intros Ht. now rewrite Ht.
  - unfold has_input_section, generate_prompt. intros Heq.
    destruct (py_truthy input); [reflexivity|].
    symmetry in Heq. now apply preambles_differ in Heq.
  - unfold instruction_only, generate_prompt. intros Ht. now rewrite Ht.
  - unfold instruction_only, generate_prompt. intros Heq.
    destruct (py_truthy input); [|reflexivity].
    now apply preambles_differ in Heq.
Qed.

(** ** Exception propagation *)

Ltac trivial_side := exact I.

Lemma evaluate_propagates w i a x n : Holds propagated w (evaluate i a x n).
Proof. walk trivial_side. Qed.

Lemma load_model_propagates w id : Holds propagated w (load_model id).
Proof. walk trivial_side. Qed.

Lemma register_adapter_propagates w inputs : Holds propagated w (register_adapter inputs).
Proof. walk trivial_side. Qed.

Lemma handle_propagates w inputs : Holds propagated w (handle inputs).
Proof.
  pose proof (evaluate_propagates w) as He.
  pose proof (load_model_propagates w) as Hl.
  walk trivial_side.
Qed.

Lemma wait_propagates w fuel c name : Holds propagated w (wait_for_endpoint fuel c name).
Proof. apply holds_wait_for_endpoint; intros; exact I. Qed.

Lemma djl_notebook_propagates w fuel : Holds propagated w (djl_notebook fuel).
Proof. pose proof (wait_propagates w) as Hw. walk trivial_side. Qed.

Lemma lmi_notebook_propagates w fuel : Holds propagated w (lmi_notebook fuel).
Proof. pose proof (wait_propagates w) as Hw. walk trivial_side. Qed.

Lemma function_calling_notebook_propagates_unless_caught w :
  (forall n e, w role_call n = Throws e -> exn_isinstance e "ValueError" = false) ->
  Holds propagated w function_calling_notebook.
Proof. intros Hrole. walk trivial_side. Qed.

(** What the [except ValueError] clause does when it fires: the exception of
    [get_execution_role] is dropped and the role is looked up through IAM. *)
Lemma resolve_role_catches w h g e :
  w role_call (occurrences "sagemaker.get_execution_role" h) = Throws e ->
  exn_isinstance e "ValueError" = true ->
  resolve_role w h g
  = let r := role_from_iam w (h ++ [(role_call, Throws e)])%list g in
    Ran (out r) (glob r) ((role_call, Throws e) :: emitted r).
Proof.
  intros Hw He. unfold resolve_role, try_except, invoke. simpl.
  rewrite Hw. simpl. rewrite He. reflexivity.
Qed.

(** C4, amended: the functions of [model.py] and the two LoRA notebooks never
    catch, drop or replace an exception: the first call that throws ends the
    run with its exception (only the [__exit__] of [torch.no_grad()] still
    runs).  The function-calling notebook does the same except for the
    ValueError of [get_execution_role], which it catches to look the role
    up through IAM instead. *)
Theorem exceptions_propagate_except_role_lookup :
  (forall op, op <> FunctionCallingNotebook -> propagates_exceptions op)
  /\ (forall w,
        (forall n e, w role_call n = Throws e -> exn_isinstance e "ValueError" = false) ->
        Holds propagated w function_calling_notebook)
  /\ (forall w h g e,
        w role_call (occurrences "sagemaker.get_execution_role" h) = Throws e ->
        exn_isinstance e "ValueError" = true ->
        resolve_role w h g
        = let r := role_from_iam w (h ++ [(role_call, Throws e)])%list g in
          Ran (out r) (glob r) ((role_call, Throws e) :: emitted r)).
Proof.
  split; [|split].
  - intros [i a x n | id | inputs | inputs | fuel | fuel |] Hop w.
    + apply evaluate_propagates.
    + apply load_model_propagates.
    + apply register_adapter_propagates.
    + apply handle_propagates.
    + apply djl_notebook_propagates.
    + apply lmi_notebook_propagates.
    + now contradiction Hop.
  - apply function_calling_notebook_propagates_unless_caught.
  - apply resolve_role_catches.
Qed.

(** ** Runs that return *)

Lemma bind_val {A B} {m : M A} {k : A -> M B} {w h g} {b : B} :
  out (bind m k w h g) = Val b ->
  exists a,
    out (m w h g) = Val a
    /\ out (k a w (h ++ emitted (m w h g))%list (glob (m w h g))) = Val b
    /\ emitted (bind m k w h g)
       = (emitted (m w h g)
            ++ emitted (k a w (h ++ emitted (m w h g))%list (glob (m w h g))))%list
    /\ glob (bind m k w h g)
       = glob (k a w (h ++ emitted (m w h g))%list (glob (m w h g))).
Proof.
  unfold bind. destruct (out (m w h g)) as [a | e |]; simpl; intros H;
    try discriminate H.
  exists a. repeat split. exact H.
Qed.

(** [next_val H x H1]: the run [H] of a [bind] that returns is split into
    its first step, which returns [x] by [H1], and the rest, again [H]. *)
Ltac next_val H x H1 :=
  let R := fresh "R" in
  let E := fresh "E" in
  let G := fresh "G" in
  destruct (bind_val H) as (x & H1 & R & E & G); clear H;
  rewrite ?E, ?G; clear E G; rename R into H.

Lemma invoke_val {c w h g v} :
  out (invoke c w h g) = Val v ->
  w c (occurrences (fn c) h) = Gives v
  /\ emitted (invoke c w h g) = [(c, Gives v)]
  /\ glob (invoke c w h g) = g.
Proof.
  unfold invoke. simpl. destruct (w c _) as [v' | e]; simpl; intros H;
    inversion H; subst. repeat split.
Qed.

Lemma method_val {recv name a kw w h g v} :
  out (method recv name a kw w h g) = Val v ->
  recv <> PNone
  /\ w (Call name (recv :: a) kw) (occurrences name h) = Gives v
  /\ emitted (method recv name a kw w h g) = [(Call name (recv :: a) kw, Gives v)]
  /\ glob (method recv name a kw w h g) = g.
Proof.
  destruct recv; simpl; intros H; try discriminate H;
    (split; [discriminate | exact (invoke_val H)]).
Qed.

Lemma str_concat_val {lit v w h g line} :
  out (str_concat lit v w h g) = Val line ->
  exists s, v = PStr s /\ line = lit ++ s
            /\ emitted (str_concat lit v w h g) = []
            /\ glob (str_concat lit v w h g) = g.
Proof.
  destruct v; simpl; intros H; try discriminate H.
  inversion H. exists s. repeat split.
Qed.

Lemma subscript_status_val {resp w h g s} :
  out (subscript resp (PStr "EndpointStatus") w h g) = Val (PStr s) ->
  status_read resp (emitted (subscript resp (PStr "EndpointStatus") w h g)) s
  /\ glob (subscript resp (PStr "EndpointStatus") w h g) = g.
Proof.
  unfold status_read.
  destruct resp as [| b | z | m e | s0 | l | d | n | cls ident];
    simpl; intros H; try discriminate H;
    try (destruct (w _ _) as [v | e']; simpl in H; inversion H; subst;
         split; [right; reflexivity | reflexivity]).
  destruct (dict_lookup "EndpointStatus" d) as [x|] eqn:E; simpl in H;
    inversion H; subst.
  split; [left; exists d; repeat split; exact E | reflexivity].
Qed.

(** ** The readiness wait *)

Lemma poll_while_creating_polls sm_client endpoint_name fuel :
  forall w h g resp status final,
    out (poll_while_creating fuel sm_client endpoint_name resp status w h g) = Val final ->
    polling sm_client endpoint_name status
      (emitted (poll_while_creating fuel sm_client endpoint_name resp status w h g))
      final resp.
Proof.
  induction fuel as [|fuel IH]; intros w h g resp status final; simpl;
    destruct (py_eq_str status "Creating") eqn:Est;
    try (intros H; inversion H; subst; now constructor);
    try (intros H; discriminate H).
  intros H. unfold print, ext in *.
  destruct (bind_val H) as (slept & H1 & H' & E1 & _); clear H.
  destruct (bind_val H') as (resp' & H2 & H & E2 & _); clear H'.
  destruct (bind_val H) as (status' & H3 & H' & E3 & _); clear H.
  destruct (bind_val H') as (line & H4 & H & E4 & _); clear H'.
  destruct (bind_val H) as (printed & H5 & H' & E5 & _); clear H.
  rewrite E1, E2, E3, E4, E5. clear E1 E2 E3 E4 E5.
  apply IH in H'.
  destruct (str_concat_val H4) as (s & -> & -> & E4 & _).
  destruct (invoke_val H5) as (_ & E5 & _).
  destruct (subscript_status_val H3) as (H3' & _).
  destruct (method_val H2) as (_ & _ & E2 & _).
  destruct (invoke_val H1) as (_ & E1 & _).
  revert H' H3'. rewrite E5, E4, E2, E1. intros H' H3'. simpl.
  eapply polling_again; eauto.
Qed.

(** *** Termination *)

Lemma occurrences_app f l1 l2 :
  occurrences f (l1 ++ l2) = occurrences f l1 + occurrences f l2.
Proof. unfold occurrences. now rewrite filter_app, length_app. Qed.

Lemma bind_no_fuel {A B} (m : M A) (k : A -> M B) w h g :
  out (m w h g) <> Fuel ->
  (forall a, out (m w h g) = Val a ->
             out (k a w (h ++ emitted (m w h g))%list (glob (m w h g))) <> Fuel) ->
  out (bind m k w h g) <> Fuel.
Proof.
  intros Hm Hk. unfold bind.
  destruct (out (m w h g)) as [a | e |]; simpl;
    [now apply Hk | discriminate | now contradiction Hm].
Qed.

Lemma invoke_no_fuel c w h g : out (invoke c w h g) <> Fuel.
Proof. unfold invoke. simpl. destruct (w c _); discriminate. Qed.

Lemma method_no_fuel recv name a kw w h g : out (method recv name a kw w h g) <> Fuel.
Proof. destruct recv; try apply invoke_no_fuel; discriminate. Qed.

Lemma str_concat_no_fuel lit v w h g : out (str_concat lit v w h g) <> Fuel.
Proof. destruct v; discriminate. Qed.

Lemma subscript_no_fuel v key w h g : out (subscript v key w h g) <> Fuel.
Proof.
  unfold subscript.
  destruct v; destruct key; try apply invoke_no_fuel; try discriminate.
  - destruct (_ <? 0)%Z; [discriminate|].
    destruct (nth_error _ _); discriminate.
  - destruct (dict_lookup _ _); discriminate.
Qed.

(** A subscript never describes the endpoint. *)
Lemma subscript_no_describe v key w h g :
  occurrences "sm_client.describe_endpoint" (emitted (subscript v key w h g)) = 0.
Proof.
  unfold subscript.
  destruct v; destruct key; try reflexivity.
  - destruct (_ <? 0)%Z; [reflexivity|].
    destruct (nth_error _ _); reflexivity.
  - destruct (dict_lookup _ _); reflexivity.
Qed.

Lemma subscript_reported_status resp w h g s :
  reported_status (Gives resp) = Some s ->
  out (subscript resp (PStr "EndpointStatus") w h g) = Val (PStr s).
Proof.
  destruct resp as [| b | z | m e | s0 | l | d | n | cls ident]; simpl;
    try discriminate.
  destruct (dict_lookup "EndpointStatus" d) as [[| | | | s1 | | | |]|];
    try discriminate.
  intros H. now inversion H.
Qed.

Lemma poll_while_creating_terminates sm_client endpoint_name fuel :
  forall j w h g resp status s,
    j < fuel ->
    reported_status
      (w (describe_call sm_client endpoint_name)
         (occurrences "sm_client.describe_endpoint" h + j)) = Some s ->
    s <> "Creating" ->
    out (poll_while_creating fuel sm_client endpoint_name resp status w h g) <> Fuel.
Proof.
  induction fuel as [|fuel IH]; intros j w h g resp status s Hj Hs Hne; [lia|].
  simpl. destruct (py_eq_str status "Creating"); [|discriminate].
  unfold print, ext.
  apply bind_no_fuel; [apply invoke_no_fuel | intros slept H1].
  apply bind_no_fuel; [apply method_no_fuel | intros resp' H2].
  apply bind_no_fuel; [apply subscript_no_fuel | intros status' H3].
  apply bind_no_fuel; [apply str_concat_no_fuel | intros line H4].
  apply bind_no_fuel; [apply invoke_no_fuel | intros printed H5].
  destruct (method_val H2) as (_ & Hw & E2 & _).
  destruct (str_concat_val H4) as (s' & -> & -> & E4 & _).
  rewrite occurrences_app in Hw. simpl in Hw. rewrite Nat.add_0_r in Hw.
  destruct j as [|j].
  - (* this poll is the one that leaves "Creating" *)
    rewrite Nat.add_0_r in Hs. unfold describe_call in Hs. rewrite Hw in Hs.
    rewrite (subscript_reported_status _ _ _ _ _ Hs) in H3. inversion H3; subst s'.
    assert (Hstop : (s =? "Creating") = false) by (apply String.eqb_neq; exact Hne).
    destruct fuel; simpl; rewrite Hstop; discriminate.
  - apply (IH j) with (s := s); [lia | | exact Hne].
    rewrite !occurrences_app, E4, subscript_no_describe, E2. simpl.
    set (n := occurrences "sm_client.describe_endpoint" h) in *.
    unfold occurrences. simpl.
    match goal with
    | |- reported_status (w _ ?m) = _ => replace m with (n + S j) by lia
    end.
    exact Hs.
Qed.

Lemma wait_for_endpoint_terminates sm_client endpoint_name fuel w h g :
  leaves_creating_within w sm_client endpoint_name h fuel ->
  out (wait_for_endpoint fuel sm_client endpoint_name w h g) <> Fuel.
Proof.
  intros (j & s & Hj & Hs & Hne). unfold wait_for_endpoint, print, ext.
  apply bind_no_fuel; [apply method_no_fuel | intros resp H1].
  apply bind_no_fuel; [apply subscript_no_fuel | intros status H2].
  apply bind_no_fuel; [apply str_concat_no_fuel | intros line H3].
  apply bind_no_fuel; [apply invoke_no_fuel | intros printed H4].
  destruct (method_val H1) as (_ & Hw & E1 & _).
  destruct (str_concat_val H3) as (s' & -> & -> & E3 & _).
  apply bind_no_fuel.
  - destruct j as [|j].
    + (* the first description already reports another status *)
      rewrite Nat.add_0_r in Hs. unfold describe_call in Hs. rewrite Hw in Hs.
      rewrite (subscript_reported_status _ _ _ _ _ Hs) in H2. inversion H2; subst s'.
      assert (Hstop : (s =? "Creating") = false) by (apply String.eqb_neq; exact Hne).
      destruct fuel; simpl; rewrite Hstop; discriminate.
    + apply (poll_while_creating_terminates sm_client endpoint_name fuel j) with (s := s);
        [lia | | exact Hne].
      rewrite !occurrences_app, E3, subscript_no_describe, E1.
      set (n := occurrences "sm_client.describe_endpoint" h) in *.
      unfold occurrences. simpl.
      match goal with
      | |- reported_status (w _ ?m) = _ => replace m with (n + S j) by lia
      end.
      exact Hs.
  - intros final _.
    apply bind_no_fuel; [apply subscript_no_fuel | intros arn _].
    apply bind_no_fuel; [apply str_concat_no_fuel | intros arn_line _].
    apply bind_no_fuel; [apply invoke_no_fuel | intros printed' _].
    apply bind_no_fuel; [apply str_concat_no_fuel | intros status_line _].
    apply invoke_no_fuel.
Qed.




(** ** The request handler *)

Lemma method_not_none recv name a kw :
  recv <> PNone -> method recv name a kw = ext name (recv :: a) kw.
Proof. destruct recv; intros H; try reflexivity. now contradiction H. Qed.

Lemma bind_invoke_gives {B} c (k : pyval -> M B) w h g v :
  w c (occurrences (fn c) h) = Gives v ->
  bind (invoke c) k w h g = after [(c, Gives v)] (k v w (h ++ [(c, Gives v)])%list g).
Proof. intros Hw. unfold bind, invoke, after. simpl. rewrite Hw. reflexivity. Qed.

Lemma after_after {A} l1 l2 (r : ran A) : after l1 (after l2 r) = after (l1 ++ l2) r.
Proof. unfold after. simpl. now rewrite app_assoc. Qed.

Lemma ensure_loaded_when_loaded inputs w h g :
  py_truthy (g_model g) = true -> ensure_loaded inputs w h g = Ran (Val tt) g [].
Proof.
  intros Ht. unfold ensure_loaded.
  rewrite (bind_pure get_model _ w h g (g_model g) g eq_refl).
  rewrite Ht. reflexivity.
Qed.

Lemma py_get_val {v k d w h g x} :
  out (py_get v k d w h g) = Val x ->
  exists items, v = PDict items /\ x = request_field items k d
                /\ emitted (py_get v k d w h g) = [] /\ glob (py_get v k d w h g) = g.
Proof.
  destruct v as [| b | z | m e | s0 | l | items | n | cls ident]; simpl; intros H;
    try discriminate H.
  inversion H. exists items. repeat split.
Qed.

Lemma ensure_loaded_loads inputs w h g :
  py_truthy (g_model g) = false ->
  out (ensure_loaded inputs w h g) = Val tt ->
  exists properties model tokenizer rest,
    let model_id := request_field properties "model_id" PNone in
    emitted (ensure_loaded inputs w h g)
    = (get_properties_call inputs, Gives (PDict properties))
        :: (Call "LlamaForCausalLM.from_pretrained" [model_id]
              [("low_cpu_mem_usage", PBool true); ("torch_dtype", PName "torch.float16");
               ("device_map", PStr "auto")], Gives model)
        :: (Call "LlamaTokenizer.from_pretrained" [model_id] [], Gives tokenizer)
        :: rest
    /\ glob (ensure_loaded inputs w h g) = Globals model tokenizer.
Proof.
  intros Hf H. unfold ensure_loaded, load_model, ext in *.
  rewrite (bind_pure get_model _ w h g (g_model g) g eq_refl) in *.
  rewrite Hf in *. change (negb false) with true in *. cbv iota in *.
  next_val H props H1.
  destruct (method_val H1) as (_ & _ & E & K). rewrite ?E, ?K in *. clear H1 E K.
  next_val H model_id H2.
  destruct (py_get_val H2) as (items & -> & -> & E & K). rewrite ?E, ?K in *.
  clear H2 E K.
  next_val H loaded H3.
  next_val H3 model L1.
  destruct (invoke_val L1) as (_ & E & K). rewrite ?E, ?K in *. clear L1 E K.
  next_val H3 tokenizer L2.
  destruct (invoke_val L2) as (_ & E & K). rewrite ?E, ?K in *. clear L2 E K.
  next_val H3 pad L3. next_val H3 x L4. next_val H3 y L5.
  simpl in H3. inversion H3; subst loaded. clear H3.
  eexists items, model, tokenizer, _. split; [simpl; reflexivity|].
  unfold set_model, set_tokenizer, bind. simpl. reflexivity.
Qed.

Lemma serve_empty inputs w h g e :
  inputs <> PNone ->
  w (is_empty_call inputs) (occurrences "inputs.is_empty" h) = Gives e ->
  py_truthy e = true ->
  serve inputs w h g = Ran (Val PNone) g [(is_empty_call inputs, Gives e)].
Proof.
  intros Hn Hw Ht. unfold serve. rewrite (method_not_none _ _ _ _ Hn). unfold ext.
  rewrite (bind_invoke_gives _ _ _ _ _ _ Hw). rewrite Ht. reflexivity.
Qed.

Lemma serve_request inputs w h g e request :
  inputs <> PNone ->
  w (is_empty_call inputs) (occurrences "inputs.is_empty" h) = Gives e ->
  py_truthy e = false ->
  w (get_as_json_call inputs) (occurrences "inputs.get_as_json" h) = Gives (PDict request) ->
  let asked := [(is_empty_call inputs, Gives e);
                (get_as_json_call inputs, Gives (PDict request))] in
  serve inputs w h g
  = after asked
      ((outputs <- evaluate_kwargs
                     (request_field request "inputs" PNone)
                     (request_field request "adapters" (PList []))
                     (request_field request "parameters" (PDict [])) ;;
        respond outputs) w (h ++ asked)%list g).
Proof.
  intros Hn Hw Ht Hj asked. unfold serve.
  rewrite !(method_not_none _ _ _ _ Hn). unfold ext.
  rewrite (bind_invoke_gives _ _ _ _ _ _ Hw). rewrite Ht.
  rewrite bind_invoke_gives with (v := PDict request).
  2:{ rewrite occurrences_app. unfold occurrences at 2. simpl.
      rewrite Nat.add_0_r. exact Hj. }
  rewrite after_after. simpl app. rewrite <- app_assoc. simpl app.
  unfold asked. f_equal.
  rewrite !bind_pure with (g' := g) (a := request_field request "inputs" PNone)
    by reflexivity.
  rewrite !bind_pure with (g' := g) (a := request_field request "adapters" (PList []))
    by reflexivity.
  rewrite !bind_pure with (g' := g) (a := request_field request "parameters" (PDict []))
    by reflexivity.
  reflexivity.
Qed.

Ltac loading_side := simpl; repeat split; discriminate.

Lemma evaluate_kwargs_defaults sentence adapters :
  evaluate_kwargs sentence adapters (PDict []) = evaluate sentence adapters PNone (PInt 64).
Proof. reflexivity. Qed.

(** ** Adapter registration *)

Lemma register_adapter_val inputs w h g x :
  out (register_adapter inputs w h g) = Val x ->
  exists name src logged reply,
    emitted (register_adapter inputs w h g)
    = [(get_property_call inputs "name", Gives name);
       (get_property_call inputs "src", Gives src);
       (registering_message name src, Gives logged);
       (if py_isinstance (g_model g) "PeftModel"
        then Call "model.load_adapter" [g_model g; src; name] []
        else Call "PeftModel.from_pretrained" [g_model g; src; name] [],
        Gives reply)]
    /\ glob (register_adapter inputs w h g)
       = (if py_isinstance (g_model g) "PeftModel" then g
          else Globals reply (g_tokenizer g))
    /\ (py_isinstance (g_model g) "PeftModel" = false ->
        exists n, w (Call "PeftModel.from_pretrained" [g_model g; src; name] []) n
                  = Gives reply).
Proof.
  intros H. unfold register_adapter, ext in *.
  destruct (bind_val H) as (name & H1 & H' & E1 & G1); clear H.
  destruct (bind_val H') as (src & H2 & H & E2 & G2); clear H'.
  destruct (bind_val H) as (logged & H3 & H' & E3 & G3); clear H.
  rewrite E1, E2, E3, G1, G2, G3. clear E1 E2 E3 G1 G2 G3.
  destruct (method_val H1) as (_ & _ & E1 & K1). rewrite ?E1, ?K1 in *.
  destruct (method_val H2) as (_ & _ & E2 & K2). rewrite ?E2, ?K2 in *.
  destruct (invoke_val H3) as (_ & E3 & K3). rewrite ?E3, ?K3 in *.
  revert H'. rewrite (bind_pure get_model _ w _ g (g_model g) g eq_refl).
  destruct (py_isinstance (g_model g) "PeftModel") eqn:Ep; intros H.
  - destruct (bind_val H) as (r & H4 & H' & E4 & G4); clear H.
    rewrite E4, G4.
    destruct (method_val H4) as (_ & _ & E5 & K5). rewrite E5, K5.
    exists name, src, logged, r. simpl. repeat split; discriminate.
  - destruct (bind_val H) as (r & H4 & H' & E4 & G4); clear H.
    rewrite E4, G4.
    destruct (invoke_val H4) as (Hw & E5 & K5). rewrite E5.
    exists name, src, logged, r. simpl. repeat split.
    intros _. eexists. exact Hw.
Qed.

Lemma occurrences_cons f ev l :
  occurrences f (ev :: l) = (if fn (fst ev) =? f then 1 else 0) + occurrences f l.
Proof. unfold occurrences. simpl. destruct (fn (fst ev) =? f); reflexivity. Qed.

(** ** Stages *)

























(** ** Calls a returning run has made *)

Lemma made_app_l Q l1 l2 : made Q l1 -> made Q (l1 ++ l2).
Proof. unfold made. rewrite Exists_app. now left. Qed.

Lemma made_app_r Q l1 l2 : made Q l2 -> made Q (l1 ++ l2).
Proof. unfold made. rewrite Exists_app. now right. Qed.

Lemma reaches_bind_first w Q {A B} (m : M A) (k : A -> M B) :
  Reaches w Q m -> Reaches w Q (bind m k).
Proof.
  intros Hm h g b H. destruct (bind_val H) as (a & H1 & _ & E & _).
  rewrite E. apply made_app_l. now apply (Hm h g a).
Qed.

Lemma reaches_bind_later w Q {A B} (m : M A) (k : A -> M B) :
  (forall a, Reaches w Q (k a)) -> Reaches w Q (bind m k).
Proof.
  intros Hk h g b H. destruct (bind_val H) as (a & _ & H2 & E & _).
  rewrite E. apply made_app_r. now apply (Hk a _ _ b).
Qed.

Lemma reaches_invoke w (Q : call -> Prop) c : Q c -> Reaches w Q (invoke c).
Proof.
  intros Hc h g v H. destruct (invoke_val H) as (_ & E & _). rewrite E.
  constructor. split; [exact Hc | now exists v].
Qed.

Lemma reaches_method w (Q : call -> Prop) recv name a kw :
  (forall r, Q (Call name (r :: a) kw)) -> Reaches w Q (method recv name a kw).
Proof.
  intros Hc h g v H. destruct (method_val H) as (_ & _ & E & _). rewrite E.
  constructor. split; [apply Hc | now exists v].
Qed.

Lemma reaches_method_m w (Q : call -> Prop) recv name a :
  (forall r xs, Q (Call name (r :: fst xs) (snd xs))) ->
  Reaches w Q (method_m recv name a).
Proof.
  intros Hc. destruct recv;
    try (apply reaches_bind_later; intros xs; apply reaches_invoke, Hc).
  intros h g v H. discriminate H.
Qed.

Lemma reaches_method_m_args w (Q : call -> Prop) recv name a :
  Reaches w Q a -> Reaches w Q (method_m recv name a).
Proof.
  intros Ha. destruct recv; try (apply reaches_bind_first, Ha).
  intros h g v H. discriminate H.
Qed.

(** [reach side] looks for the call along the script; [side] recognises it. *)
Ltac reach side :=
  cbv zeta;
  lazymatch goal with
  | |- Reaches _ _ (bind _ _) =>
      first [ apply reaches_bind_first; reach side
            | apply reaches_bind_later; intros ?; reach side ]
  | |- Reaches _ _ (invoke _) => apply reaches_invoke; side
  | |- Reaches _ _ (ext _ _ _) => apply reaches_invoke; side
  | |- Reaches _ _ (print _) => fail
  | |- Reaches _ _ (shell _) => fail
  | |- Reaches _ _ (subscript _ _) => fail
  | |- Reaches _ _ (str_concat _ _) => fail
  | |- Reaches _ _ (ret _) => fail
  | |- Reaches _ _ (method _ _ _ _) => apply reaches_method; intros; side
  | |- Reaches _ _ (method_m _ _ _) =>
      first [ apply reaches_method_m; intros; side
            | apply reaches_method_m_args; reach side ]
  | |- Reaches _ _ (match ?x with _ => _ end) => destruct x; reach side
  | |- Reaches _ _ ?m => let f := head_of m in unfold f; reach side
  end.

Lemma pair_bind_later w R {A B} (m : M A) (k : A -> M B) :
  (forall a, ReachesPair w R (k a)) -> ReachesPair w R (bind m k).
Proof.
  intros Hk h g b H. destruct (bind_val H) as (a & _ & H2 & E & _).
  rewrite E. destruct (Hk a _ _ b H2) as (l1 & c1 & v1 & l2 & E2 & Hm).
  exists (emitted (m w h g) ++ l1)%list, c1, v1, l2.
  rewrite E2, app_assoc. split; [reflexivity | exact Hm].
Qed.

Lemma pair_bind_method w (R : call -> call -> Prop) recv name xs kw {B}
    (k : pyval -> M B) :
  (forall r a, Reaches w (R (Call name (r :: xs) kw)) (k a)) ->
  ReachesPair w R (bind (method recv name xs kw) k).
Proof.
  intros Hk h g b H. destruct (bind_val H) as (a & H1 & H2 & E & _).
  rewrite E. destruct (method_val H1) as (_ & _ & E1 & _). rewrite E1 at 1.
  eexists [], _, a, _. split; [reflexivity|]. now apply (Hk recv a _ _ b).
Qed.

Ltac reach_pair side :=
  cbv zeta;
  lazymatch goal with
  | |- ReachesPair _ _ (bind (method _ _ _ _) _) =>
      first [ apply pair_bind_method; intros ? ?; reach side
            | apply pair_bind_later; intros ?; reach_pair side ]
  | |- ReachesPair _ _ (bind _ _) => apply pair_bind_later; intros ?; reach_pair side
  | |- ReachesPair _ _ (match ?x with _ => _ end) => destruct x; reach_pair side
  | |- ReachesPair _ _ ?m => let f := head_of m in unfold f; reach_pair side
  end.



(** ** Tearing down *)

Ltac keeps_model := simpl; intuition discriminate.

Lemma djl_notebook_never_deletes_a_model w fuel :
  Holds (all_calls (fun c => ~ In Model (deletes c))) w (djl_notebook fuel).
Proof.
  assert (Hwait : forall c name,
             Holds (all_calls (fun c => ~ In Model (deletes c))) w
               (wait_for_endpoint fuel c name))
    by (intros; apply holds_wait_for_endpoint; intros; keeps_model).
  walk keeps_model.
Qed.

Lemma deleted_none r l :
  Forall (fun ev => ~ In r (deletes (fst ev))) l -> ~ In r (deleted l).
Proof.
  intros H Hin. unfold deleted in Hin. apply in_flat_map in Hin.
  destruct Hin as ([c rep] & Hev & Hr).
  rewrite Forall_forall in H. specialize (H _ Hev). simpl in *.
  destruct rep; [now apply H | contradiction].
Qed.

Lemma created_made r l : made (fun c => In r (creates c)) l -> In r (created l).
Proof.
  unfold made. rewrite Exists_exists. intros ([c rep] & Hev & Hr & v & Hv).
  simpl in *. subst rep. unfold created. apply in_flat_map.
  exists (c, Gives v). split; assumption.
Qed.

Lemma deleted_made r l : made (fun c => In r (deletes c)) l -> In r (deleted l).
Proof.
  unfold made. rewrite Exists_exists. intros ([c rep] & Hev & Hr & v & Hv).
  simpl in *. subst rep. unfold deleted. apply in_flat_map.
  exists (c, Gives v). split; assumption.
Qed.

Lemma resource_eqb_refl r : resource_eqb r r = true.
Proof. now destruct r. Qed.

Lemma resource_eqb_eq a b : resource_eqb a b = true -> a = b.
Proof. destruct a, b; simpl; congruence. Qed.

Lemma torn_down_when_all_deleted l :
  (forall r, In r (deleted l)) -> torn_down l = true.
Proof.
  intros H. unfold torn_down. apply forallb_forall. intros r _.
  apply existsb_exists. exists r. split; [apply H | apply resource_eqb_refl].
Qed.

Lemma not_torn_down l r :
  In r (created l) -> ~ In r (deleted l) -> torn_down l = false.
Proof.
  intros Hc Hd. unfold torn_down.
  destruct (forallb _ (created l)) eqn:E; [|reflexivity].
  rewrite forallb_forall in E. specialize (E r Hc).
  apply existsb_exists in E. destruct E as (r' & Hin & Heq).
  apply resource_eqb_eq in Heq. subst r'. contradiction.
Qed.

Ltac found := simpl; solve [auto].

Lemma djl_notebook_creates_a_model w fuel :
  Reaches w (fun c => In Model (creates c)) (djl_notebook fuel).
Proof. unfold djl_notebook. reach found. Qed.

Lemma lmi_notebook_deletes_everything w fuel r :
  Reaches w (fun c => In r (deletes c)) (lmi_notebook fuel).
Proof. destruct r; unfold lmi_notebook; reach found. Qed.

Lemma function_calling_notebook_deletes_everything w r :
  Reaches w (fun c => In r (deletes c)) function_calling_notebook.
Proof. destruct r; unfold function_calling_notebook; reach found. Qed.

Ltac undone := simpl; repeat split; eexists; split; reflexivity.

Lemma lmi_notebook_deletes_what_it_created w fuel :
  ReachesPair w (undoes "sm_client.create_model" "sm_client.delete_model" "ModelName")
    (lmi_notebook fuel)
  /\ ReachesPair w
       (undoes "sm_client.create_endpoint_config" "sm_client.delete_endpoint_config"
          "EndpointConfigName")
       (lmi_notebook fuel)
  /\ ReachesPair w
       (undoes "sm_client.create_endpoint" "sm_client.delete_endpoint" "EndpointName")
       (lmi_notebook fuel).
Proof.
  repeat split; unfold lmi_notebook; reach_pair undone.
Qed.

(** The sibling notebooks do tear everything down. *)
Lemma other_notebooks_tear_down w nb fuel h g a :
  nb <> Djl ->
  out (script nb fuel w h g) = Val a ->
  torn_down (emitted (script nb fuel w h g)) = true.
Proof.
  intros Hnb H. apply torn_down_when_all_deleted. intros r. apply deleted_made.
  destruct nb; [now contradiction Hnb | |]; simpl in *.
  - now apply (lmi_notebook_deletes_everything w fuel r h g a).
  - now apply (function_calling_notebook_deletes_everything w r h g a).
Qed.

(** C5 fails on the DJL notebook: a run that returns has created a model and
    has deleted the endpoint and its configuration only; no run of it ever
    calls [delete_model]. *)
Theorem djl_notebook_leaves_its_model_behind
    (fuel : nat) (w : World) (h : list event) (g : globals) (a : pyval) :
  out (script Djl fuel w h g) = Val a ->
  let l := emitted (script Djl fuel w h g) in
  In Model (created l) /\ ~ In Model (deleted l) /\ torn_down l = false.
Proof.
  intros H l. simpl in *.
  assert (Hc : In Model (created l))
    by (apply created_made; now apply (djl_notebook_creates_a_model w fuel h g a)).
  assert (Hd : ~ In Model (deleted l))
    by (apply deleted_none; apply (djl_notebook_never_deletes_a_model w fuel h g)).
  repeat split; try assumption.
  now apply not_torn_down with (r := Model).
Qed.

(** ** Request bodies *)














(** ** Determinism *)

Lemma generate_prompt_is_fixed : fixed_mapping GeneratePromptFn.
Proof. intros i x w w' h h' g g'. reflexivity. Qed.

(** C7, amended: [generate_prompt] is a fixed deterministic mapping of its
    inputs; the other four functions of [model.py] are not: on the same
    inputs their result changes with what the libraries answer. *)
Theorem only_generate_prompt_is_a_fixed_mapping :
  fixed_mapping GeneratePromptFn
  /\ ~ fixed_mapping EvaluateFn
  /\ ~ fixed_mapping LoadModelFn
  /\ ~ fixed_mapping RegisterAdapterFn
  /\ ~ fixed_mapping HandleFn.
Proof.
  split; [exact generate_prompt_is_fixed|].
  repeat split; intros H.
  - specialize (H (PList []) (PList []) PNone (PInt 64)
                  serving_world failing_world [] [] loaded_globals loaded_globals).
    vm_compute in H. discriminate H.
  - specialize (H (PStr "huggyllama/llama-7b")
                  serving_world failing_world [] [] init_globals init_globals).
    vm_compute in H. discriminate H.
  - specialize (H (PObj "Input" 0)
                  serving_world failing_world [] [] loaded_globals loaded_globals).
    vm_compute in H. discriminate H.
  - specialize (H (PObj "Input" 0)
                  serving_world failing_world [] [] loaded_globals loaded_globals).
    vm_compute in H. discriminate H.
Qed.

(** ** The request path *)

Lemma reaches_with_ctx w (Q : call -> Prop) {A} cm (body : M A) :
  Reaches w Q body -> Reaches w Q (with_ctx cm body).
Proof.
  intros Hb h g a. unfold with_ctx, ext, invoke. simpl.
  destruct (w (Call "__enter__" [cm] []) _) as [v | e]; simpl; [|discriminate].
  set (h1 := (h ++ _)%list).
  specialize (Hb h1 g).
  destruct (out (body w h1 g)) as [b | e |] eqn:Eb; simpl;
    try discriminate;
    destruct (w (Call "__exit__" [cm] []) _); simpl; intros H; inversion H; subst.
  apply (made_app_r Q [_]). apply made_app_l. now apply (Hb a).
Qed.


Ltac path_side := simpl; repeat split; reflexivity.


Lemma evaluate_calls_generate w i a x n :
  Reaches w (fun c => fn c = "model.generate"
                      /\ dict_lookup "adapters" (kwargs c) = Some a
                      /\ dict_lookup "max_new_tokens" (kwargs c) = Some n)
    (evaluate i a x n).
Proof.
  unfold evaluate.
  do 10 (apply reaches_bind_later; intros ?).
  apply reaches_bind_first, reaches_with_ctx.
  apply reaches_bind_later; intros ?.
  apply reaches_method. intros r. path_side.
Qed.

Ltac forwards_side := intros ?; simpl in *; first [discriminate | split; reflexivity].

Lemma evaluate_forwards w i a x n :
  Holds (all_calls (forwards a n)) w (evaluate i a x n).
Proof. walk forwards_side. Qed.







(** ** The globals *)

Section Globals.

Variable w : World.

Lemma keeps_ret {A} (a : A) : Keeps w (ret a).
Proof. intros h g. reflexivity. Qed.

Lemma keeps_raise {A} (e : exn) : Keeps w (@raise A e).
Proof. intros h g. reflexivity. Qed.

Lemma keeps_get_model : Keeps w get_model.
Proof. intros h g. reflexivity. Qed.

Lemma keeps_get_tokenizer : Keeps w get_tokenizer.
Proof. intros h g. reflexivity. Qed.

Lemma keeps_invoke c : Keeps w (invoke c).
Proof. intros h g. reflexivity. Qed.

Lemma keeps_bind {A B} (m : M A) (k : A -> M B) :
  Keeps w m -> (forall a, Keeps w (k a)) -> Keeps w (bind m k).
Proof.
  intros Hm Hk h g. unfold bind. specialize (Hm h g).
  destruct (out (m w h g)) as [a | e |]; simpl; [rewrite (Hk a)| |]; exact Hm.
Qed.

Lemma keeps_method recv name a kw : Keeps w (method recv name a kw).
Proof. intros h g. destruct recv; reflexivity. Qed.

Lemma keeps_method_m recv name a : Keeps w a -> Keeps w (method_m recv name a).
Proof.
  intros Ha. destruct recv; try apply keeps_raise;
    (apply keeps_bind; [exact Ha | intros xs; apply keeps_invoke]).
Qed.

Lemma keeps_call_value f name a kw : Keeps w (call_value f name a kw).
Proof. intros h g. destruct f; reflexivity. Qed.

Lemma keeps_py_get v k d : Keeps w (py_get v k d).
Proof. intros h g. destruct v; reflexivity. Qed.

Lemma keeps_subscript v key : Keeps w (subscript v key).
Proof.
  intros h g. unfold subscript. destruct v; destruct key; try reflexivity.
  - destruct (_ <? 0)%Z; [reflexivity|].
    destruct (nth_error _ _); reflexivity.
  - destruct (dict_lookup _ _); reflexivity.
Qed.

Lemma keeps_str_concat lit v : Keeps w (str_concat lit v).
Proof. intros h g. destruct v; reflexivity. Qed.

Lemma keeps_with_ctx {A} cm (body : M A) : Keeps w body -> Keeps w (with_ctx cm body).
Proof.
  intros Hb h g. unfold with_ctx, ext, invoke. simpl.
  destruct (w _ _) as [v | e]; simpl; [|reflexivity].
  specialize (Hb (h ++ [(Call "__enter__" [cm] [], Gives v)])%list g).
  destruct (out (body _ _ _)); simpl; exact Hb.
Qed.

(** The globals after a step that keeps them are those of what follows. *)
Lemma glob_bind_keeps {A B} (m : M A) (k : A -> M B) h g :
  Keeps w m ->
  glob (bind m k w h g)
  = match out (m w h g) with
    | Val a => glob (k a w (h ++ emitted (m w h g))%list g)
    | _ => g
    end.
Proof.
  intros Hm. unfold bind. specialize (Hm h g).
  destruct (out (m w h g)); simpl; now rewrite Hm.
Qed.

Lemma keeps_unless_returns_of_keeps {A} (m : M A) : Keeps w m -> KeepsUnlessReturns w m.
Proof. intros Hm h g _. apply Hm. Qed.

Lemma keeps_unless_returns_total {A} (m : M A) :
  (forall h g, exists a, out (m w h g) = Val a) -> KeepsUnlessReturns w m.
Proof. intros Hm h g Hn. destruct (Hm h g) as [a Ha]. now contradiction (Hn a). Qed.

Lemma keeps_unless_returns_bind {A B} (m : M A) (k : A -> M B) :
  Keeps w m -> (forall a, KeepsUnlessReturns w (k a)) -> KeepsUnlessReturns w (bind m k).
Proof.
  intros Hm Hk h g. unfold bind. specialize (Hm h g).
  destruct (out (m w h g)) as [a | e |]; simpl; intros Hn; try exact Hm.
  rewrite (Hk a) by exact Hn. exact Hm.
Qed.

(** *** Counting the calls of a callee *)

Lemma occurrences_none f (l : list event) :
  Forall (fun ev => fn (fst ev) <> f) l -> occurrences f l = 0.
Proof.
  unfold occurrences. induction 1 as [|ev l Hne _ IH]; simpl; [reflexivity|].
  apply String.eqb_neq in Hne. now rewrite Hne.
Qed.

Lemma emitted_bind {A B} (m : M A) (k : A -> M B) h g :
  emitted (bind m k w h g)
  = match out (m w h g) with
    | Val a => (emitted (m w h g)
                  ++ emitted (k a w (h ++ emitted (m w h g))%list (glob (m w h g))))%list
    | _ => emitted (m w h g)
    end.
Proof. unfold bind. destruct (out (m w h g)); reflexivity. Qed.

Lemma atmost_quiet f {A} (m : M A) :
  Holds (all_calls (fun c => fn c <> f)) w m -> AtMost w f 0 m.
Proof. intros Hm h g. rewrite occurrences_none; [lia | apply Hm]. Qed.

Lemma atmost_invoke f c : AtMost w f 1 (invoke c).
Proof.
  intros h g. unfold invoke, occurrences. simpl. destruct (fn c =? f); simpl; lia.
Qed.

Lemma atmost_bind f a b {A B} (m : M A) (k : A -> M B) :
  AtMost w f a m -> (forall x, AtMost w f b (k x)) -> AtMost w f (a + b) (bind m k).
Proof.
  intros Hm Hk h g. rewrite emitted_bind. specialize (Hm h g).
  destruct (out (m w h g)) as [x | e |]; try lia.
  rewrite occurrences_app.
  specialize (Hk x (h ++ emitted (m w h g))%list (glob (m w h g))). lia.
Qed.

Lemma atmost_weaken f a b {A} (m : M A) : AtMost w f a m -> a <= b -> AtMost w f b m.
Proof. intros Hm Hab h g. specialize (Hm h g). lia. Qed.

End Globals.

(** [keep_walk] follows the structure of a script that never assigns a
    global. *)
Ltac keep_walk :=
  cbv zeta;
  lazymatch goal with
  | |- Keeps _ (bind _ _) => apply keeps_bind; [keep_walk | intros ?; keep_walk]
  | |- Keeps _ (ret _) => apply keeps_ret
  | |- Keeps _ (raise _) => apply keeps_raise
  | |- Keeps _ get_model => apply keeps_get_model
  | |- Keeps _ get_tokenizer => apply keeps_get_tokenizer
  | |- Keeps _ (invoke _) => apply keeps_invoke
  | |- Keeps _ (ext _ _ _) => apply keeps_invoke
  | |- Keeps _ (method _ _ _ _) => apply keeps_method
  | |- Keeps _ (method_m _ _ _) => apply keeps_method_m; keep_walk
  | |- Keeps _ (call_value _ _ _ _) => apply keeps_call_value
  | |- Keeps _ (py_get _ _ _) => apply keeps_py_get
  | |- Keeps _ (subscript _ _) => apply keeps_subscript
  | |- Keeps _ (str_concat _ _) => apply keeps_str_concat
  | |- Keeps _ (with_ctx _ _) => apply keeps_with_ctx; keep_walk
  | |- Keeps _ (match ?x with _ => _ end) => destruct x; keep_walk
  | |- Keeps _ ?m => let f := head_of m in unfold f; keep_walk
  end.

Lemma evaluate_keeps_globals w i a x n : Keeps w (evaluate i a x n).
Proof. keep_walk. Qed.

Lemma load_model_keeps_globals w id : Keeps w (load_model id).
Proof. keep_walk. Qed.

Lemma serve_keeps_globals w inputs : Keeps w (serve inputs).
Proof. keep_walk. Qed.

Lemma ensure_loaded_keeps_unless_returns w inputs :
  KeepsUnlessReturns w (ensure_loaded inputs).
Proof.
  unfold ensure_loaded.
  apply keeps_unless_returns_bind; [apply keeps_get_model | intros model].
  destruct (negb (py_truthy model));
    [|apply keeps_unless_returns_of_keeps, keeps_ret].
  apply keeps_unless_returns_bind; [apply keeps_method | intros properties].
  apply keeps_unless_returns_bind; [apply keeps_py_get | intros model_id].
  apply keeps_unless_returns_bind; [apply load_model_keeps_globals | intros loaded].
  apply keeps_unless_returns_total. intros h g. exists tt. reflexivity.
Qed.

Lemma handle_when_loaded inputs w h g :
  py_truthy (g_model g) = true -> handle inputs w h g = serve inputs w h g.
Proof.
  intros Ht. unfold handle.
  exact (bind_pure (ensure_loaded inputs) (fun _ => serve inputs) w h g tt g
           (ensure_loaded_when_loaded inputs w h g Ht)).
Qed.

Lemma glob_handle inputs w h g :
  glob (handle inputs w h g) = glob (ensure_loaded inputs w h g).
Proof.
  unfold handle, bind.
  destruct (out (ensure_loaded inputs w h g)); simpl; try reflexivity.
  apply serve_keeps_globals.
Qed.

(** X1: serving a request never assigns the globals: after [handle], however
    it ends, they are what the loading step left, which is what it found
    when the model was already loaded or when loading did not return. *)
Theorem handle_changes_globals_only_by_loading
    (inputs : pyval) (w : World) (h : list event) (g : globals) :
  let r := handle inputs w h g in
  glob r = glob (ensure_loaded inputs w h g)
  /\ (py_truthy (g_model g) = true -> glob r = g)
  /\ ((forall a, out (ensure_loaded inputs w h g) <> Val a) -> glob r = g)
  /\ (forall i a x n h' g', glob (evaluate i a x n w h' g') = g').
Proof.
  cbv zeta. rewrite glob_handle. refine (conj eq_refl (conj _ (conj _ _))).
  - intros Ht. now rewrite ensure_loaded_when_loaded.
  - apply ensure_loaded_keeps_unless_returns.
  - intros. apply evaluate_keeps_globals.
Qed.

(** *** Loading happens once *)

Ltac other_callee := simpl; discriminate.

Lemma serve_never_loads w inputs :
  AtMost w "LlamaForCausalLM.from_pretrained" 0 (serve inputs).
Proof. apply atmost_quiet. walk other_callee. Qed.

Lemma ensure_loaded_loads_once w inputs :
  AtMost w "LlamaForCausalLM.from_pretrained" 1 (ensure_loaded inputs).
Proof.
  unfold ensure_loaded.
  apply (atmost_bind w _ 0 1); [apply atmost_quiet; walk other_callee | intros model].
  destruct (negb (py_truthy model));
    [|apply atmost_weaken with (a := 0); [apply atmost_quiet; walk other_callee | lia]].
  apply (atmost_bind w _ 0 1); [apply atmost_quiet; walk other_callee | intros properties].
  apply (atmost_bind w _ 0 1); [apply atmost_quiet; walk other_callee | intros model_id].
  apply (atmost_bind w _ 1 0); [|intros loaded; apply atmost_quiet; walk other_callee].
  unfold load_model.
  apply (atmost_bind w _ 1 0); [apply atmost_invoke | intros loaded].
  apply atmost_quiet. walk other_callee.
Qed.

Lemma handle_loads_once w inputs :
  AtMost w "LlamaForCausalLM.from_pretrained" 1 (handle inputs).
Proof.
  unfold handle.
  apply (atmost_bind w _ 1 0); [apply ensure_loaded_loads_once | intros _].
  apply serve_never_loads.
Qed.

(** What loading leaves in the global is what the library answered. *)
Lemma ensure_loaded_answer inputs w h g :
  py_truthy (g_model g) = false ->
  out (ensure_loaded inputs w h g) = Val tt ->
  exists c n,
    fn c = "LlamaForCausalLM.from_pretrained"
    /\ w c n = Gives (g_model (glob (ensure_loaded inputs w h g))).
Proof.
  intros Hf H. unfold ensure_loaded, load_model, ext in *.
  rewrite (bind_pure get_model _ w h g (g_model g) g eq_refl) in *.
  rewrite Hf in *. change (negb false) with true in *. cbv iota in *.
  next_val H props H1.
  destruct (method_val H1) as (_ & _ & E & K). rewrite ?E, ?K in *. clear H1 E K.
  next_val H model_id H2.
  destruct (py_get_val H2) as (items & -> & -> & E & K). rewrite ?E, ?K in *.
  clear H2 E K.
  next_val H loaded H3.
  next_val H3 model L1.
  destruct (invoke_val L1) as (Hw & E & K). rewrite ?E, ?K in *. clear L1 E K.
  next_val H3 tokenizer L2.
  destruct (invoke_val L2) as (_ & E & K). rewrite ?E, ?K in *. clear L2 E K.
  next_val H3 pad L3. next_val H3 x L4. next_val H3 y L5.
  simpl in H3. inversion H3; subst loaded. clear H3.
  eexists _, _. split; [|exact Hw]. reflexivity.
Qed.

Lemma handle_leaves_model_loaded inputs w h g a :
  loads_truthy w ->
  out (handle inputs w h g) = Val a ->
  py_truthy (g_model (glob (handle inputs w h g))) = true.
Proof.
  intros Hlib H. rewrite glob_handle.
  destruct (py_truthy (g_model g)) eqn:Ht.
  - now rewrite ensure_loaded_when_loaded.
  - unfold handle in H. destruct (bind_val H) as ([] & H1 & _).
    destruct (ensure_loaded_answer inputs w h g Ht H1) as (c & n & Hc & Hw).
    exact (Hlib c n _ Hc Hw).
Qed.

(** *** Registering an adapter *)

Lemma wraps_or_keeps_bind w {A B} (m : M A) (k : A -> M B) :
  Keeps w m -> (forall a, WrapsOrKeeps w (k a)) -> WrapsOrKeeps w (bind m k).
Proof.
  intros Hm Hk h g. unfold bind. specialize (Hm h g).
  destruct (out (m w h g)) as [a | e |]; simpl; [|now left..].
  specialize (Hk a (h ++ emitted (m w h g))%list (glob (m w h g))).
  rewrite Hm in *. exact Hk.
Qed.

Lemma register_adapter_assigns w inputs : WrapsOrKeeps w (register_adapter inputs).
Proof.
  unfold register_adapter.
  apply wraps_or_keeps_bind; [apply keeps_method | intros name].
  apply wraps_or_keeps_bind; [apply keeps_method | intros src].
  apply wraps_or_keeps_bind; [apply keeps_invoke | intros logged].
  intros h g. rewrite (bind_pure get_model _ w h g (g_model g) g eq_refl).
  destruct (py_isinstance (g_model g) "PeftModel").
  - left.
    match goal with |- glob (?m w h g) = g =>
      assert (Hk : Keeps w m) by keep_walk; apply Hk end.
  - unfold ext, bind, invoke, set_model, ret. simpl.
    destruct (w _ _) as [wrapped | e]; simpl; [right | now left].
    split; [reflexivity|]. split; [now exists PNone | now exists wrapped].
Qed.

(** X3: [register_adapter] never touches the tokenizer, and assigns the
    global model only when that is not a PeftModel yet and the call returns:
    a registration that raises, and any registration on a PeftModel, leave
    the globals as they were. *)
Theorem register_adapter_assigns_the_model_only_to_wrap_it
    (inputs : pyval) (w : World) (h : list event) (g : globals) :
  let r := register_adapter inputs w h g in
  g_tokenizer (glob r) = g_tokenizer g
  /\ (py_isinstance (g_model g) "PeftModel" = true -> glob r = g)
  /\ ((forall a, out r <> Val a) -> glob r = g).
Proof.
  cbv zeta.
  destruct (register_adapter_assigns w inputs h g)
    as [Hg | (Hi & [a Ha] & [wrapped Hg])]; rewrite Hg.
  - repeat split.
  - split; [reflexivity|]. split.
    + intros Ht. rewrite Ht in Hi. discriminate Hi.
    + intros Hn. now contradiction (Hn a).
Qed.

(** ** Requests the handler rejects *)

Lemma bind_raises {A B} (m : M A) (k : A -> M B) w h g e g' l :
  m w h g = Ran (Exc e) g' l -> bind m k w h g = Ran (Exc e) g' l.
Proof. intros H. unfold bind. now rewrite H. Qed.

(** X4: once the model is loaded, a request whose [parameters] is not an
    object, or names [instruction] or [adapters], makes [handle] raise a
    TypeError right after it has read the request: neither the tokenizer nor
    the model is called, and the globals are kept. *)
Theorem parameters_that_cannot_be_bound_are_rejected
    (inputs e : pyval) (request : list (string * pyval))
    (w : World) (h : list event) (g : globals) :
  py_truthy (g_model g) = true ->
  inputs <> PNone ->
  w (is_empty_call inputs) (occurrences "inputs.is_empty" h) = Gives e ->
  py_truthy e = false ->
  w (get_as_json_call inputs) (occurrences "inputs.get_as_json" h) = Gives (PDict request) ->
  rejected_parameters (request_field request "parameters" (PDict [])) = true ->
  exists msg,
    handle inputs w h g = Ran (Exc (TypeError msg)) g (asked inputs e (PDict request)).
Proof.
  intros Hl Hn He Ht Hj Hp. rewrite (handle_when_loaded inputs w h g Hl).
  rewrite (serve_request inputs w h g e request Hn He Ht Hj).
  destruct (request_field request "parameters" (PDict [])) as [| | | | | | kw | |];
    try (eexists; reflexivity).
  simpl in Hp. eexists. unfold after, bind, evaluate_kwargs. rewrite Hp. reflexivity.
Qed.

(** X5: once the model is loaded, a request without [inputs], or whose
    [inputs] is null, a number or a boolean, makes [handle] raise the
    TypeError of iterating over it, right after it has read the request:
    neither the tokenizer nor the model is called. *)
Theorem request_without_iterable_inputs_is_rejected
    (inputs e : pyval) (request : list (string * pyval))
    (w : World) (h : list event) (g : globals) :
  py_truthy (g_model g) = true ->
  inputs <> PNone ->
  w (is_empty_call inputs) (occurrences "inputs.is_empty" h) = Gives e ->
  py_truthy e = false ->
  w (get_as_json_call inputs) (occurrences "inputs.get_as_json" h) = Gives (PDict request) ->
  rejected_parameters (request_field request "parameters" (PDict [])) = false ->
  py_iter (request_field request "inputs" PNone) = None ->
  handle inputs w h g
  = Ran (Exc (TypeError "object is not iterable")) g (asked inputs e (PDict request)).
Proof.
  intros Hl Hn He Ht Hj Hp Hi. rewrite (handle_when_loaded inputs w h g Hl).
  rewrite (serve_request inputs w h g e request Hn He Ht Hj).
  destruct (request_field request "parameters" (PDict [])) as [| | | | | | kw | |];
    try discriminate Hp.
  simpl in Hp. unfold evaluate_kwargs. rewrite Hp. unfold evaluate.
  rewrite bind_raises with (e := TypeError "object is not iterable") (g' := g) (l := []);
    [reflexivity|].
  apply bind_raises. unfold build_prompts. now rewrite Hi.
Qed.

(** X6: once the model is loaded, a request body that decodes to anything
    but a JSON object makes [handle] raise an AttributeError at its first
    [.get], right after it has read the request. *)
Theorem request_that_is_no_object_is_rejected
    (inputs e body : pyval) (w : World) (h : list event) (g : globals) :
  py_truthy (g_model g) = true ->
  inputs <> PNone ->
  w (is_empty_call inputs) (occurrences "inputs.is_empty" h) = Gives e ->
  py_truthy e = false ->
  w (get_as_json_call inputs) (occurrences "inputs.get_as_json" h) = Gives body ->
  json_non_object body = true ->
  handle inputs w h g
  = Ran (Exc (AttributeError "object has no attribute 'get'")) g (asked inputs e body).
Proof.
  intros Hl Hn He Ht Hj Hb. rewrite (handle_when_loaded inputs w h g Hl).
  unfold serve. rewrite !(method_not_none _ _ _ _ Hn). unfold ext.
  rewrite (bind_invoke_gives _ _ _ _ _ _ He). rewrite Ht.
  rewrite bind_invoke_gives with (v := body).
  2:{ rewrite occurrences_app. unfold occurrences at 2. simpl.
      rewrite Nat.add_0_r. exact Hj. }
  rewrite after_after.
  destruct body; try discriminate Hb; reflexivity.
Qed.

(** ** Generation settings *)

Ltac greedy_side :=
  unfold greedy_generation; simpl;
  refine (conj _ (conj _ _)); intros ?;
  first [discriminate | reflexivity | split; reflexivity].

(** X7: whatever the request says, generation is greedy: every
    [GenerationConfig] that [handle] builds is [num_beams=1, do_sample=False],
    [model.generate] is only ever given the input ids, the attention mask,
    the adapters, that configuration and the token budget, and the output
    is always decoded without special tokens. *)
Theorem generation_is_greedy_whatever_the_request (w : World) (inputs : pyval) :
  Holds (all_calls greedy_generation) w (handle inputs).
Proof. walk greedy_side. Qed.

(** ** The [torch.no_grad()] context *)

Lemma entered_app l1 l2 : entered (l1 ++ l2) = entered l1 + entered l2.
Proof. unfold entered. now rewrite filter_app, length_app. Qed.

#[local] Instance contexts_left_closed : Closed contexts_left outside_context.
Proof.
  unfold contexts_left. split; try reflexivity.
  - intros c r [He Hx]. apply String.eqb_neq in He, Hx.
    unfold entered, occurrences. simpl. now rewrite He, Hx.
  - intros A B a e1 o e2 H1 H2. rewrite entered_app, occurrences_app. lia.
  - intros A B e l H. exact H.
  - intros A B l H. exact H.
Qed.

Lemma contexts_left_with_ctx w {A} cm (body : M A) :
  Holds contexts_left w body -> (forall h g, out (body w h g) <> Fuel) ->
  Holds contexts_left w (with_ctx cm body).
Proof.
  intros Hb Hf h g. unfold with_ctx, ext, invoke. simpl.
  destruct (w _ _) as [v | e]; simpl; [|reflexivity].
  specialize (Hb (h ++ [(Call "__enter__" [cm] [], Gives v)])%list g).
  specialize (Hf (h ++ [(Call "__enter__" [cm] [], Gives v)])%list g).
  unfold contexts_left in *.
  destruct (out (body _ _ _)); simpl; try (now contradiction Hf);
    change (?x :: ?l ++ ?l')%list with ([x] ++ l ++ l')%list;
    rewrite !entered_app, !occurrences_app, Hb;
    set (n := occurrences "__exit__" (emitted _)); clearbody n;
    unfold entered, occurrences; simpl; lia.
Qed.

Ltac outside := simpl; split; discriminate.

Lemma evaluate_leaves_no_grad w i a x n : Holds contexts_left w (evaluate i a x n).
Proof.
  unfold evaluate.
  repeat (apply holds_bind; [walk outside | intros ?]).
  apply holds_bind; [|intros ?; walk outside].
  apply contexts_left_with_ctx; [walk outside|].
  intros h g. apply bind_no_fuel; [discriminate | intros m _; apply method_no_fuel].
Qed.

(** X8: [evaluate], and so [handle], leaves the [torch.no_grad()] context on
    every path: in every run, also one that [model.generate] ends with an
    exception, there are as many [__exit__] calls as contexts entered. *)
Theorem no_grad_is_left_however_generation_ends (w : World) :
  (forall i a x n, Holds contexts_left w (evaluate i a x n))
  /\ (forall inputs, Holds contexts_left w (handle inputs)).
Proof.
  pose proof (evaluate_leaves_no_grad w) as He.
  split; [exact He|]. intros inputs. walk outside.
Qed.

(** ** Loading the base model *)

(** X9: a [load_model] that returns has asked for the model and the
    tokenizer of the same id, read the tokenizer's pad token, set it to
    '[PAD]' exactly when it was falsy, logged, and returns the two objects
    the library answered; it assigns no global. *)
Theorem load_model_pads_a_tokenizer_without_pad_token
    (model_id : pyval) (w : World) (h : list event) (g : globals)
    (loaded : pyval * pyval) :
  out (load_model model_id w h g) = Val loaded ->
  exists pad set logged,
    emitted (load_model model_id w h g)
    = loading_trace model_id (fst loaded) (snd loaded) pad set logged
    /\ glob (load_model model_id w h g) = g.
Proof.
  intros H. unfold load_model, ext in *.
  next_val H model L1.
  destruct (invoke_val L1) as (_ & E & K). rewrite ?E, ?K in *. clear L1 E K.
  next_val H tokenizer L2.
  destruct (invoke_val L2) as (_ & E & K). rewrite ?E, ?K in *. clear L2 E K.
  next_val H pad L3.
  destruct (method_val L3) as (_ & _ & E & K). rewrite ?E, ?K in *. clear L3 E K.
  next_val H x L4. next_val H logged L5.
  destruct (invoke_val L5) as (_ & E & K). rewrite ?E, ?K in *. clear L5 E K.
  simpl in H. inversion H; subst loaded. clear H. simpl fst. simpl snd.
  unfold loading_trace.
  destruct (py_truthy pad) eqn:Ep.
  - change (negb true) with false in *. cbv iota in *.
    exists pad, PNone, logged. rewrite Ep. split; reflexivity.
  - change (negb false) with true in *. cbv iota in *.
    destruct (method_val L4) as (_ & _ & E & K). rewrite ?E, ?K in *.
    exists pad, x, logged. rewrite Ep. split; reflexivity.
Qed.

(** ** The readiness wait, continued *)

Lemma bind_ext {A B} (m : M A) (k k' : A -> M B) w h g :
  (forall a h' g', k' a w h' g' = k a w h' g') -> bind m k' w h g = bind m k w h g.
Proof. intros H. unfold bind. destruct (out (m w h g)); simpl; now rewrite ?H. Qed.

(** A loop that starts from another status than "Creating" does nothing. *)
Lemma poll_while_creating_stops fuel sm_client endpoint_name resp status :
  py_eq_str status "Creating" = false ->
  poll_while_creating fuel sm_client endpoint_name resp status = ret (resp, status).
Proof. intros H. destruct fuel; simpl; now rewrite H. Qed.

Lemma subscript_quiet f v key w h g :
  f <> "__getitem__" -> occurrences f (emitted (subscript v key w h g)) = 0.
Proof.
  intros Hf. apply occurrences_none.
  assert (H : Holds (all_calls (fun c => fn c <> f)) w (subscript v key)).
  { apply holds_subscript. intros x y. simpl. congruence. }
  apply H.
Qed.

Lemma subscript_dict d k x w h g :
  dict_lookup k d = Some x -> subscript (PDict d) (PStr k) w h g = Ran (Val x) g [].
Proof. intros H. unfold subscript. now rewrite H. Qed.

Lemma subscript_missing d k w h g :
  dict_lookup k d = None -> subscript (PDict d) (PStr k) w h g = Ran (Exc (KeyError k)) g [].
Proof. intros H. unfold subscript. now rewrite H. Qed.

Lemma wait_skips_the_loop sm_client endpoint_name fuel w h g d s :
  sm_client <> PNone ->
  w (describe_call sm_client endpoint_name) (occurrences "sm_client.describe_endpoint" h)
  = Gives (PDict d) ->
  dict_lookup "EndpointStatus" d = Some (PStr s) ->
  s <> "Creating" ->
  wait_for_endpoint fuel sm_client endpoint_name w h g
  = after [(describe_call sm_client endpoint_name, Gives (PDict d))]
      ((print (PStr ("Status: " ++ s)) ;;;
        arn <- subscript (PDict d) (PStr "EndpointArn") ;;
        arn_line <- str_concat "Arn: " arn ;;
        print (PStr arn_line) ;;;
        status_line <- str_concat "Status: " (PStr s) ;;
        print (PStr status_line))
         w (h ++ [(describe_call sm_client endpoint_name, Gives (PDict d))])%list g).
Proof.
  intros Hn Hw Hd Hs. unfold wait_for_endpoint.
  rewrite (method_not_none _ _ _ _ Hn). unfold ext at 1.
  rewrite (bind_invoke_gives _ _ _ _ _ _ Hw). f_equal.
  rewrite (bind_pure _ _ _ _ _ _ _ (subscript_dict d "EndpointStatus" (PStr s) w _ g Hd)).
  cbv beta.
  rewrite (bind_pure (str_concat "Status: " (PStr s)) _ w _ g ("Status: " ++ s) g eq_refl).
  cbv beta.
  apply bind_ext. intros printed h' g'.
  assert (Hstop : py_eq_str (PStr s) "Creating" = false)
    by (simpl; now apply String.eqb_neq).
  rewrite (poll_while_creating_stops fuel sm_client endpoint_name (PDict d) (PStr s) Hstop).
  now rewrite (bind_pure (ret (PDict d, PStr s)) _ w h' g' (PDict d, PStr s) g' eq_refl).
Qed.

Ltac neither_sleep_nor_describe := simpl; split; discriminate.

(** X10: when the first description already reports a status other than
    "Creating" ("InService", but "Failed" just as well), the wait does not
    sleep and describes the endpoint once, whatever bound the loop has:
    it goes on to print the Arn and the status. *)
Theorem wait_does_not_sleep_when_the_first_status_is_final
    (sm_client : pyval) (endpoint_name : string) (fuel : nat)
    (w : World) (h : list event) (g : globals)
    (d : list (string * pyval)) (s : string) :
  sm_client <> PNone ->
  w (describe_call sm_client endpoint_name) (occurrences "sm_client.describe_endpoint" h)
  = Gives (PDict d) ->
  dict_lookup "EndpointStatus" d = Some (PStr s) ->
  s <> "Creating" ->
  let r := wait_for_endpoint fuel sm_client endpoint_name w h g in
  occurrences "time.sleep" (emitted r) = 0
  /\ occurrences "sm_client.describe_endpoint" (emitted r) = 1
  /\ out r <> Fuel
  /\ (forall fuel', wait_for_endpoint fuel' sm_client endpoint_name w h g = r).
Proof.
  intros Hn Hw Hd Hs r.
  assert (Hany : forall fuel',
             wait_for_endpoint fuel' sm_client endpoint_name w h g
             = after [(describe_call sm_client endpoint_name, Gives (PDict d))]
                 ((print (PStr ("Status: " ++ s)) ;;;
                   arn <- subscript (PDict d) (PStr "EndpointArn") ;;
                   arn_line <- str_concat "Arn: " arn ;;
                   print (PStr arn_line) ;;;
                   status_line <- str_concat "Status: " (PStr s) ;;
                   print (PStr status_line))
                    w (h ++ [(describe_call sm_client endpoint_name, Gives (PDict d))])%list
                    g))
    by (intros fuel'; now apply wait_skips_the_loop).
  match type of Hany with
  | forall _, _ = after _ (?m _ ?h1 _) =>
      assert (Hq : Holds (all_calls (fun c => fn c <> "time.sleep"
                                              /\ fn c <> "sm_client.describe_endpoint"))
                     w m) by walk neither_sleep_nor_describe;
      specialize (Hq h1 g)
  end.
  unfold all_calls in Hq.
  unfold r. refine (conj _ (conj _ (conj _ _))).
  - rewrite Hany. unfold after. simpl emitted. rewrite occurrences_cons.
    rewrite (occurrences_none "time.sleep" (emitted _)).
    + reflexivity.
    + eapply Forall_impl; [|exact Hq]. now intros ev [H1 _].
  - rewrite Hany. unfold after. simpl emitted. rewrite occurrences_cons.
    rewrite (occurrences_none "sm_client.describe_endpoint" (emitted _)).
    + reflexivity.
    + eapply Forall_impl; [|exact Hq]. now intros ev [_ H2].
  - apply wait_for_endpoint_terminates. exists 0, s. repeat split; [lia | | exact Hs].
    rewrite Nat.add_0_r, Hw. simpl. now rewrite Hd.
  - intros fuel'. now rewrite !Hany.
Qed.

(** X11: a description without the key [EndpointStatus] ends the wait with
    the KeyError of the lookup, after that one call: nothing is printed and
    the loop is not entered. *)
Theorem wait_raises_key_error_without_a_status
    (sm_client : pyval) (endpoint_name : string) (fuel : nat)
    (w : World) (h : list event) (g : globals) (d : list (string * pyval)) :
  sm_client <> PNone ->
  w (describe_call sm_client endpoint_name) (occurrences "sm_client.describe_endpoint" h)
  = Gives (PDict d) ->
  dict_lookup "EndpointStatus" d = None ->
  wait_for_endpoint fuel sm_client endpoint_name w h g
  = Ran (Exc (KeyError "EndpointStatus")) g
      [(describe_call sm_client endpoint_name, Gives (PDict d))].
Proof.
  intros Hn Hw Hd. unfold wait_for_endpoint.
  rewrite (method_not_none _ _ _ _ Hn). unfold ext at 1.
  rewrite (bind_invoke_gives _ _ _ _ _ _ Hw).
  rewrite (bind_raises _ _ _ _ _ _ _ _
             (subscript_missing d "EndpointStatus" w _ g Hd)).
  reflexivity.
Qed.

(** *** Sleeps and polls *)

Lemma polling_sleeps_between_polls sm_client endpoint_name status l final first :
  polling sm_client endpoint_name status l final first ->
  occurrences "sm_client.describe_endpoint" l = occurrences "time.sleep" l.
Proof.
  induction 1 as [| status slept resp lookups status' printed rest final first
                    Hc Hr Hp IH]; [reflexivity|].
  rewrite !occurrences_cons. simpl.
  rewrite !occurrences_app, !occurrences_cons, IH. simpl.
  destruct Hr as [(d & _ & -> & _) | ->]; reflexivity.
Qed.

(** X12: a wait that returns has slept exactly once between two consecutive
    descriptions of the endpoint: after n + 1 descriptions it has slept n
    times, 60 seconds each. *)
Theorem wait_sleeps_once_between_polls
    (sm_client : pyval) (endpoint_name : string) (fuel : nat)
    (w : World) (h : list event) (g : globals) (a : pyval) :
  out (wait_for_endpoint fuel sm_client endpoint_name w h g) = Val a ->
  let l := emitted (wait_for_endpoint fuel sm_client endpoint_name w h g) in
  occurrences "sm_client.describe_endpoint" l = S (occurrences "time.sleep" l).
Proof.
  intros H l. unfold l. clear l. unfold wait_for_endpoint, print, ext in *.
  next_val H resp H1.
  destruct (method_val H1) as (_ & _ & E & K). rewrite ?E, ?K in *. clear H1 E K.
  next_val H status H2. next_val H line H3.
  destruct (str_concat_val H3) as (s & -> & -> & E & K). rewrite ?E, ?K in *.
  clear H3 E K.
  next_val H printed H4.
  destruct (invoke_val H4) as (_ & E & K). rewrite ?E, ?K in *. clear H4 E K.
  next_val H final H5. apply poll_while_creating_polls in H5.
  apply polling_sleeps_between_polls in H5.
  next_val H arn H6. next_val H arn_line H7.
  destruct (str_concat_val H7) as (s' & -> & -> & E & K). rewrite ?E, ?K in *.
  clear H7 E K.
  next_val H printed' H8.
  destruct (invoke_val H8) as (_ & E & K). rewrite ?E, ?K in *. clear H8 E K.
  next_val H status_line H9.
  destruct (str_concat_val H9) as (s'' & Es & -> & E & K). rewrite ?E, ?K in *.
  clear H9 E K.
  destruct (invoke_val H) as (_ & E & K). rewrite ?E, ?K in *. clear E K.
  rewrite !occurrences_app.
  rewrite !(subscript_quiet "time.sleep") by discriminate.
  rewrite !(subscript_quiet "sm_client.describe_endpoint") by discriminate.
  rewrite H5.
  set (n := occurrences "time.sleep" (emitted (poll_while_creating _ _ _ _ _ _ _ _))).
  clearbody n. unfold occurrences. simpl. lia.
Qed.

(** ** How the notebooks wire their resources *)

Lemma reaches_method_m_ret w (Q : call -> Prop) recv name {X} (m : M X)
    (f : X -> list pyval * list (string * pyval)) :
  (forall r x, Q (Call name (r :: fst (f x)) (snd (f x)))) ->
  Reaches w Q (method_m recv name (bind m (fun x => ret (f x)))).
Proof.
  intros HQ h g a H. unfold method_m, ext in *.
  destruct recv; try discriminate H;
    (destruct (bind_val H) as (xs & H1 & H2 & E & _); rewrite E;
     apply made_app_r;
     destruct (bind_val H1) as (x & _ & Hret & _);
     simpl in Hret; inversion Hret; subst xs;
     destruct (invoke_val H2) as (_ & E2 & _); rewrite E2;
     constructor; split; [apply HQ | now exists a]).
Qed.

Lemma invoke_cell_reaches w (Q : call -> Prop) smr_client endpoint_name payload :
  (forall r body,
      Q (Call "smr_client.invoke_endpoint" [r]
           [("EndpointName", PStr endpoint_name); ("Body", body);
            ("ContentType", PStr "application/json")])) ->
  Reaches w Q (invoke_cell smr_client endpoint_name payload).
Proof.
  intros HQ. unfold invoke_cell. apply reaches_bind_first.
  apply reaches_method_m_ret. intros r body. apply HQ.
Qed.

Ltac reach_to side :=
  cbv zeta;
  lazymatch goal with
  | |- Reaches _ _ (bind _ _) =>
      first [ apply reaches_bind_first; reach_to side
            | apply reaches_bind_later; intros ?; reach_to side ]
  | |- Reaches _ _ (invoke_cell _ _ _) => apply invoke_cell_reaches; intros; side
  | |- Reaches _ _ _ => reach side
  end.







(** ** Dict displays *)

Lemma dict_lookup_set k v d k' :
  dict_lookup k' (dict_set k v d) = if k =? k' then Some v else dict_lookup k' d.
Proof.
  induction d as [|[k0 v0] d IH]; simpl; [reflexivity|].
  destruct (k0 =? k) eqn:E0; simpl.
  - apply String.eqb_eq in E0. subst k0. now destruct (k =? k').
  - rewrite IH. destruct (k0 =? k') eqn:E1; [|reflexivity].
    apply String.eqb_eq in E1. subst k'.
    destruct (k =? k0) eqn:E2; [|reflexivity].
    apply String.eqb_eq in E2. subst k0. rewrite String.eqb_refl in E0. discriminate E0.
Qed.

Lemma dict_lookup_app k d1 d2 :
  dict_lookup k (d1 ++ d2)
  = match dict_lookup k d1 with Some v => Some v | None => dict_lookup k d2 end.
Proof.
  induction d1 as [|[k0 v0] d1 IH]; simpl; [reflexivity|].
  now destruct (k0 =? k).
Qed.

(** In a dict display the last value given for a key is the one stored. *)
Lemma dict_lookup_update k items :
  forall d,
    dict_lookup k (dict_update d items)
    = match dict_lookup k (rev items) with
      | Some v => Some v
      | None => dict_lookup k d
      end.
Proof.
  unfold dict_update. induction items as [|[k0 v0] items IH]; intros d; simpl;
    [reflexivity|].
  rewrite IH, dict_lookup_app, dict_lookup_set. simpl.
  destruct (dict_lookup k (rev items)); [reflexivity|].
  now destruct (k0 =? k).
Qed.

Lemma dict_keys_set k v d : exists extra, dict_keys (dict_set k v d) = (dict_keys d ++ extra)%list.
Proof.
  unfold dict_keys. induction d as [|[k0 v0] d [extra IH]]; simpl.
  - now exists [k].
  - destruct (k0 =? k); simpl.
    + exists []. now rewrite app_nil_r.
    + exists extra. now rewrite IH.
Qed.

Lemma dict_keys_update items :
  forall d, exists extra, dict_keys (dict_update d items) = (dict_keys d ++ extra)%list.
Proof.
  unfold dict_update. induction items as [|[k0 v0] items IH]; intros d; simpl.
  - exists []. now rewrite app_nil_r.
  - destruct (IH (dict_set k0 v0 d)) as [extra1 E1].
    destruct (dict_keys_set k0 v0 d) as [extra2 E2].
    exists (extra2 ++ extra1)%list. simpl in *. now rewrite E1, E2, app_assoc.
Qed.

(** X15: the body of a chat request, [{"messages": messages, **parameters}],
    is a dict whose first key is "messages" and in which every key holds the
    last value [parameters] gives it; "messages" holds the messages unless
    [parameters] has a value for that key too, which then replaces them. *)
Theorem chat_payload_lets_parameters_override
    (messages : list pyval) (parameters : list (string * pyval)) :
  exists body,
    chat_payload messages parameters = PDict body
    /\ (forall k,
          dict_lookup k body
          = match dict_lookup k (rev parameters) with
            | Some v => Some v
            | None => if "messages" =? k then Some (PList messages) else None
            end)
    /\ exists others, dict_keys body = "messages" :: others.
Proof.
  unfold chat_payload. eexists. split; [reflexivity|]. split.
  - intros k. now rewrite dict_lookup_update.
  - destruct (dict_keys_update parameters [("messages", PList messages)]) as [extra E].
    exists extra. exact E.
Qed.

(** ** The function-calling notebook *)

Lemma occurrences_snoc_other f h (ev : event) :
  fn (fst ev) <> f -> occurrences f (h ++ [ev]) = occurrences f h.
Proof.
  intros Hne. rewrite occurrences_app. unfold occurrences at 2. simpl.
  apply String.eqb_neq in Hne. rewrite Hne. simpl. lia.
Qed.

(** X16: the execution role is the one [get_execution_role] returns, and no
    IAM call is made, when that call returns; an exception of it that is no
    ValueError ends the cell; after a ValueError the role is the Arn of the
    IAM role [sagemaker_execution_role], looked up with one
    [boto3.client('iam')] and one [get_role]. *)
Theorem the_role_is_looked_up_in_iam_only_after_a_value_error
    (w : World) (h : list event) (g : globals) :
  let answer := w role_call (occurrences "sagemaker.get_execution_role" h) in
  (forall v, answer = Gives v -> resolve_role w h g = Ran (Val v) g [(role_call, Gives v)])
  /\ (forall e,
        answer = Throws e -> exn_isinstance e "ValueError" = false ->
        resolve_role w h g = Ran (Exc e) g [(role_call, Throws e)])
  /\ (forall e iam found role arn,
        answer = Throws e -> exn_isinstance e "ValueError" = true ->
        w iam_client_call (occurrences "boto3.client" h) = Gives iam ->
        iam <> PNone ->
        w (get_role_call iam) (occurrences "iam.get_role" h) = Gives (PDict found) ->
        dict_lookup "Role" found = Some (PDict role) ->
        dict_lookup "Arn" role = Some arn ->
        resolve_role w h g
        = Ran (Val arn) g
            [(role_call, Throws e); (iam_client_call, Gives iam);
             (get_role_call iam, Gives (PDict found))]).
Proof.
  cbv zeta. refine (conj _ (conj _ _)).
  - intros v Hw. unfold resolve_role, try_except, invoke. simpl. now rewrite Hw.
  - intros e Hw He. unfold resolve_role, try_except, invoke. simpl. rewrite Hw. simpl.
    now rewrite He.
  - intros e iam found role arn Hw He Hiam Hn Hrole Hfound Harn.
    rewrite (resolve_role_catches w h g e Hw He). cbv zeta.
    unfold role_from_iam, ext.
    rewrite (bind_invoke_gives iam_client_call _ w _ g iam)
      by (simpl fn; rewrite occurrences_snoc_other by (simpl; discriminate); exact Hiam).
    rewrite (method_not_none _ _ _ _ Hn). unfold ext.
    rewrite (bind_invoke_gives (get_role_call iam) _ w _ g (PDict found))
      by (simpl fn; rewrite !occurrences_snoc_other by (simpl; discriminate); exact Hrole).
    rewrite (bind_pure _ _ _ _ _ _ _ (subscript_dict found "Role" (PDict role) w _ g Hfound)).
    cbv beta. rewrite (subscript_dict role "Arn" arn w _ g Harn).
    reflexivity.
Qed.

(** X17: a reply of [llm.predict] without the key "choices" ends the cell
    with the KeyError of that lookup, and one whose "choices" is the empty
    list with the IndexError of [choices[0]]; in both cases nothing is printed. *)
Theorem predict_cell_needs_a_first_choice
    (llm payload : pyval) (chat : list (string * pyval))
    (w : World) (h : list event) (g : globals) :
  llm <> PNone ->
  w (predict_call llm payload) (occurrences "llm.predict" h) = Gives (PDict chat) ->
  (dict_lookup "choices" chat = None ->
   predict_cell llm payload w h g
   = Ran (Exc (KeyError "choices")) g [(predict_call llm payload, Gives (PDict chat))])
  /\ (dict_lookup "choices" chat = Some (PList []) ->
      predict_cell llm payload w h g
      = Ran (Exc (IndexError "list index out of range")) g
          [(predict_call llm payload, Gives (PDict chat))]).
Proof.
  intros Hn Hw. unfold predict_cell. rewrite (method_not_none _ _ _ _ Hn). unfold ext.
  rewrite (bind_invoke_gives (predict_call llm payload) _ w h g (PDict chat) Hw).
  split; intros Hc.
  - rewrite (bind_raises _ _ _ _ _ _ _ _ (subscript_missing chat "choices" w _ g Hc)).
    reflexivity.
  - rewrite (bind_pure _ _ _ _ _ _ _ (subscript_dict chat "choices" (PList []) w _ g Hc)).
    cbv beta.
    rewrite bind_raises with (e := IndexError "list index out of range") (g' := g) (l := [])
      by reflexivity.
    reflexivity.
Qed.

(** ** Prompts, continued *)

Lemma chars_map s :
  chars s = map (fun c => PStr (String c EmptyString)) (list_ascii_of_string s).
Proof. induction s as [|c s IH]; simpl; [reflexivity | now rewrite IH]. Qed.

(** X18: [evaluate] iterates over whatever [inputs] is: a request whose
    [inputs] is one string of ASCII text, not a list, gets one prompt per
    character of it; one whose [inputs] is an object gets one prompt per
    key. *)
Theorem inputs_that_are_no_list_are_iterated_all_the_same
    (input : pyval) (w : World) (h : list event) (g : globals) :
  (forall s,
      ascii_text s = true ->
      build_prompts (PStr s) input w h g
      = Ran (Val (map (fun c => generate_prompt (PStr (String c EmptyString)) input)
                    (list_ascii_of_string s))) g [])
  /\ (forall d,
        build_prompts (PDict d) input w h g
        = Ran (Val (map (fun kv => generate_prompt (PStr (fst kv)) input) d)) g []).
Proof.
  split.
  - intros s _. unfold build_prompts, ret. simpl.
    now rewrite fold_left_snoc_map, chars_map, map_map.
  - intros d. unfold build_prompts, ret. simpl.
    now rewrite fold_left_snoc_map, map_map.
Qed.

Lemma append_assoc (a b c : string) : (a ++ b) ++ c = a ++ b ++ c.
Proof. induction a as [|x a IH]; simpl; [reflexivity | now rewrite IH]. Qed.

Lemma append_length (a b : string) : String.length (a ++ b) = String.length a + String.length b.
Proof. induction a as [|x a IH]; simpl; [reflexivity | now rewrite IH]. Qed.

Lemma append_inv_head (p a b : string) : p ++ a = p ++ b -> a = b.
Proof. induction p as [|x p IH]; simpl; intros H; [exact H | inversion H; auto]. Qed.

Lemma append_inv_tail (s : string) : forall a b : string, a ++ s = b ++ s -> a = b.
Proof.
  induction a as [|x a IH]; intros [|y b] H; simpl in H.
  - reflexivity.
  - apply (f_equal String.length) in H. simpl in H. rewrite append_length in H. lia.
  - apply (f_equal String.length) in H. simpl in H. rewrite append_length in H. lia.
  - inversion H. f_equal. now apply IH.
Qed.

(** X19: for a given input, the prompt determines the text of the
    instruction: two instructions that give the same prompt are written the
    same. *)
Theorem the_prompt_determines_the_instruction (i i' input : pyval) :
  generate_prompt i input = generate_prompt i' input -> py_format i = py_format i'.
Proof.
  unfold generate_prompt. destruct (py_truthy input); intros H;
    apply append_inv_head in H; apply append_inv_tail in H; exact H.
Qed.

(** X20: the template does not escape its markers: an instruction that
    contains [" ### Input: "] gives the very prompt of the instruction
    before the marker with the rest passed as the input. *)
Theorem markers_in_an_instruction_are_not_escaped (a b c : string) :
  c <> "" ->
  generate_prompt (PStr (a ++ " ### Input: " ++ b)) (PStr c)
  = generate_prompt (PStr a) (PStr (b ++ " ### Input: " ++ c)).
Proof.
  intros Hc. unfold generate_prompt.
  assert (H1 : py_truthy (PStr c) = true)
    by (simpl; apply negb_true_iff, String.eqb_neq; exact Hc).
  assert (H2 : py_truthy (PStr (b ++ " ### Input: " ++ c)) = true)
    by (destruct b; reflexivity).
  rewrite H1, H2. simpl py_format.
  now rewrite !append_assoc.
Qed.

(** ** Registering before the first request *)

Lemma instance_is_truthy v c : py_isinstance v c = true -> py_truthy v = true.
Proof. destruct v; simpl; intros H; try discriminate H; reflexivity. Qed.

(** X21: [register_adapter] does not load the base model.  On a container
    that has served no request yet it wraps the unloaded model in a
    PeftModel and leaves the tokenizer unset; as the wrapped model is
    truthy, every later [handle] skips loading, and every [evaluate] fails
    with the TypeError of calling the tokenizer [None], before any library
    call. *)
Theorem registering_before_the_first_request_leaves_no_tokenizer
    (inputs x : pyval) (w : World) (h : list event) (g : globals) :
  py_truthy (g_model g) = false ->
  g_tokenizer g = PNone ->
  from_pretrained_wraps w ->
  out (register_adapter inputs w h g) = Val x ->
  let g' := glob (register_adapter inputs w h g) in
  made (fun c => fn c = "PeftModel.from_pretrained" /\ hd_error (args c) = Some (g_model g))
    (emitted (register_adapter inputs w h g))
  /\ g_tokenizer g' = PNone
  /\ (forall inputs' h', ensure_loaded inputs' w h' g' = Ran (Val tt) g' [])
  /\ (forall instructions adapters input max_new_tokens h',
        evaluate (PList instructions) adapters input max_new_tokens w h' g'
        = Ran (Exc (TypeError "'NoneType' object is not callable")) g' []).
Proof.
  intros Hf Htok Hlib H g'.
  assert (Hi : py_isinstance (g_model g) "PeftModel" = false).
  { destruct (py_isinstance (g_model g) "PeftModel") eqn:E; [|reflexivity].
    apply instance_is_truthy in E. congruence. }
  destruct (register_adapter_val inputs w h g x H)
    as (name & src & logged & reply & E & G & Hw).
  rewrite Hi in E, G. destruct (Hw Hi) as [n Hn].
  assert (Hp : py_isinstance reply "PeftModel" = true)
    by (eapply Hlib; [|exact Hn]; reflexivity).
  assert (Hg' : g' = Globals reply PNone) by (unfold g'; now rewrite G, Htok).
  rewrite Hg'. refine (conj _ (conj eq_refl (conj _ _))).
  - rewrite E. unfold made.
    do 3 apply Exists_cons_tl. apply Exists_cons_hd. simpl.
    split; [split; reflexivity | now exists reply].
  - intros inputs' h'. apply ensure_loaded_when_loaded. simpl.
    now apply instance_is_truthy in Hp.
  - intros instructions adapters input max_new_tokens h'. unfold evaluate.
    rewrite (bind_pure _ _ _ _ _ _ _ (build_prompts_list instructions input w h' _)).
    rewrite (bind_pure get_tokenizer _ w h' (Globals reply PNone) PNone
               (Globals reply PNone) eq_refl).
    apply bind_raises. reflexivity.
Qed.

(** ** Cleaning up *)

Lemma deleted_app l1 l2 : deleted (l1 ++ l2) = (deleted l1 ++ deleted l2)%list.
Proof. unfold deleted. apply flat_map_app. Qed.

Lemma answered_app l1 l2 : answered (l1 ++ l2) = answered l1 + answered l2.
Proof. unfold answered. now rewrite filter_app, length_app. Qed.

Lemma deleted_nothing (l : list event) :
  Forall (fun ev => deletes (fst ev) = []) l -> deleted l = [].
Proof.
  unfold deleted. induction 1 as [|ev l He _ IH]; simpl; [reflexivity|].
  rewrite IH, He. now destruct (snd ev).
Qed.

Lemma made_answered l : made (fun c => is_request c = true) l -> 1 <= answered l.
Proof.
  unfold made, answered. induction 1 as [ev l (Hq & v & Hv) | ev l _ IH]; simpl.
  - rewrite Hq, Hv. simpl. lia.
  - destruct (_ && _); simpl; lia.
Qed.

Lemma deletes_after_nothing w {A} (m : M A) : DeletesAfter w 0 m.
Proof. intros h g _. lia. Qed.

Lemma deletes_after_later w n {A B} (m : M A) (k : A -> M B) :
  Holds (all_calls (fun c => deletes c = [])) w m ->
  (forall a, DeletesAfter w n (k a)) ->
  DeletesAfter w n (bind m k).
Proof.
  intros Hm Hk h g. rewrite emitted_bind. specialize (Hm h g). unfold all_calls in Hm.
  apply deleted_nothing in Hm.
  destruct (out (m w h g)) as [a | e |]; try (intros H; now contradiction H).
  rewrite deleted_app, Hm, answered_app. simpl. intros H.
  apply Hk in H. lia.
Qed.

Lemma deletes_after_request w n {A B} (m : M A) (k : A -> M B) :
  Holds (all_calls (fun c => deletes c = [])) w m ->
  Reaches w (fun c => is_request c = true) m ->
  (forall a, DeletesAfter w n (k a)) ->
  DeletesAfter w (S n) (bind m k).
Proof.
  intros Hm Hr Hk h g. rewrite emitted_bind. specialize (Hm h g). unfold all_calls in Hm.
  apply deleted_nothing in Hm.
  destruct (out (m w h g)) as [a | e |] eqn:Ho; try (intros H; now contradiction H).
  rewrite deleted_app, Hm, answered_app. simpl. intros H.
  apply Hk in H. apply Hr, made_answered in Ho. lia.
Qed.

Ltac deletes_nothing := reflexivity.

Ltac request_made := reflexivity.

(** [clean_up_walk] follows a notebook up to its last inference cell. *)
Ltac clean_up_walk :=
  cbv zeta;
  lazymatch goal with
  | |- DeletesAfter _ 0 _ => apply deletes_after_nothing
  | |- DeletesAfter _ (S _) (bind _ _) =>
      first [ apply deletes_after_request;
              [walk deletes_nothing | reach_to request_made | intros ?; clean_up_walk]
            | apply deletes_after_later; [walk deletes_nothing | intros ?; clean_up_walk] ]
  | |- DeletesAfter _ _ (match ?x with _ => _ end) => destruct x; clean_up_walk
  | |- DeletesAfter _ _ ?m => let f := head_of m in unfold f; clean_up_walk
  end.

(** X22: in no run of a notebook, also one that raises, is a resource
    deleted before every inference cell of the notebook got its answer: a
    run that fails while creating, waiting or requesting deletes nothing,
    and leaves what it created behind. *)
Theorem nothing_is_deleted_before_the_requests_are_answered
    (nb : notebook) (fuel : nat) (w : World) (h : list event) (g : globals) :
  let l := emitted (script nb fuel w h g) in
  deleted l <> [] -> requests nb <= answered l.
Proof.
  cbv zeta.
  assert (Hwait : forall c name,
             Holds (all_calls (fun c => deletes c = [])) w (wait_for_endpoint fuel c name))
    by (intros; apply holds_wait_for_endpoint; intros; reflexivity).
  assert (H : DeletesAfter w (requests nb) (script nb fuel));
    [|exact (H h g)].
  destruct nb; simpl; clean_up_walk.
Qed.

(** ** What [evaluate] returns *)

Lemma ends_with_app l1 l2 last : ends_with l2 last -> ends_with (l1 ++ l2) last.
Proof. intros [before ->]. exists (l1 ++ before)%list. now rewrite app_assoc. Qed.

Lemma with_ctx_val {A} cm (body : M A) w h g v :
  out (with_ctx cm body w h g) = Val v ->
  exists entered_as left_as,
    let h1 := (h ++ [(Call "__enter__" [cm] [], Gives entered_as)])%list in
    out (body w h1 g) = Val v
    /\ emitted (with_ctx cm body w h g)
       = ((Call "__enter__" [cm] [], Gives entered_as)
            :: emitted (body w h1 g) ++ [(Call "__exit__" [cm] [], Gives left_as)])%list
    /\ glob (with_ctx cm body w h g) = glob (body w h1 g).
Proof.
  unfold with_ctx, ext, invoke. simpl.
  destruct (w (Call "__enter__" [cm] []) _) as [v0 | e] eqn:E0; simpl;
    [|intros H; discriminate H].
  destruct (out (body w _ g)) as [b | e |] eqn:Eb; simpl;
    try (destruct (w (Call "__exit__" [cm] []) _); intros H; discriminate H);
    try (intros H; discriminate H).
  destruct (w (Call "__exit__" [cm] []) _) as [v1 | e] eqn:E1; simpl;
    intros H; inversion H; subst.
  exists v0, v1. cbv zeta. rewrite Eb. repeat split.
Qed.

(** [settle H1]: the step that returned by [H1] has kept the globals. *)
Ltac settle H1 :=
  match type of H1 with
  | out (?m ?w ?h ?g) = _ =>
      let K := fresh "K" in
      assert (K : Keeps w m) by keep_walk; rewrite ?(K h g) in *; clear K
  end.

(** [step_val H x H1]: as [next_val], for a step that keeps the globals; the
    calls made so far are forgotten. *)
Ltac step_val H x H1 :=
  next_val H x H1; settle H1;
  match type of H with
  | out (_ _ ?past _) = _ =>
      let h' := fresh "h" in set (h' := past) in *; clearbody h'
  end.

Lemma ends_with_snoc l last more :
  ends_with l last -> ends_with (l ++ more) (last ++ more).
Proof. intros [before ->]. exists before. now rewrite app_assoc. Qed.

Lemma ends_with_drop l ev last : ends_with l (ev :: last) -> ends_with l last.
Proof.
  intros [before ->]. exists (before ++ [ev])%list. now rewrite <- app_assoc.
Qed.

(** X23: what an [evaluate] that returns hands back is the answer of
    [tokenizer.batch_decode], called on the global tokenizer with what
    [model.generate] returned; [model.generate] was called on the global
    model with the request's adapters and token budget, and the
    [torch.no_grad()] context was left in between.  What the rest of
    [handle] returns is None after the one question on an empty input, and
    otherwise the answer of [Output().add_as_json] on those decoded
    outputs, which are the last three calls it makes. *)
Theorem the_response_is_the_decoded_generation (w : World) :
  (forall instruction adapters input max_new_tokens result h g,
      out (evaluate instruction adapters input max_new_tokens w h g) = Val result ->
      exists kw cm generated left_as,
        ends_with (emitted (evaluate instruction adapters input max_new_tokens w h g))
          [(Call "model.generate" [g_model g] kw, Gives generated);
           (Call "__exit__" [cm] [], Gives left_as);
           (Call "tokenizer.batch_decode" [g_tokenizer g; generated]
              [("skip_special_tokens", PBool true)], Gives result)]
        /\ dict_lookup "adapters" kw = Some adapters
        /\ dict_lookup "max_new_tokens" kw = Some max_new_tokens)
  /\ (forall inputs result h g,
        out (serve inputs w h g) = Val result ->
        (exists e,
            py_truthy e = true /\ result = PNone
            /\ emitted (serve inputs w h g) = [(is_empty_call inputs, Gives e)])
        \/ (exists generated outputs output,
              ends_with (emitted (serve inputs w h g))
                [(Call "tokenizer.batch_decode" [g_tokenizer g; generated]
                    [("skip_special_tokens", PBool true)], Gives outputs);
                 (Call "Output" [] [], Gives output);
                 (Call ".add_as_json" [output; outputs] [], Gives result)])).
Proof.
  assert (Hev : forall instruction adapters input max_new_tokens result h g,
             out (evaluate instruction adapters input max_new_tokens w h g) = Val result ->
             exists kw cm generated left_as,
               ends_with (emitted (evaluate instruction adapters input max_new_tokens w h g))
                 [(Call "model.generate" [g_model g] kw, Gives generated);
                  (Call "__exit__" [cm] [], Gives left_as);
                  (Call "tokenizer.batch_decode" [g_tokenizer g; generated]
                     [("skip_special_tokens", PBool true)], Gives result)]
               /\ dict_lookup "adapters" kw = Some adapters
               /\ dict_lookup "max_new_tokens" kw = Some max_new_tokens).
  { intros instruction adapters input max_new_tokens result h g H.
    unfold evaluate in *.
    step_val H prompts H1.
    step_val H tok H2.
    step_val H inputs H3.
    step_val H ids H4.
    step_val H input_ids H5.
    step_val H mask H6.
    step_val H attention_mask H7.
    step_val H generation_config H8.
    step_val H logged H9.
    step_val H cm H10.
    step_val H generation_output H11.
    step_val H tok' H12.
    simpl in H12. inversion H12. subst tok'. clear H12.
    destruct (method_val H) as (_ & _ & E & _). rewrite E. clear E H.
    destruct (with_ctx_val _ _ _ _ _ _ H11) as (entered_as & left_as & Hb & E & _).
    rewrite E. clear E H11. cbv zeta in Hb.
    destruct (bind_val Hb) as (m & Hm & Hgen & E & _). rewrite E. clear E Hb.
    simpl in Hm. inversion Hm. subst m. clear Hm.
    destruct (method_val Hgen) as (_ & _ & E & _). rewrite E. clear E Hgen.
    eexists _, cm, generation_output, left_as. split.
    - do 10 apply ends_with_app.
      exists [(Call "__enter__" [cm] [], Gives entered_as)]. reflexivity.
    - split; reflexivity. }
  split; [exact Hev|].
  intros inputs result h g H. unfold serve in *.
  next_val H empty H1. settle H1.
  destruct (method_val H1) as (_ & _ & E1 & _). rewrite E1 in H |- *. clear H1.
  destruct (py_truthy empty) eqn:Et.
  - left. exists empty. simpl in H. inversion H. now repeat split.
  - right.
    match type of H with
    | out (_ _ ?past _) = _ => set (h0 := past) in *; clearbody h0
    end.
    step_val H json_inputs H2.
    step_val H sentence H3.
    step_val H adapters H4.
    step_val H generation_kwargs H5.
    match type of H with
    | out (_ _ ?past _) = _ => rename past into h4
    end.
    step_val H outputs H6.
    unfold respond, ext in H |- *.
    next_val H output H7.
    destruct (invoke_val H7) as (_ & E7 & G7). rewrite E7, ?G7 in H |- *. clear H7.
    destruct (method_val H) as (_ & _ & E8 & _). rewrite E8. clear H E8.
    assert (Hd : exists generated,
               ends_with (emitted (evaluate_kwargs sentence adapters generation_kwargs
                                     w h4 g))
                 [(Call "tokenizer.batch_decode" [g_tokenizer g; generated]
                     [("skip_special_tokens", PBool true)], Gives outputs)]).
    { unfold evaluate_kwargs in *.
      destruct generation_kwargs as [| | | | | | kw | |]; try discriminate H6.
      destruct (has_key "instruction" kw || has_key "adapters" kw);
        [discriminate H6|].
      destruct (Hev _ _ _ _ _ _ _ H6) as (kw' & cm & generated & left_as & He & _).
      exists generated. now do 2 apply ends_with_drop in He. }
    destruct Hd as [generated Hd].
    exists generated, outputs, output.
    do 5 apply ends_with_app.
    exact (ends_with_snoc _ _
             [(Call "Output" [] [], Gives output);
              (Call ".add_as_json" [output; outputs] [], Gives result)] Hd).
Qed.

(** ** From the request to the calls *)

Lemma hd_error_bind {A B} (m : M A) (k : A -> M B) w h g ev :
  hd_error (emitted (m w h g)) = Some ev ->
  hd_error (emitted (bind m k w h g)) = Some ev.
Proof.
  intros H. destruct (emitted (m w h g)) as [|ev' rest] eqn:E; [discriminate H|].
  inversion H. subst ev'. now apply emitted_bind_hd with (rest := rest).
Qed.

(** X24: how a request reaches the libraries, once the model is loaded: the
    prompts given to the tokenizer are those of the request's [inputs], each
    with the [input] of its [parameters] (none when absent); every
    [model.generate] gets the request's [adapters] (the empty list when
    absent) and the [max_new_tokens] of its [parameters] (64 when absent);
    nothing else of the request is passed on. *)
Theorem a_request_reaches_the_tokenizer_and_the_model
    (inputs e : pyval) (request kw : list (string * pyval)) (instructions : list pyval)
    (w : World) (h : list event) (g : globals) :
  py_truthy (g_model g) = true ->
  g_tokenizer g <> PNone ->
  inputs <> PNone ->
  w (is_empty_call inputs) (occurrences "inputs.is_empty" h) = Gives e ->
  py_truthy e = false ->
  w (get_as_json_call inputs) (occurrences "inputs.get_as_json" h) = Gives (PDict request) ->
  request_field request "inputs" PNone = PList instructions ->
  request_field request "parameters" (PDict []) = PDict kw ->
  rejected_parameters (PDict kw) = false ->
  let l := emitted (handle inputs w h g) in
  let prompts :=
    map (fun inst => generate_prompt inst (request_field kw "input" PNone)) instructions in
  (exists r,
      nth_error l 2
      = Some (Call "tokenizer" [g_tokenizer g; PList (map PStr prompts)]
                [("return_tensors", PStr "pt"); ("padding", PBool true)], r))
  /\ Forall (fun ev => forwards (request_field request "adapters" (PList []))
                         (request_field kw "max_new_tokens" (PInt 64)) (fst ev)) l.
Proof.
  intros Hl Htok Hn He Ht Hj Hi Hp Hr l prompts. unfold l. clear l.
  rewrite (handle_when_loaded inputs w h g Hl).
  rewrite (serve_request inputs w h g e request Hn He Ht Hj). cbv zeta.
  rewrite Hi, Hp. unfold evaluate_kwargs. simpl in Hr. rewrite Hr.
  unfold after. simpl emitted. split.
  - eexists. simpl nth_error. apply hd_error_bind.
    apply (evaluate_feeds_tokenizer w instructions _ _ _ _ g Htok).
  - constructor; [intros H; discriminate H|].
    constructor; [intros H; discriminate H|].
    match goal with
    | |- Forall _ (emitted (?m w ?h' g)) =>
        assert (Hm : Holds (all_calls
                              (forwards (request_field request "adapters" (PList []))
                                 (request_field kw "max_new_tokens" (PInt 64)))) w m)
    end.
    { apply holds_bind; [apply evaluate_forwards | intros outputs].
      walk forwards_side. }
    apply Hm.
Qed.

(** ** Runs that do not run out of fuel *)

Section Termination.

Variable w : World.

Lemma terminates_ret {A} (a : A) : Terminates w (ret a).
Proof. intros h g. discriminate. Qed.

Lemma terminates_raise {A} (e : exn) : Terminates w (@raise A e).
Proof. intros h g. discriminate. Qed.

Lemma terminates_get_model : Terminates w get_model.
Proof. intros h g. discriminate. Qed.

Lemma terminates_get_tokenizer : Terminates w get_tokenizer.
Proof. intros h g. discriminate. Qed.

Lemma terminates_set_model v : Terminates w (set_model v).
Proof. intros h g. discriminate. Qed.

Lemma terminates_set_tokenizer v : Terminates w (set_tokenizer v).
Proof. intros h g. discriminate. Qed.

Lemma terminates_invoke c : Terminates w (invoke c).
Proof. intros h g. apply invoke_no_fuel. Qed.

Lemma terminates_bind {A B} (m : M A) (k : A -> M B) :
  Terminates w m -> (forall a, Terminates w (k a)) -> Terminates w (bind m k).
Proof. intros Hm Hk h g. apply bind_no_fuel; [apply Hm | intros a _; apply Hk]. Qed.

Lemma terminates_method recv name a kw : Terminates w (method recv name a kw).
Proof. intros h g. apply method_no_fuel. Qed.

Lemma terminates_method_m recv name a :
  Terminates w a -> Terminates w (method_m recv name a).
Proof.
  intros Ha. destruct recv; try apply terminates_raise;
    (apply terminates_bind; [exact Ha | intros xs; apply terminates_invoke]).
Qed.

Lemma terminates_call_value f name a kw : Terminates w (call_value f name a kw).
Proof. intros h g. destruct f; try apply invoke_no_fuel; discriminate. Qed.

Lemma terminates_py_get v k d : Terminates w (py_get v k d).
Proof. intros h g. destruct v; discriminate. Qed.

Lemma terminates_subscript v key : Terminates w (subscript v key).
Proof. intros h g. apply subscript_no_fuel. Qed.

Lemma terminates_str_concat lit v : Terminates w (str_concat lit v).
Proof. intros h g. apply str_concat_no_fuel. Qed.

Lemma terminates_with_ctx {A} cm (body : M A) :
  Terminates w body -> Terminates w (with_ctx cm body).
Proof.
  intros Hb h g. unfold with_ctx, ext, invoke. simpl.
  destruct (w (Call "__enter__" [cm] []) _) as [v | e]; simpl; [|discriminate].
  specialize (Hb (h ++ [(Call "__enter__" [cm] [], Gives v)])%list g).
  destruct (out (body _ _ _)); simpl; try (now contradiction Hb);
    destruct (w (Call "__exit__" [cm] []) _); simpl; discriminate.
Qed.

Lemma terminates_try_except {A} (m handler : M A) cls :
  Terminates w m -> Terminates w handler -> Terminates w (try_except m cls handler).
Proof.
  intros Hm Hh h g. unfold try_except. specialize (Hm h g).
  destruct (out (m w h g)) as [a | e |] eqn:E; try (rewrite E; discriminate);
    try (now contradiction Hm).
  destruct (exn_isinstance e cls); [simpl; apply Hh | rewrite E; discriminate].
Qed.

End Termination.

(** [fuel_walk] follows the structure of a script without loops. *)
Ltac fuel_walk :=
  cbv zeta;
  lazymatch goal with
  | |- Terminates _ (bind _ _) => apply terminates_bind; [fuel_walk | intros ?; fuel_walk]
  | |- Terminates _ (ret _) => apply terminates_ret
  | |- Terminates _ (raise _) => apply terminates_raise
  | |- Terminates _ get_model => apply terminates_get_model
  | |- Terminates _ get_tokenizer => apply terminates_get_tokenizer
  | |- Terminates _ (set_model _) => apply terminates_set_model
  | |- Terminates _ (set_tokenizer _) => apply terminates_set_tokenizer
  | |- Terminates _ (invoke _) => apply terminates_invoke
  | |- Terminates _ (ext _ _ _) => apply terminates_invoke
  | |- Terminates _ (print _) => apply terminates_invoke
  | |- Terminates _ (shell _) => apply terminates_invoke
  | |- Terminates _ (method _ _ _ _) => apply terminates_method
  | |- Terminates _ (method_m _ _ _) => apply terminates_method_m; fuel_walk
  | |- Terminates _ (call_value _ _ _ _) => apply terminates_call_value
  | |- Terminates _ (py_get _ _ _) => apply terminates_py_get
  | |- Terminates _ (subscript _ _) => apply terminates_subscript
  | |- Terminates _ (str_concat _ _) => apply terminates_str_concat
  | |- Terminates _ (with_ctx _ _) => apply terminates_with_ctx; fuel_walk
  | |- Terminates _ (try_except _ _ _) => apply terminates_try_except; fuel_walk
  | |- Terminates _ (match ?x with _ => _ end) => destruct x; fuel_walk
  | |- Terminates _ ?m =>
      first [ solve [auto] | let f := head_of m in unfold f; fuel_walk ]
  end.

Lemma handle_terminates w inputs : Terminates w (handle inputs).
Proof. fuel_walk. Qed.


(** ** The serving container *)

Lemma serve_each_cons entry inputs rest w h g :
  out (entry inputs w h g) <> Fuel ->
  let r1 := entry inputs w h g in
  let r2 := serve_each entry rest w (h ++ emitted r1)%list (glob r1) in
  serve_each entry (inputs :: rest) w h g
  = Ran (match out r2 with
         | Val os => Val (out r1 :: os)
         | Exc e => Exc e
         | Fuel => Fuel
         end) (glob r2) (emitted r1 ++ emitted r2)%list.
Proof.
  intros Hf r1 r2. subst r1 r2. simpl. unfold bind, attempt, ret. simpl.
  destruct (out (entry inputs w h g)) as [a | e |] eqn:E; simpl;
    try (now contradiction Hf);
    destruct (out (serve_each entry rest w _ _)); simpl;
    rewrite ?app_nil_r; reflexivity.
Qed.

Lemma serve_each_returns entry w :
  (forall inputs, Terminates w (entry inputs)) ->
  forall requests h g,
    exists os, out (serve_each entry requests w h g) = Val os
               /\ List.length os = List.length requests.
Proof.
  intros He requests. induction requests as [|inputs rest IH]; intros h g.
  - now exists [].
  - rewrite (serve_each_cons entry inputs rest w h g (He inputs h g)). cbv zeta.
    destruct (IH (h ++ emitted (entry inputs w h g))%list (glob (entry inputs w h g)))
      as (os & Ho & Hl).
    rewrite Ho. exists (out (entry inputs w h g) :: os). simpl. now rewrite Hl.
Qed.

Lemma raised_cons {A} (o : outcome A) os :
  raised (o :: os) = (if returned o then 0 else 1) + raised os.
Proof. unfold raised. simpl. now destruct (returned o). Qed.

(** *** Loading again *)

Lemma handle_each_when_loaded requests :
  forall w h g,
    py_truthy (g_model g) = true ->
    occurrences "LlamaForCausalLM.from_pretrained" (emitted (handle_each requests w h g)) = 0
    /\ glob (handle_each requests w h g) = g.
Proof.
  unfold handle_each.
  induction requests as [|inputs rest IH]; intros w h g Ht; [split; reflexivity|].
  rewrite (serve_each_cons handle inputs rest w h g (handle_terminates w inputs h g)).
  cbv zeta. simpl glob. simpl emitted.
  assert (Hg : glob (handle inputs w h g) = g).
  { rewrite (handle_when_loaded inputs w h g Ht). apply serve_keeps_globals. }
  assert (H0 : occurrences "LlamaForCausalLM.from_pretrained"
                 (emitted (handle inputs w h g)) = 0).
  { rewrite (handle_when_loaded inputs w h g Ht).
    pose proof (serve_never_loads w inputs h g). lia. }
  rewrite Hg. destruct (IH w (h ++ emitted (handle inputs w h g))%list g Ht) as [H1 H2].
  rewrite occurrences_app, H0, H1, H2. split; reflexivity.
Qed.

(** X2: on a container that goes on after a call that raised, the base
    model is loaded by no [handle] call once it is loaded, and over any
    sequence of [handle] calls at most once more than the number of calls
    that raised (so at most once when none raises): a [handle] that returns
    leaves a truthy model, which later calls keep, while one that raises
    while loading leaves the model unset, and the next one loads again. *)
Theorem base_model_is_loaded_once_more_per_failed_call
    (requests : list pyval) (w : World) (h : list event) (g : globals) :
  loads_truthy w ->
  let r := handle_each requests w h g in
  exists results,
    out r = Val results
    /\ List.length results = List.length requests
    /\ occurrences "LlamaForCausalLM.from_pretrained" (emitted r) <= 1 + raised results
    /\ (py_truthy (g_model g) = true ->
        occurrences "LlamaForCausalLM.from_pretrained" (emitted r) = 0 /\ glob r = g).
Proof.
  intros Hlib r. unfold r. clear r.
  assert (H : exists results,
             out (handle_each requests w h g) = Val results
             /\ List.length results = List.length requests
             /\ occurrences "LlamaForCausalLM.from_pretrained"
                  (emitted (handle_each requests w h g)) <= 1 + raised results).
  { revert h g. unfold handle_each.
    induction requests as [|inputs rest IH]; intros h g.
    - exists []. repeat split. unfold occurrences. simpl. lia.
    - rewrite (serve_each_cons handle inputs rest w h g (handle_terminates w inputs h g)).
      cbv zeta. simpl emitted.
      pose proof (handle_loads_once w inputs h g) as H1.
      destruct (IH (h ++ emitted (handle inputs w h g))%list (glob (handle inputs w h g)))
        as (os & Ho & Hl & Hb).
      rewrite Ho. exists (out (handle inputs w h g) :: os).
      split; [reflexivity|]. split; [simpl; now rewrite Hl|].
      rewrite occurrences_app, raised_cons.
      destruct (out (handle inputs w h g)) as [a | e |] eqn:E; simpl returned; cbv iota;
        try lia.
      pose proof (handle_leaves_model_loaded inputs w h g a Hlib E) as Ht.
      destruct (handle_each_when_loaded rest w (h ++ emitted (handle inputs w h g))%list
                  _ Ht) as [H0 _].
      unfold handle_each in H0. lia. }
  destruct H as (results & Ho & Hl & Hb).
  exists results. repeat split; try assumption;
    now apply handle_each_when_loaded.
Qed.

(** ** Adapter registration on a container that goes on *)












Lemma returned_val {A} (o : outcome A) : returned o = true -> exists a, o = Val a.
Proof. destruct o as [a | e |]; try discriminate. intros _. now exists a. Qed.



Lemma raised_app {A} (os1 os2 : list (outcome A)) :
  raised (os1 ++ os2) = raised os1 + raised os2.
Proof. unfold raised. now rewrite filter_app, length_app. Qed.

Lemma raised_le {A} (os : list (outcome A)) : raised os <= List.length os.
Proof. unfold raised. apply filter_length_le. Qed.






(** ** Loading, when the libraries answer *)

Lemma bind_ran {A B} (m : M A) (k : A -> M B) w h g a g' l :
  m w h g = Ran (Val a) g' l -> bind m k w h g = after l (k a w (h ++ l)%list g').
Proof. intros H. unfold bind, after. now rewrite H. Qed.

(** [gives H]: the next call of the run is answered as [H] says. *)
Ltac gives H :=
  match goal with
  | |- context [bind (invoke ?c) ?k ?w ?h ?g] =>
      rewrite (bind_invoke_gives c k w h g _ H); cbv beta
  end.

Lemma load_model_runs model_id w h g model tokenizer pad set logged :
  tokenizer <> PNone ->
  answers w h (loading_trace model_id model tokenizer pad set logged) ->
  load_model model_id w h g
  = Ran (Val (model, tokenizer)) g
      (loading_trace model_id model tokenizer pad set logged).
Proof.
  intros Hn Ha. unfold loading_trace in *. unfold load_model, ext.
  destruct (py_truthy pad) eqn:Ep; simpl in Ha.
  - destruct Ha as (H1 & H2 & H3 & H5 & _).
    gives H1. gives H2. rewrite (method_not_none _ _ _ _ Hn). unfold ext.
    gives H3. rewrite Ep. change (negb true) with false. cbv iota.
    match goal with
    | |- context [bind (ret PNone) ?k w ?h' g] =>
        rewrite (bind_pure (ret PNone) k w h' g PNone g eq_refl)
    end.
    gives H5. reflexivity.
  - destruct Ha as (H1 & H2 & H3 & H4 & H5 & _).
    gives H1. gives H2. rewrite !(method_not_none _ _ _ _ Hn). unfold ext.
    gives H3. rewrite Ep. change (negb false) with true. cbv iota.
    gives H4. gives H5. reflexivity.
Qed.

Lemma ensure_loaded_runs inputs w h g properties model tokenizer pad set logged :
  let l := ((get_properties_call inputs, Gives (PDict properties))
              :: loading_trace (request_field properties "model_id" PNone)
                   model tokenizer pad set logged)%list in
  py_truthy (g_model g) = false ->
  inputs <> PNone ->
  tokenizer <> PNone ->
  answers w h l ->
  ensure_loaded inputs w h g = Ran (Val tt) (Globals model tokenizer) l.
Proof.
  intros l Hf Hn Ht [H0 Ha]. subst l. unfold ensure_loaded.
  rewrite (bind_pure get_model _ w h g (g_model g) g eq_refl).
  rewrite Hf. change (negb false) with true. cbv iota.
  rewrite (method_not_none _ _ _ _ Hn). unfold ext.
  gives H0.
  match goal with
  | |- context [bind (py_get (PDict properties) "model_id" PNone) ?k w ?h' g] =>
      rewrite (bind_pure (py_get (PDict properties) "model_id" PNone) k w h' g
                 (request_field properties "model_id" PNone) g eq_refl)
  end.
  match goal with
  | |- context [bind (load_model ?id) ?k w ?h' g] =>
      rewrite (bind_ran (load_model id) k w h' g _ _ _
                 (load_model_runs id w h' g model tokenizer pad set logged Ht Ha))
  end.
  unfold after, bind, set_model, set_tokenizer. cbn [out glob emitted fst snd app].
  now rewrite !app_nil_r.
Qed.

Lemma evaluate_kwargs_binds sentence adapters kw :
  rejected_parameters (PDict kw) = false ->
  evaluate_kwargs sentence adapters (PDict kw)
  = evaluate sentence adapters (request_field kw "input" PNone)
      (request_field kw "max_new_tokens" (PInt 64)).
Proof. simpl. intros H. unfold evaluate_kwargs. now rewrite H. Qed.

Lemma evaluate_kwargs_rejects sentence adapters p w h g :
  rejected_parameters p = true ->
  exists msg, evaluate_kwargs sentence adapters p w h g = Ran (Exc (TypeError msg)) g [].
Proof.
  destruct p as [| b | z | m e | s0 | l | kw | n | cls ident]; simpl; intros H;
    try (eexists; reflexivity).
  rewrite H. eexists. reflexivity.
Qed.

(** C10: [handle] first loads the base model and the tokenizer when the
    global model is not loaded, before it asks whether the input is empty:
    the loading step makes none of the calls of the request path, does
    nothing when the model is loaded, and otherwise, when the libraries
    answer, asks for the properties, loads the model and the tokenizer of
    their [model_id] and assigns both globals; [handle] is that step
    followed by the rest, which runs only when the step returned, and it
    never fails to end.  On an empty input the rest returns None after that
    one question, without parsing JSON or running inference; otherwise it
    runs [evaluate] on the request's inputs, with [[]] for missing adapters
    and [{}] for missing parameters, and answers with its outputs: the
    parameters are bound to [input] (none when absent) and [max_new_tokens]
    (64 when absent), parameters that cannot be bound raise a TypeError, and
    [evaluate] hands the prompts of the inputs to the tokenizer and the
    adapters and the token budget to [model.generate]. *)
Theorem handle_loads_then_checks_empty_then_evaluates
    (inputs : pyval) (w : World) (h : list event) (g : globals) :
  let loading := ensure_loaded inputs w h g in
  Holds (all_calls loading_call) w (ensure_loaded inputs)
  /\ (py_truthy (g_model g) = true -> loading = Ran (Val tt) g [])
  /\ (py_truthy (g_model g) = false ->
      out loading = Val tt ->
      exists properties model tokenizer rest,
        let model_id := request_field properties "model_id" PNone in
        emitted loading
        = (get_properties_call inputs, Gives (PDict properties))
            :: (Call "LlamaForCausalLM.from_pretrained" [model_id]
                  [("low_cpu_mem_usage", PBool true);
                   ("torch_dtype", PName "torch.float16");
                   ("device_map", PStr "auto")], Gives model)
            :: (Call "LlamaTokenizer.from_pretrained" [model_id] [], Gives tokenizer)
            :: rest
        /\ glob loading = Globals model tokenizer)
  /\ (forall properties model tokenizer pad set logged,
        let l := ((get_properties_call inputs, Gives (PDict properties))
                    :: loading_trace (request_field properties "model_id" PNone)
                         model tokenizer pad set logged)%list in
        py_truthy (g_model g) = false ->
        inputs <> PNone ->
        tokenizer <> PNone ->
        answers w h l ->
        loading = Ran (Val tt) (Globals model tokenizer) l)
  /\ handle inputs w h g
     = match out loading with
       | Val _ => after (emitted loading)
                    (serve inputs w (h ++ emitted loading)%list (glob loading))
       | Exc e => Ran (Exc e) (glob loading) (emitted loading)
       | Fuel => Ran Fuel (glob loading) (emitted loading)
       end
  /\ out (handle inputs w h g) <> Fuel
  /\ (forall e,
        inputs <> PNone ->
        w (is_empty_call inputs) (occurrences "inputs.is_empty" h) = Gives e ->
        py_truthy e = true ->
        serve inputs w h g = Ran (Val PNone) g [(is_empty_call inputs, Gives e)])
  /\ (forall e request,
        inputs <> PNone ->
        w (is_empty_call inputs) (occurrences "inputs.is_empty" h) = Gives e ->
        py_truthy e = false ->
        w (get_as_json_call inputs) (occurrences "inputs.get_as_json" h)
        = Gives (PDict request) ->
        let asked := [(is_empty_call inputs, Gives e);
                      (get_as_json_call inputs, Gives (PDict request))] in
        serve inputs w h g
        = after asked
            ((outputs <- evaluate_kwargs
                           (request_field request "inputs" PNone)
                           (request_field request "adapters" (PList []))
                           (request_field request "parameters" (PDict [])) ;;
              respond outputs) w (h ++ asked)%list g))
  /\ (forall sentence adapters,
        evaluate_kwargs sentence adapters (PDict [])
        = evaluate sentence adapters PNone (PInt 64))
  /\ (forall sentence adapters parameters,
        rejected_parameters (PDict parameters) = false ->
        evaluate_kwargs sentence adapters (PDict parameters)
        = evaluate sentence adapters (request_field parameters "input" PNone)
            (request_field parameters "max_new_tokens" (PInt 64)))
  /\ (forall sentence adapters parameters h' g',
        rejected_parameters parameters = true ->
        exists msg,
          evaluate_kwargs sentence adapters parameters w h' g'
          = Ran (Exc (TypeError msg)) g' [])
  /\ (forall instructions adapters input max_new_tokens h' g',
        g_tokenizer g' <> PNone ->
        let prompts := map (fun inst => generate_prompt inst input) instructions in
        hd_error (emitted (evaluate (PList instructions) adapters input max_new_tokens
                             w h' g'))
        = Some (Call "tokenizer" [g_tokenizer g'; PList (map PStr prompts)]
                  [("return_tensors", PStr "pt"); ("padding", PBool true)],
                w (Call "tokenizer" [g_tokenizer g'; PList (map PStr prompts)]
                     [("return_tensors", PStr "pt"); ("padding", PBool true)])
                  (occurrences "tokenizer" h')))
  /\ (forall sentence adapters input max_new_tokens,
        Holds (all_calls (forwards adapters max_new_tokens)) w
          (evaluate sentence adapters input max_new_tokens)
        /\ Reaches w (fun c => fn c = "model.generate"
                               /\ dict_lookup "adapters" (kwargs c) = Some adapters
                               /\ dict_lookup "max_new_tokens" (kwargs c)
                                  = Some max_new_tokens)
             (evaluate sentence adapters input max_new_tokens)).
Proof.
  intros loading.
  refine (conj _ (conj _ (conj _ (conj _ (conj _ (conj _ (conj _ (conj _ (conj _
           (conj _ (conj _ (conj _ _)))))))))))).
  - walk loading_side.
  - apply ensure_loaded_when_loaded.
  - apply ensure_loaded_loads.
  - intros properties model tokenizer pad set logged. apply ensure_loaded_runs.
  - unfold handle, bind, after. fold loading. destruct (out loading); reflexivity.
  - apply handle_terminates.
  - intros e. apply serve_empty.
  - intros e request. apply serve_request.
  - apply evaluate_kwargs_defaults.
  - apply evaluate_kwargs_binds.
  - intros. now apply evaluate_kwargs_rejects.
  - intros instructions adapters input n h' g' Ht.
    now apply evaluate_feeds_tokenizer.
  - intros sentence adapters input n. split;
      [apply evaluate_forwards | apply evaluate_calls_generate].
Qed.

(** ** The request bodies, one by one *)

















(** ** A deployment that goes well *)





















End Interpreter.

(** * Closed instances *)

(** C4 as stated fails: outside a SageMaker role the function-calling
    notebook catches the ValueError of [get_execution_role] and runs on. *)
Lemma function_calling_notebook_catches_value_error :
  ~ propagates_exceptions demo_repr FunctionCallingNotebook.
Proof.
  intros H. specialize (H world_without_role [] init_globals).
  destruct H as [H | (pre & c & e & post & _ & _ & _ & H)].
  - apply clean_cleanb in H. vm_compute in H. discriminate H.
  - vm_compute in H. discriminate H.
Qed.

Lemma exceptions_propagate_witness :
  Handle (PObj "Input" 0) <> FunctionCallingNotebook
  /\ propagates_exceptions demo_repr (Handle (PObj "Input" 0)).
Proof.
  split; [discriminate|].
  apply (proj1 (exceptions_propagate_except_role_lookup demo_repr)). discriminate.
Defined.


Example readiness_wait_sleeps_twice :
  let r := wait_for_endpoint 5 (PObj "SageMaker" 0) "demo-endpoint"
             (world_in_service_after 2) [] init_globals in
  out r = Val anonymous
  /\ occurrences "time.sleep" (emitted r) = 2
  /\ occurrences "sm_client.describe_endpoint" (emitted r) = 3.
Proof. vm_compute. repeat split. Qed.

Example handle_warmup_loads_first :
  let r := handle demo_repr (PObj "Input" 0) warmup_world [] init_globals in
  out r = Val PNone
  /\ glob r = loaded_globals
  /\ map (fun ev => fn (fst ev)) (emitted r)
     = ["inputs.get_properties"; "LlamaForCausalLM.from_pretrained";
        "LlamaTokenizer.from_pretrained"; "tokenizer.pad_token";
        "tokenizer.pad_token="; "logging.info"; "inputs.is_empty"].
Proof. vm_compute. repeat split. Qed.

Example handle_request_runs_inference :
  let r := handle demo_repr (PObj "Input" 0) serving_world [] loaded_globals in
  out r = Val anonymous
  /\ map (fun ev => fn (fst ev)) (emitted r)
     = ["inputs.is_empty"; "inputs.get_as_json"; "tokenizer"; "__getitem__";
        "torch.cuda.current_device"; ".to"; "__getitem__";
        "torch.cuda.current_device"; ".to"; "GenerationConfig"; "logging.info";
        "torch.no_grad"; "__enter__"; "model.generate"; "__exit__";
        "tokenizer.batch_decode"; "Output"; ".add_as_json"].
Proof. vm_compute. repeat split. Qed.

Lemma serving_world_wraps : from_pretrained_wraps serving_world.
Proof.
  intros c n v Hf H. unfold serving_world in H. rewrite Hf in H. simpl in H.
  inversion H. reflexivity.
Qed.


(** ** Request bodies *)


Example no_request_body_follows_the_spec_schema :
  map spec_schema
    [djl_payload_1; djl_payload_2; lmi_payload;
     chat_payload chat_messages chat_parameters;
     chat_payload function_messages function_parameters]
  = [false; false; false; false; false].
Proof. reflexivity. Qed.

(** ** Orchestration *)

Example orchestration_ranks :
  map (fun nb => ranks (emitted (script demo_repr nb 5 (world_in_service_after 2) []
                                   init_globals)))
    [Djl; Lmi; FunctionCalling]
  = [[0; 0; 0; 1; 1; 1; 1; 1; 2; 2; 3; 3];
     [0; 0; 0; 1; 1; 1; 1; 1; 2; 3; 3; 3];
     [0; 1; 2; 2; 3; 3]].
Proof. vm_compute. reflexivity. Qed.

(** ** Tearing down *)

Lemma djl_teardown_witness :
  let r := script demo_repr Djl 5 (world_in_service_after 2) [] init_globals in
  out r = Val anonymous
  /\ In Model (created (emitted r))
  /\ ~ In Model (deleted (emitted r))
  /\ torn_down (emitted r) = false.
Proof.
  intros r.
  assert (Hout : out r = Val anonymous) by (vm_compute; reflexivity).
  split; [exact Hout|].
  exact (djl_notebook_leaves_its_model_behind demo_repr 5 (world_in_service_after 2) []
           init_globals anonymous Hout).
Defined.

Example teardown_of_each_notebook :
  map (fun nb =>
         let l := emitted (script demo_repr nb 5 (world_in_service_after 2) []
                             init_globals) in
         (created l, deleted l, torn_down l))
    [Djl; Lmi; FunctionCalling]
  = [([Model; EndpointConfig; Endpoint], [Endpoint; EndpointConfig], false);
     ([Model; EndpointConfig; Endpoint], [Endpoint; EndpointConfig; Model], true);
     ([Model; EndpointConfig; Endpoint], [Model; Endpoint; EndpointConfig], true)].
Proof. vm_compute. reflexivity. Qed.

(** ** The request path *)



Example handler_builds_the_prompts_it_tokenizes :
  hd_error (emitted (handle demo_repr (PObj "Input" 0) serving_world
                       [(is_empty_call (PObj "Input" 0), Gives (PBool false))]
                       loaded_globals))
  = Some (is_empty_call (PObj "Input" 0), Gives (PBool false))
  /\ nth_error (emitted (handle demo_repr (PObj "Input" 0) serving_world []
                          loaded_globals)) 2
     = Some (Call "tokenizer"
               [PObj "LlamaTokenizer" 2;
                strs [generate_prompt demo_repr (PStr "Tell me about Alpacas") PNone;
                      generate_prompt demo_repr (PStr "Invente uma desculpa criativa")
                        PNone]]
               [("return_tensors", PStr "pt"); ("padding", PBool true)],
             Gives anonymous).
Proof. vm_compute. split; reflexivity. Qed.

(** ** Determinism *)

(** C7 as stated fails: [generate_prompt] is a fixed mapping of its inputs. *)
Lemma generate_prompt_is_a_fixed_mapping : ~ no_fixed_mapping demo_repr.
Proof. intros H. exact (H GeneratePromptFn (generate_prompt_is_fixed demo_repr)). Qed.

Example generate_prompt_of_an_instruction :
  generate_prompt demo_repr (PStr "Tell me about Alpacas") PNone
  = "Below is an instruction that describes a task. Write a response that appropriately completes the "
      ++ nl ++ "        request.### Instruction: Tell me about Alpacas ### Response:".
Proof. reflexivity. Qed.

(** ** Prompt construction *)

Lemma evaluate_prompts_witness :
  g_tokenizer loaded_globals <> PNone
  /\ hd_error
       (emitted (evaluate demo_repr (strs ["Tell me about Alpacas"; "Tell me about AWS"])
                   (strs ["eng_alpaca"; "eng_alpaca"]) PNone (PInt 64)
                   serving_world [] loaded_globals))
     = Some (Call "tokenizer"
               [PObj "LlamaTokenizer" 2;
                strs [generate_prompt demo_repr (PStr "Tell me about Alpacas") PNone;
                      generate_prompt demo_repr (PStr "Tell me about AWS") PNone]]
               [("return_tensors", PStr "pt"); ("padding", PBool true)],
             Gives anonymous).
Proof.
  assert (H : g_tokenizer loaded_globals <> PNone) by discriminate.
  split; [exact H|].
  exact (proj1 (proj2 (proj2 (proj2
    (evaluate_builds_one_prompt_per_instruction demo_repr
       [PStr "Tell me about Alpacas"; PStr "Tell me about AWS"] PNone))))
    (strs ["eng_alpaca"; "eng_alpaca"]) (PInt 64) serving_world [] loaded_globals H).
Defined.

(** ** The globals *)

(** Serving a request on the loaded container keeps the globals. *)
Lemma handle_globals_witness :
  py_truthy (g_model loaded_globals) = true
  /\ glob (handle demo_repr (PObj "Input" 0) serving_world [] loaded_globals)
     = loaded_globals.
Proof.
  split; [reflexivity|].
  exact (proj1 (proj2 (handle_changes_globals_only_by_loading demo_repr
                         (PObj "Input" 0) serving_world [] loaded_globals))
           eq_refl).
Defined.

Lemma serving_world_loads_truthy : loads_truthy warmup_world.
Proof.
  intros c n v Hf H. unfold warmup_world, serving_world in H. rewrite Hf in H.
  simpl in H. inversion H. reflexivity.
Qed.

(** A registration that fails leaves the base model in place. *)
Lemma register_adapter_globals_witness :
  let r := register_adapter demo_repr (PObj "Input" 0) failing_world [] loaded_globals in
  (forall a, out r <> Val a) /\ glob r = loaded_globals.
Proof.
  intros r.
  assert (H : forall a, out r <> Val a) by (intros a; vm_compute; discriminate).
  split; [exact H|].
  exact (proj2 (proj2 (register_adapter_assigns_the_model_only_to_wrap_it demo_repr
                         (PObj "Input" 0) failing_world [] loaded_globals))
           H).
Defined.

(** ** Requests the handler rejects *)

Lemma rejected_parameters_witness :
  rejected_parameters
    (request_field request_naming_adapters_twice "parameters" (PDict [])) = true
  /\ exists msg,
       handle demo_repr (PObj "Input" 0)
         (world_with_request (PDict request_naming_adapters_twice)) [] loaded_globals
       = Ran (Exc (TypeError msg)) loaded_globals
           (asked (PObj "Input" 0) (PBool false) (PDict request_naming_adapters_twice)).
Proof.
  split; [reflexivity|].
  apply (parameters_that_cannot_be_bound_are_rejected demo_repr
           (PObj "Input" 0) (PBool false) request_naming_adapters_twice
           (world_with_request (PDict request_naming_adapters_twice)) [] loaded_globals);
    [reflexivity | discriminate | reflexivity | reflexivity | reflexivity | reflexivity].
Defined.

Lemma request_without_inputs_witness :
  py_iter (request_field request_without_inputs "inputs" PNone) = None
  /\ handle demo_repr (PObj "Input" 0)
       (world_with_request (PDict request_without_inputs)) [] loaded_globals
     = Ran (Exc (TypeError "object is not iterable")) loaded_globals
         (asked (PObj "Input" 0) (PBool false) (PDict request_without_inputs)).
Proof.
  split; [reflexivity|].
  apply (request_without_iterable_inputs_is_rejected demo_repr
           (PObj "Input" 0) (PBool false) request_without_inputs
           (world_with_request (PDict request_without_inputs)) [] loaded_globals);
    [reflexivity | discriminate | reflexivity | reflexivity | reflexivity | reflexivity
     | reflexivity].
Defined.

Lemma request_that_is_a_list_witness :
  json_non_object (strs ["Tell me about Alpacas"]) = true
  /\ handle demo_repr (PObj "Input" 0)
       (world_with_request (strs ["Tell me about Alpacas"])) [] loaded_globals
     = Ran (Exc (AttributeError "object has no attribute 'get'")) loaded_globals
         (asked (PObj "Input" 0) (PBool false) (strs ["Tell me about Alpacas"])).
Proof.
  split; [reflexivity|].
  apply (request_that_is_no_object_is_rejected demo_repr
           (PObj "Input" 0) (PBool false) (strs ["Tell me about Alpacas"])
           (world_with_request (strs ["Tell me about Alpacas"])) [] loaded_globals);
    [reflexivity | discriminate | reflexivity | reflexivity | reflexivity | reflexivity].
Defined.

(** ** Loading the base model *)

Lemma load_model_witness :
  let r := load_model demo_repr (PStr "huggyllama/llama-7b") serving_world []
             init_globals in
  out r = Val (PObj "LlamaForCausalLM" 1, PObj "LlamaTokenizer" 2)
  /\ exists pad set logged,
       emitted r
       = loading_trace demo_repr (PStr "huggyllama/llama-7b")
           (PObj "LlamaForCausalLM" 1) (PObj "LlamaTokenizer" 2) pad set logged
       /\ glob r = init_globals.
Proof.
  intros r. split; [reflexivity|].
  apply (load_model_pads_a_tokenizer_without_pad_token demo_repr
           (PStr "huggyllama/llama-7b") serving_world [] init_globals
           (PObj "LlamaForCausalLM" 1, PObj "LlamaTokenizer" 2)).
  reflexivity.
Defined.

(** ** The readiness wait *)

(** An endpoint whose creation failed is not waited for: the wait returns
    at once, as for one that is in service. *)
Lemma wait_on_a_failed_endpoint_witness :
  let r := wait_for_endpoint 0 (PObj "SageMaker" 0) "demo-endpoint"
             world_failed_endpoint [] init_globals in
  dict_lookup "EndpointStatus" failed_description = Some (PStr "Failed")
  /\ occurrences "time.sleep" (emitted r) = 0
  /\ occurrences "sm_client.describe_endpoint" (emitted r) = 1
  /\ out r <> Fuel.
Proof.
  intros r. split; [reflexivity|].
  destruct (wait_does_not_sleep_when_the_first_status_is_final
              (PObj "SageMaker" 0) "demo-endpoint" 0 world_failed_endpoint []
              init_globals failed_description "Failed")
    as (H1 & H2 & H3 & _);
    [discriminate | reflexivity | reflexivity | discriminate |].
  exact (conj H1 (conj H2 H3)).
Defined.

Example wait_on_a_failed_endpoint_returns :
  out (wait_for_endpoint 0 (PObj "SageMaker" 0) "demo-endpoint"
         world_failed_endpoint [] init_globals) = Val anonymous.
Proof. reflexivity. Qed.

Lemma wait_without_a_status_witness :
  dict_lookup "EndpointStatus" [("EndpointName", PStr "demo-endpoint")] = None
  /\ wait_for_endpoint 5 (PObj "SageMaker" 0) "demo-endpoint"
       world_without_status [] init_globals
     = Ran (Exc (KeyError "EndpointStatus")) init_globals
         [(describe_call (PObj "SageMaker" 0) "demo-endpoint",
           Gives (PDict [("EndpointName", PStr "demo-endpoint")]))].
Proof.
  split; [reflexivity|].
  apply (wait_raises_key_error_without_a_status
           (PObj "SageMaker" 0) "demo-endpoint" 5 world_without_status []
           init_globals [("EndpointName", PStr "demo-endpoint")]);
    [discriminate | reflexivity | reflexivity].
Defined.

Lemma wait_sleeps_between_polls_witness :
  let r := wait_for_endpoint 5 (PObj "SageMaker" 0) "demo-endpoint"
             (world_in_service_after 2) [] init_globals in
  out r = Val anonymous
  /\ occurrences "sm_client.describe_endpoint" (emitted r)
     = S (occurrences "time.sleep" (emitted r)).
Proof.
  intros r.
  assert (H : out r = Val anonymous) by (vm_compute; reflexivity).
  split; [exact H|].
  exact (wait_sleeps_once_between_polls (PObj "SageMaker" 0) "demo-endpoint" 5
           (world_in_service_after 2) [] init_globals anonymous H).
Defined.

(** ** How the notebooks wire their resources *)


(** ** The function-calling notebook *)

Lemma role_from_iam_witness :
  exn_isinstance (ValueError "The current AWS identity is not a role") "ValueError" = true
  /\ resolve_role world_with_iam_role [] init_globals
     = Ran (Val (PStr "arn:aws:iam::123456789012:role/sagemaker_execution_role"))
         init_globals
         [(role_call, Throws (ValueError "The current AWS identity is not a role"));
          (iam_client_call, Gives anonymous);
          (get_role_call anonymous, Gives (PDict iam_role))].
Proof.
  split; [reflexivity|].
  assert (Hn : anonymous <> PNone) by discriminate.
  exact (proj2 (proj2 (the_role_is_looked_up_in_iam_only_after_a_value_error
                         world_with_iam_role [] init_globals))
           (ValueError "The current AWS identity is not a role") anonymous iam_role
           [("RoleName", PStr "sagemaker_execution_role");
            ("Arn", PStr "arn:aws:iam::123456789012:role/sagemaker_execution_role")]
           (PStr "arn:aws:iam::123456789012:role/sagemaker_execution_role")
           eq_refl eq_refl eq_refl Hn eq_refl eq_refl eq_refl).
Defined.

Lemma predict_without_choices_witness :
  dict_lookup "choices" [("choices", PList [])] = Some (PList [])
  /\ predict_cell (PObj "Predictor" 0) (chat_payload chat_messages chat_parameters)
       world_without_choices [] init_globals
     = Ran (Exc (IndexError "list index out of range")) init_globals
         [(predict_call (PObj "Predictor" 0) (chat_payload chat_messages chat_parameters),
           Gives (PDict [("choices", PList [])]))].
Proof.
  split; [reflexivity|].
  assert (Hn : PObj "Predictor" 0 <> PNone) by discriminate.
  exact (proj2 (predict_cell_needs_a_first_choice (PObj "Predictor" 0)
                  (chat_payload chat_messages chat_parameters) [("choices", PList [])]
                  world_without_choices [] init_globals Hn eq_refl)
           eq_refl).
Defined.

Example chat_payload_of_the_notebook :
  chat_payload chat_messages chat_parameters
  = PDict (("messages", PList chat_messages) :: chat_parameters).
Proof. reflexivity. Qed.

(** ** Prompts *)

Lemma string_inputs_witness :
  ascii_text "Hi" = true
  /\ build_prompts demo_repr (PStr "Hi") PNone serving_world [] loaded_globals
     = Ran (Val [generate_prompt demo_repr (PStr "H") PNone;
                 generate_prompt demo_repr (PStr "i") PNone]) loaded_globals [].
Proof.
  split; [reflexivity|].
  exact (proj1 (inputs_that_are_no_list_are_iterated_all_the_same demo_repr PNone
                  serving_world [] loaded_globals) "Hi" eq_refl).
Defined.

(** The number 1 and the string "1" are written the same, and give the same
    prompt. *)
Lemma prompt_determines_instruction_witness :
  generate_prompt demo_repr (PInt 1) PNone = generate_prompt demo_repr (PStr "1") PNone
  /\ py_format demo_repr (PInt 1) = py_format demo_repr (PStr "1").
Proof.
  assert (H : generate_prompt demo_repr (PInt 1) PNone
              = generate_prompt demo_repr (PStr "1") PNone) by reflexivity.
  split; [exact H|].
  exact (the_prompt_determines_the_instruction demo_repr (PInt 1) (PStr "1") PNone H).
Defined.

Lemma markers_witness :
  "the context" <> ""
  /\ generate_prompt demo_repr (PStr ("Summarise" ++ " ### Input: " ++ "ignore the context"))
       (PStr "the context")
     = generate_prompt demo_repr (PStr "Summarise")
         (PStr ("ignore the context" ++ " ### Input: " ++ "the context")).
Proof.
  split; [discriminate|].
  apply (markers_in_an_instruction_are_not_escaped demo_repr). discriminate.
Defined.

(** ** Registering before the first request *)

Lemma registering_first_witness :
  let r := register_adapter demo_repr (PObj "Input" 0) serving_world [] init_globals in
  out r = Val PNone
  /\ g_tokenizer (glob r) = PNone
  /\ evaluate demo_repr (strs ["Tell me about Alpacas"]) (strs ["eng_alpaca"]) PNone
       (PInt 64) serving_world (emitted r) (glob r)
     = Ran (Exc (TypeError "'NoneType' object is not callable")) (glob r) [].
Proof.
  intros r.
  assert (H : out r = Val PNone) by (vm_compute; reflexivity).
  destruct (registering_before_the_first_request_leaves_no_tokenizer demo_repr
              (PObj "Input" 0) PNone serving_world [] init_globals
              eq_refl eq_refl serving_world_wraps H)
    as (_ & Htok & _ & He).
  refine (conj H (conj Htok _)). apply He.
Defined.

Example requests_fail_after_registering_first :
  let r := (register_adapter demo_repr (PObj "Input" 0) ;;;
            handle demo_repr (PObj "Input" 1)) serving_world [] init_globals in
  out r = Exc (TypeError "'NoneType' object is not callable")
  /\ occurrences "LlamaTokenizer.from_pretrained" (emitted r) = 0
  /\ occurrences "tokenizer" (emitted r) = 0.
Proof. vm_compute. repeat split. Qed.

(** ** Cleaning up *)

Lemma clean_up_witness :
  let l := emitted (script demo_repr Lmi 5 (world_in_service_after 2) [] init_globals) in
  deleted l <> [] /\ requests Lmi <= answered l.
Proof.
  intros l.
  assert (H : deleted l <> []) by (vm_compute; discriminate).
  split; [exact H|].
  exact (nothing_is_deleted_before_the_requests_are_answered demo_repr Lmi 5
           (world_in_service_after 2) [] init_globals H).
Defined.

(** When the endpoint fails the first request, the three resources stay. *)
Example a_failed_request_leaves_the_resources :
  map (fun nb =>
         let r := script demo_repr nb 5 world_failing_requests [] init_globals in
         (created (emitted r), deleted (emitted r), answered (emitted r)))
    [Djl; Lmi]
  = [([Model; EndpointConfig; Endpoint], [], 0);
     ([Model; EndpointConfig; Endpoint], [], 0)].
Proof. vm_compute. reflexivity. Qed.

(** ** What [handle] returns *)

Lemma response_witness :
  let r := serve demo_repr (PObj "Input" 0) serving_world [] loaded_globals in
  out r = Val anonymous
  /\ ((exists e,
          py_truthy e = true /\ anonymous = PNone
          /\ emitted r = [(is_empty_call (PObj "Input" 0), Gives e)])
      \/ (exists generated outputs output,
            ends_with (emitted r)
              [(Call "tokenizer.batch_decode" [PObj "LlamaTokenizer" 2; generated]
                  [("skip_special_tokens", PBool true)], Gives outputs);
               (Call "Output" [] [], Gives output);
               (Call ".add_as_json" [output; outputs] [], Gives anonymous)])).
Proof.
  intros r.
  assert (H : out r = Val anonymous) by (vm_compute; reflexivity).
  split; [exact H|].
  exact (proj2 (the_response_is_the_decoded_generation demo_repr serving_world)
           (PObj "Input" 0) anonymous [] loaded_globals H).
Defined.

Example response_of_the_sample_request :
  let r := serve demo_repr (PObj "Input" 0) serving_world [] loaded_globals in
  map (fun ev => (fn (fst ev), tl (args (fst ev)))) (skipn 15 (emitted r))
  = [("tokenizer.batch_decode", [anonymous]);
     ("Output", []);
     (".add_as_json", [strs ["Alpacas are members of the camelid family.";
                             "Desculpe, tenho um compromisso."]])].
Proof. vm_compute. reflexivity. Qed.

(** ** From the request to the calls *)

Lemma request_reaches_witness :
  let l := emitted (handle demo_repr (PObj "Input" 0) serving_world [] loaded_globals) in
  let prompts :=
    map (fun inst => generate_prompt demo_repr inst PNone)
      [PStr "Tell me about Alpacas"; PStr "Invente uma desculpa criativa"] in
  rejected_parameters (PDict []) = false
  /\ (exists r,
         nth_error l 2
         = Some (Call "tokenizer" [PObj "LlamaTokenizer" 2; PList (map PStr prompts)]
                   [("return_tensors", PStr "pt"); ("padding", PBool true)], r))
  /\ Forall (fun ev => forwards (strs ["eng_alpaca"; "portuguese_alpaca"]) (PInt 64)
                         (fst ev)) l.
Proof.
  intros l prompts. split; [reflexivity|].
  assert (Hn : PObj "Input" 0 <> PNone) by discriminate.
  assert (Htok : g_tokenizer loaded_globals <> PNone) by discriminate.
  exact (a_request_reaches_the_tokenizer_and_the_model demo_repr
           (PObj "Input" 0) (PBool false) serving_request []
           [PStr "Tell me about Alpacas"; PStr "Invente uma desculpa criativa"]
           serving_world [] loaded_globals
           eq_refl Htok Hn eq_refl eq_refl eq_refl eq_refl eq_refl eq_refl).
Defined.

(** ** Adapter registration on a container that goes on *)



Example a_registration_that_raises_leaves_the_base_model :
  let r := register_each demo_repr [PObj "Input" 0] world_failing_first_wrap []
             loaded_globals in
  out r = Val [Exc (builtin_exn "OSError" "adapter_config.json not found")]
  /\ glob r = loaded_globals
  /\ py_isinstance (g_model (glob r)) "PeftModel" = false.
Proof. vm_compute. repeat split. Qed.

Example the_next_registration_wraps_again :
  let r := register_each demo_repr [PObj "Input" 0; PObj "Input" 1]
             world_failing_first_wrap [] loaded_globals in
  out r = Val [Exc (builtin_exn "OSError" "adapter_config.json not found"); Val PNone]
  /\ glob r = Globals (PObj "PeftModel" 3) (PObj "LlamaTokenizer" 2)
  /\ map (fun ev => (fn (fst ev), hd_error (args (fst ev)), cleanb [ev])) (emitted r)
     = [("inputs.get_property", Some (PObj "Input" 0), true);
        ("inputs.get_property", Some (PObj "Input" 0), true);
        ("logging.info",
         Some (PStr "Registering adapter eng_alpaca from adapters/eng_alpaca"), true);
        ("PeftModel.from_pretrained", Some (PObj "LlamaForCausalLM" 1), false);
        ("inputs.get_property", Some (PObj "Input" 1), true);
        ("inputs.get_property", Some (PObj "Input" 1), true);
        ("logging.info",
         Some (PStr "Registering adapter portuguese_alpaca from adapters/portuguese_alpaca"),
         true);
        ("PeftModel.from_pretrained", Some (PObj "LlamaForCausalLM" 1), true)].
Proof. vm_compute. repeat split. Qed.


Example register_adapter_trace :
  map (fun ev => (fn (fst ev), hd_error (args (fst ev))))
    (emitted (register_each demo_repr [PObj "Input" 0; PObj "Input" 1]
                serving_world [] loaded_globals))
  = [("inputs.get_property", Some (PObj "Input" 0));
     ("inputs.get_property", Some (PObj "Input" 0));
     ("logging.info", Some (PStr "Registering adapter eng_alpaca from adapters/eng_alpaca"));
     ("PeftModel.from_pretrained", Some (PObj "LlamaForCausalLM" 1));
     ("inputs.get_property", Some (PObj "Input" 1));
     ("inputs.get_property", Some (PObj "Input" 1));
     ("logging.info",
      Some (PStr "Registering adapter portuguese_alpaca from adapters/portuguese_alpaca"));
     ("model.load_adapter", Some (PObj "PeftModel" 3))].
Proof. vm_compute. reflexivity. Qed.

(** ** Loading again *)

Lemma world_failing_first_tokenizer_loads_truthy :
  loads_truthy world_failing_first_tokenizer.
Proof.
  intros c n v Hf H.
  unfold world_failing_first_tokenizer, warmup_world, serving_world in H.
  rewrite Hf in H. simpl in H. inversion H. reflexivity.
Qed.

(** Three warm-up calls on a fresh container, none of which raises, load the
    model once. *)
Lemma base_model_witness :
  let r := handle_each demo_repr [PObj "Input" 0; PObj "Input" 0; PObj "Input" 0]
             warmup_world [] init_globals in
  loads_truthy warmup_world
  /\ occurrences "LlamaForCausalLM.from_pretrained" (emitted r) <= 1.
Proof.
  intros r.
  destruct (base_model_is_loaded_once_more_per_failed_call demo_repr
              [PObj "Input" 0; PObj "Input" 0; PObj "Input" 0] warmup_world []
              init_globals serving_world_loads_truthy)
    as (results & Ho & _ & Hb & _).
  assert (Hr : raised results = 0).
  { vm_compute in Ho. inversion Ho. reflexivity. }
  split; [exact serving_world_loads_truthy|].
  fold r in Hb. rewrite Hr in Hb. exact Hb.
Defined.

Example three_requests_load_once :
  let r := handle_each demo_repr [PObj "Input" 0; PObj "Input" 0; PObj "Input" 0]
             warmup_world [] init_globals in
  out r = Val [Val PNone; Val PNone; Val PNone]
  /\ glob r = loaded_globals
  /\ occurrences "LlamaForCausalLM.from_pretrained" (emitted r) = 1
  /\ occurrences "inputs.is_empty" (emitted r) = 3.
Proof. vm_compute. repeat split. Qed.

(** When the tokenizer cannot be loaded the call raises with the model
    unset, and the next call loads the base model a second time. *)
Example a_failed_load_is_repeated :
  let r := handle_each demo_repr [PObj "Input" 0; PObj "Input" 0]
             world_failing_first_tokenizer [] init_globals in
  out r = Val [Exc (builtin_exn "OSError" "tokenizer.model not found"); Val PNone]
  /\ glob r = loaded_globals
  /\ raised [Exc (builtin_exn "OSError" "tokenizer.model not found"); @Val pyval PNone] = 1
  /\ occurrences "LlamaForCausalLM.from_pretrained" (emitted r) = 2.
Proof. vm_compute. repeat split. Qed.

(** ** The request handler *)

(** A request on a fresh container: the model and the tokenizer of the
    configured [model_id] are loaded and assigned; on the loaded container
    the request is read and its inputs and adapters are evaluated, with the
    default parameters; parameters that name a token budget are bound to
    it. *)
Lemma handle_witness :
  let inputs := PObj "Input" 0 in
  let loaded :=
    (get_properties_call inputs, Gives (PDict [("model_id", PStr "huggyllama/llama-7b")]))
      :: loading_trace demo_repr (PStr "huggyllama/llama-7b")
           (PObj "LlamaForCausalLM" 1) (PObj "LlamaTokenizer" 2) PNone
           anonymous anonymous in
  let asked := asked inputs (PBool false) (PDict serving_request) in
  ensure_loaded demo_repr inputs serving_world [] init_globals
  = Ran (Val tt) loaded_globals loaded
  /\ serve demo_repr inputs serving_world [] loaded_globals
     = after asked
         ((outputs <- evaluate_kwargs demo_repr
                        (strs ["Tell me about Alpacas"; "Invente uma desculpa criativa"])
                        (strs ["eng_alpaca"; "portuguese_alpaca"]) (PDict []) ;;
           respond outputs) serving_world asked loaded_globals)
  /\ evaluate_kwargs demo_repr (strs ["Tell me about Alpacas"]) (strs ["eng_alpaca"])
       (PDict [("max_new_tokens", PInt 32)])
     = evaluate demo_repr (strs ["Tell me about Alpacas"]) (strs ["eng_alpaca"])
         PNone (PInt 32).
Proof.
  intros inputs loaded asked.
  destruct (handle_loads_then_checks_empty_then_evaluates demo_repr
              inputs serving_world [] init_globals)
    as (_ & _ & _ & Hload & _ & _ & _ & _ & _ & Hbind & _).
  destruct (handle_loads_then_checks_empty_then_evaluates demo_repr
              inputs serving_world [] loaded_globals)
    as (_ & _ & _ & _ & _ & _ & _ & Hserve & _).
  assert (Hn : inputs <> PNone) by discriminate.
  assert (Ht : PObj "LlamaTokenizer" 2 <> PNone) by discriminate.
  assert (Ha : answers serving_world [] loaded) by (cbv; repeat split).
  refine (conj _ (conj _ _)).
  - exact (Hload [("model_id", PStr "huggyllama/llama-7b")]
             (PObj "LlamaForCausalLM" 1) (PObj "LlamaTokenizer" 2) PNone
             anonymous anonymous eq_refl Hn Ht Ha).
  - exact (Hserve (PBool false) serving_request Hn eq_refl eq_refl eq_refl).
  - exact (Hbind (strs ["Tell me about Alpacas"]) (strs ["eng_alpaca"])
             [("max_new_tokens", PInt 32)] eq_refl).
Defined.

(** ** The request bodies, one by one *)


Example the_bodies_the_notebooks_send :
  map (fun nb => payloads (emitted (script demo_repr nb 5 (world_in_service_after 2) []
                                      init_globals)))
    [Djl; Lmi; FunctionCalling]
  = [[djl_payload_1; djl_payload_2];
     [lmi_payload];
     [chat_payload chat_messages chat_parameters;
      chat_payload function_messages function_parameters]].
Proof. vm_compute. reflexivity. Qed.

Example a_run_that_fails_sends_the_first_bodies :
  let r := script demo_repr Djl 5 world_failing_requests [] init_globals in
  returned (out r) = false /\ payloads (emitted r) = [djl_payload_1].
Proof. vm_compute. split; reflexivity. Qed.

(** ** A deployment that goes well *)




Example the_notebooks_run_to_their_end :
  map (fun nb => returned (out (script demo_repr nb 5 (world_going_well 2) []
                                  init_globals)))
    [Djl; Lmi; FunctionCalling]
  = [true; true; true].
Proof. vm_compute. reflexivity. Qed.

Example a_wait_that_is_too_short_runs_out_of_fuel :
  out (script demo_repr Lmi 1 (world_going_well 2) [] init_globals) = Fuel.
Proof. vm_compute. reflexivity. Qed.
